(** * InkyPi FTP browser: plugin [FTPBrowser] and blueprint [ftp_browser_api]

    A shallow embedding of
      - src/plugins/ftp_browser/ftp_browser.py   (module [Plugin])
      - src/blueprints/ftp_browser_api.py        (module [Blueprint])
    together with the parts of the Python runtime, [ftplib] and Pillow that the
    two files call.

    Modelling conventions.
      - A Python [str] is a [string]; its characters are the code points 0..255
        (the plugin sets [ftp.encoding = 'latin-1']).
      - A Python [int] is a [Z]; true division [/] of two ints is an exact
        rational ([Q]) in place of the IEEE double Python computes; [int(x)]
        truncates towards zero, [round(x)] rounds half to even.
      - Code that mutates [self], the FTP session or the local disk is written
        in a state-and-exception monad over a [world]; the state survives a
        raised exception, as it does in Python.
      - Behaviour of the outside world (the FTP server, the image decoder, the
        resampling kernel, the random generator, failures of [os.remove]) is
        a record [Env] of oracles, never fixed. *)

From Stdlib Require Import String Ascii List ZArith QArith Qround Bool Lia.
From Stdlib Require Import Sorted Permutation.
Import ListNotations.

Local Open Scope string_scope.
Local Open Scope Z_scope.

(** ** Python strings *)

Module PyStr.

(** [str.lower()] on code points below 256: A-Z and the Latin-1 capitals
    (U+00C0..U+00DE except the multiplication sign U+00D7) move up by 32. *)
Definition lower_char (c : ascii) : ascii :=
  let n := N_of_ascii c in
  if (((65 <=? n) && (n <=? 90)) ||
      ((192 <=? n) && (n <=? 222) && negb (n =? 215)))%N
  then ascii_of_N (n + 32) else c.

Fixpoint lower (s : string) : string :=
  match s with
  | EmptyString => EmptyString
  | String c s' => String (lower_char c) (lower s')
  end.

(** [s.startswith(p)] *)
Definition startswith (s p : string) : bool := prefix p s.

(** [s.endswith(suf)] *)
Definition endswith (s suf : string) : bool :=
  let n := String.length s in
  let m := String.length suf in
  (m <=? n)%nat && (substring (n - m) m s =? suf)%string.

(** [s.endswith(t)] for a tuple [t] of suffixes *)
Definition endswith_any (s : string) (sufs : list string) : bool :=
  existsb (endswith s) sufs.

(** [s.rstrip('/')] *)
Fixpoint rstrip_slash (s : string) : string :=
  match s with
  | EmptyString => EmptyString
  | String c s' =>
      match rstrip_slash s' with
      | EmptyString => if (c =? "/")%char then EmptyString else String c EmptyString
      | r => String c r
      end
  end.

(** [s.lstrip('.')] *)
Fixpoint lstrip_dot (s : string) : string :=
  match s with
  | EmptyString => EmptyString
  | String c s' => if (c =? ".")%char then lstrip_dot s' else s
  end.

(** [s.replace("\\", "/")] *)
Fixpoint replace_backslash (s : string) : string :=
  match s with
  | EmptyString => EmptyString
  | String c s' =>
      String (if (c =? "\")%char then "/"%char else c) (replace_backslash s')
  end.

(** The text after the last occurrence of [sep]; [None] when [sep] does not occur. *)
Fixpoint after_last (sep : ascii) (s : string) : option string :=
  match s with
  | EmptyString => None
  | String c s' =>
      match after_last sep s' with
      | Some t => Some t
      | None => if (c =? sep)%char then Some s' else None
      end
  end.

(** [p[:p.rfind('/') + 1]] *)
Fixpoint upto_last_slash (s : string) : string :=
  match s with
  | EmptyString => EmptyString
  | String c s' =>
      match upto_last_slash s' with
      | EmptyString => if (c =? "/")%char then String c EmptyString else EmptyString
      | h => String c h
      end
  end.

(** [os.path.join(a, b)] (posixpath) *)
Definition os_path_join (a b : string) : string :=
  if startswith b "/" then b
  else if (a =? "")%string || endswith a "/" then a ++ b
  else a ++ "/" ++ b.

(** [os.path.dirname(p)] (posixpath): the head up to the last slash, with its
    trailing slashes removed unless it consists of slashes only. *)
Definition os_path_dirname (p : string) : string :=
  let head := upto_last_slash p in
  match rstrip_slash head with
  | EmptyString => head
  | stripped => stripped
  end.

(** [os.path.splitext(p)[1]] (posixpath): the extension starts at the last dot
    of the last path component, leading dots of that component not counting. *)
Definition os_path_splitext_ext (p : string) : string :=
  let base := match after_last "/" p with Some t => t | None => p end in
  match after_last "." (lstrip_dot base) with
  | Some t => String "." t
  | None => EmptyString
  end.

(** [not s] for a [str] or [None] *)
Definition falsy (s : option string) : bool :=
  match s with
  | None => true
  | Some t => (t =? "")%string
  end.

(** Decimal rendering of a natural number, for generated names. *)
Fixpoint digits (fuel n : nat) (acc : string) : string :=
  match fuel with
  | O => acc
  | S fuel' =>
      let d := ascii_of_nat (48 + Nat.modulo n 10) in
      match Nat.div n 10 with
      | O => String d acc
      | q => digits fuel' q (String d acc)
      end
  end.

Definition str_of_nat (n : nat) : string := digits (S n) n EmptyString.

End PyStr.

Import PyStr.

(** ** Python exceptions *)

(** The exception classes the two files raise or catch by name.
    [OtherException] stands for any further subclass of [Exception]
    (ftplib.error_temp, OSError, EOFError, ...).  All of them are caught by
    [except Exception]. *)
Inductive exn_kind :=
| RuntimeError | ValueError | FileNotFoundError | AttributeError
| UnicodeDecodeError | ZeroDivisionError | error_perm | OtherException.

Definition exn_kind_eqb (a b : exn_kind) : bool :=
  match a, b with
  | RuntimeError, RuntimeError | ValueError, ValueError
  | FileNotFoundError, FileNotFoundError | AttributeError, AttributeError
  | UnicodeDecodeError, UnicodeDecodeError | ZeroDivisionError, ZeroDivisionError
  | error_perm, error_perm | OtherException, OtherException => true
  | _, _ => false
  end.

(** An exception instance: its class and [str(e)]. *)
Record exn := Exn { kind : exn_kind; message : string }.

(** [isinstance(e, kinds)] *)
Definition is_kind (kinds : list exn_kind) (e : exn) : bool :=
  existsb (exn_kind_eqb (kind e)) kinds.

(** ** Python numbers *)

Module PyNum.

(** [a / b] on ints; [None] stands for ZeroDivisionError. *)
Definition truediv (a b : Z) : option Q :=
  if b =? 0 then None else Some (inject_Z a / inject_Z b)%Q.

(** [x / y] on floats *)
Definition fdiv (x y : Q) : option Q :=
  if Qeq_bool y 0 then None else Some (x / y)%Q.

(** [int(x)]: truncation towards zero *)
Definition int_of (x : Q) : Z := Z.quot (Qnum x) (Zpos (Qden x)).

(** [x > y] *)
Definition gt (x y : Q) : bool := negb (Qle_bool x y).

(** [round(x)]: to the nearest integer, ties to the even one *)
Definition round (x : Q) : Z :=
  let f := Qfloor x in
  let twice := (2 * (x - inject_Z f))%Q in
  if Qle_bool twice 1
  then if Qeq_bool twice 1 then (if Z.even f then f else f + 1) else f
  else f + 1.

End PyNum.

(** ** Pillow images *)

Module PIL.

Definition pixel := (N * N * N)%type.
Definition black : pixel := (0, 0, 0)%N.

(** An RGB image: its [size] attribute [(width, height)] and its pixel rows,
    top row first. *)
Record Image := mkImage { size : Z * Z; data : list (list pixel) }.

Definition width (im : Image) : Z := fst (size im).
Definition height (im : Image) : Z := snd (size im).

(** The pixel in column [x] of row [y]; black outside the buffer, which is
    what Pillow fills in. *)
Definition pixel_at (im : Image) (x y : Z) : pixel :=
  if (0 <=? x) && (0 <=? y)
  then nth (Z.to_nat x) (nth (Z.to_nat y) (data im) []) black
  else black.

Definition zrange (n : Z) : list Z := map Z.of_nat (seq 0 (Z.to_nat n)).

(** A [w] by [h] buffer whose pixel in column [x] of row [y] is [f x y]. *)
Definition build (w h : Z) (f : Z -> Z -> pixel) : Image :=
  mkImage (w, h) (map (fun y => map (fun x => f x y) (zrange w)) (zrange h)).

(** [Image.transpose] with the three rotations.  Pillow documents them, as it
    does the angle of [rotate], as counter clockwise: [ROTATE_90] sends the
    top left pixel to the bottom left corner. *)
Inductive Transpose := ROTATE_90 | ROTATE_180 | ROTATE_270.

Definition transpose (t : Transpose) (im : Image) : Image :=
  let w := width im in
  let h := height im in
  match t with
  | ROTATE_90 => build h w (fun x y => pixel_at im (w - 1 - y) x)
  | ROTATE_180 => build w h (fun x y => pixel_at im (w - 1 - x) (h - 1 - y))
  | ROTATE_270 => build h w (fun x y => pixel_at im y (h - 1 - x))
  end.

(** [im.rotate(angle, expand=True)], angle in degrees counter clockwise.  For
    the quarter turns Pillow takes the exact path through [transpose]; other
    angles resample and are left out of the model (the plugin passes 90). *)
Definition rotate (angle : Z) (im : Image) : Image :=
  match angle mod 360 with
  | 90 => transpose ROTATE_90 im
  | 180 => transpose ROTATE_180 im
  | 270 => transpose ROTATE_270 im
  | _ => im
  end.

(** The image turned a quarter clockwise, stated on its own: the pixel that
    ends in column [x] of row [y] comes from column [y] of the row [x] places
    above the bottom row. *)
Definition clockwise (im : Image) : Image :=
  build (height im) (width im) (fun x y => pixel_at im y (height im - 1 - x)).

(** [im.crop((left, upper, right, lower))] *)
Definition crop (im : Image) (box : Z * Z * Z * Z) : exn + Image :=
  let '(x0, y0, x1, y1) := box in
  if x1 <? x0 then inl (Exn ValueError "Coordinate 'right' is less than 'left'")
  else if y1 <? y0 then inl (Exn ValueError "Coordinate 'lower' is less than 'upper'")
  else inr (build (x1 - x0) (y1 - y0) (fun x y => pixel_at im (x0 + x) (y0 + y))).

Section Resampling.

(** The LANCZOS resampling kernel: the pixel rows of the image scaled to the
    given size.  Its arithmetic is floating point and stays abstract. *)
Variable lanczos : Image -> Z * Z -> list (list pixel).

(** [im.resize(size, Image.LANCZOS)] *)
Definition resize (im : Image) (sz : Z * Z) : exn + Image :=
  let '(w, h) := sz in
  if (fst (size im) =? w) && (snd (size im) =? h) then inr im
  else if (w <? 1) || (h <? 1)
       then inl (Exn ValueError "height and width must be > 0")
       else inr (mkImage (w, h) (lanczos im (w, h))).

(** [ImageOps.contain(im, size, method=Image.LANCZOS)]: the image scaled to
    the largest size that fits inside [size] with the aspect ratio kept. *)
Definition contain (im : Image) (sz : Z * Z) : exn + Image :=
  let '(w, h) := sz in
  match PyNum.truediv (width im) (height im), PyNum.truediv w h with
  | Some im_ratio, Some dest_ratio =>
      if Qeq_bool im_ratio dest_ratio then resize im (w, h)
      else if PyNum.gt im_ratio dest_ratio then
        match PyNum.truediv (height im) (width im) with
        | Some r =>
            let new_height := PyNum.round (r * inject_Z w)%Q in
            resize im (w, new_height)
        | None => inl (Exn ZeroDivisionError "division by zero")
        end
      else
        let new_width := PyNum.round (im_ratio * inject_Z h)%Q in
        resize im (new_width, h)
  | _, _ => inl (Exn ZeroDivisionError "division by zero")
  end.

End Resampling.

End PIL.

Import PIL.

(** ** The outside world *)

(** What the FTP server, Pillow's decoder, the random generator and the local
    disk answer.  The server is described by its answers in a given working
    directory; nothing is assumed about them. *)
Record Env := mkEnv {
  (** [FTP.connect(host, port)] on the plain or TLS class: [None] on success *)
  srv_connect : string -> Z -> bool -> option exn;
  (** [FTP.login(user, passwd)]: the working directory after login *)
  srv_login : string -> string -> exn + string;
  (** [FTP.pwd()] in working directory [wd] *)
  srv_pwd : string -> exn + string;
  (** [FTP.cwd(p)] in working directory [wd]: the new working directory *)
  srv_cwd : string -> string -> exn + string;
  (** [list(FTP.mlsd())] in [wd]: names with their facts *)
  srv_mlsd : string -> exn + list (string * list (string * string));
  (** [FTP.nlst()] in [wd] *)
  srv_nlst : string -> exn + list string;
  (** [FTP.retrbinary("RETR p", callback)] in [wd]: the bytes handed to the
      callback, and the error that ended the transfer if one did *)
  srv_retr : string -> string -> string * option exn;
  (** [FTP.quit()]: [None] on success *)
  srv_quit : option exn;
  (** [os.remove(p)]: the error it raises, if any *)
  os_remove_error : string -> option exn;
  (** [random.choice] draws the index [randbelow n] among [n] items *)
  randbelow : nat -> nat;
  (** [Image.open(path).convert("RGB")] on the bytes of the file *)
  image_open : string -> exn + Image;
  (** [ImageOps.exif_transpose(img)] *)
  exif_transpose : Image -> exn + Image;
  (** the LANCZOS kernel of [resize] and [contain] *)
  lanczos : Image -> Z * Z -> list (list pixel);
  (** [img.thumbnail((200, 200))], JPEG encoding and base64 of the result *)
  jpeg_preview : Image -> exn + string
}.

(** An [ftplib.FTP] object: [conn_sock] is false until [connect] succeeds. *)
Record conn := mkConn { conn_id : nat; conn_sock : bool; conn_wd : string }.

(** What cleanup did, in order. *)
Inductive event := EvRemove (p : string) | EvQuit (id : nat).

(** The mutable state one request can touch.  [ftp] is [self.ftp] of the
    plugin instance, and the local [ftp] of a blueprint request;
    [temp_files] is [self.temp_files]; [disk] holds the local scratch files
    that exist, with their bytes; [live] lists the sessions the server still
    holds open. *)
Record world := mkWorld {
  ftp : option conn;
  temp_files : list string;
  disk : list (string * string);
  tmp_seq : nat;
  live : list nat;
  next_conn : nat;
  trace : list event
}.

Definition set_ftp (c : option conn) (w : world) : world :=
  mkWorld c (temp_files w) (disk w) (tmp_seq w) (live w) (next_conn w) (trace w).
Definition set_temp_files (l : list string) (w : world) : world :=
  mkWorld (ftp w) l (disk w) (tmp_seq w) (live w) (next_conn w) (trace w).
Definition set_disk (d : list (string * string)) (w : world) : world :=
  mkWorld (ftp w) (temp_files w) d (tmp_seq w) (live w) (next_conn w) (trace w).
Definition set_tmp_seq (n : nat) (w : world) : world :=
  mkWorld (ftp w) (temp_files w) (disk w) n (live w) (next_conn w) (trace w).
Definition set_live (l : list nat) (w : world) : world :=
  mkWorld (ftp w) (temp_files w) (disk w) (tmp_seq w) l (next_conn w) (trace w).
Definition set_next_conn (n : nat) (w : world) : world :=
  mkWorld (ftp w) (temp_files w) (disk w) (tmp_seq w) (live w) n (trace w).
Definition log_event (e : event) (w : world) : world :=
  mkWorld (ftp w) (temp_files w) (disk w) (tmp_seq w) (live w) (next_conn w)
          (trace w ++ [e])%list.

(** A fresh plugin instance ([__init__]) in a process without scratch files. *)
Definition fresh_world : world := mkWorld None [] [] 0 [] 0 [].

(** ** Computations *)

(** How a call ends: it returns, it raises, or (the recursive walk only) the
    model runs out of fuel, which stands for a walk that does not end. *)
Inductive outcome (A : Type) :=
| Ret (a : A)
| Raise (e : exn)
| Spin.
Arguments Ret {A} a.
Arguments Raise {A} e.
Arguments Spin {A}.

Definition M (A : Type) : Type := world -> outcome A * world.

Definition ret {A} (a : A) : M A := fun w => (Ret a, w).
Definition raise {A} (e : exn) : M A := fun w => (Raise e, w).
Definition spin {A} : M A := fun w => (Spin, w).

Definition bind {A B} (m : M A) (k : A -> M B) : M B :=
  fun w =>
    match m w with
    | (Ret a, w') => k a w'
    | (Raise e, w') => (Raise e, w')
    | (Spin, w') => (Spin, w')
    end.

Declare Scope py_scope.
Delimit Scope py_scope with py.
Notation "x <- m ;; k" := (bind m (fun x => k))
  (at level 61, m at next level, right associativity) : py_scope.
Notation "m ;; k" := (bind m (fun _ => k))
  (at level 61, right associativity) : py_scope.
Local Open Scope py_scope.

(** [try: m except Exception as e: h e] *)
Definition try_except {A} (m : M A) (h : exn -> M A) : M A :=
  fun w =>
    match m w with
    | (Raise e, w') => h e w'
    | r => r
    end.

(** [try: m except (K1, K2, ...) as e: h e] *)
Definition try_except_of {A} (kinds : list exn_kind) (m : M A) (h : exn -> M A) : M A :=
  try_except m (fun e => if is_kind kinds e then h e else raise e).

(** [try: m finally: f] *)
Definition try_finally {A} (m : M A) (f : M unit) : M A :=
  fun w =>
    match m w with
    | (r, w') =>
        match f w' with
        | (Ret _, w'') => (r, w'')
        | (Raise e, w'') => (Raise e, w'')
        | (Spin, w'') => (Spin, w'')
        end
    end.

(** [for x in xs: acc = body x acc] *)
Fixpoint for_each {A B} (xs : list A) (acc : B) (body : A -> B -> M B) : M B :=
  match xs with
  | [] => ret acc
  | x :: xs' => acc' <- body x acc ;; for_each xs' acc' body
  end.

Definition get {A} (f : world -> A) : M A := fun w => (Ret (f w), w).
Definition modify (f : world -> world) : M unit := fun w => (Ret tt, f w).

(** An ordinary result or exception of a library call. *)
Definition lift {A} (r : exn + A) : M A :=
  match r with
  | inl e => raise e
  | inr a => ret a
  end.

Definition exn_of {A} (e : option exn) (a : A) : exn + A :=
  match e with
  | Some x => inl x
  | None => inr a
  end.

Definition attempt {A} (m : M A) : M (exn + A) :=
  fun w =>
    match m w with
    | (Ret a, w') => (Ret (inr a), w')
    | (Raise e, w') => (Ret (inl e), w')
    | (Spin, w') => (Spin, w')
    end.

(** ** The library calls of the two files *)

Module Lib.
Section WithEnv.

Variable E : Env.

(** A method call on the FTP object: AttributeError on [None] and on an
    object that was never connected. *)
Definition on_ftp {A} (meth : string) (f : conn -> (exn + A) * conn) : M A :=
  fun w =>
    match ftp w with
    | None =>
        (Raise (Exn AttributeError
                    ("'NoneType' object has no attribute '" ++ meth ++ "'")), w)
    | Some c =>
        if conn_sock c then
          match f c with
          | (inl e, c') => (Raise e, set_ftp (Some c') w)
          | (inr a, c') => (Ret a, set_ftp (Some c') w)
          end
        else (Raise (Exn AttributeError
                         "'NoneType' object has no attribute 'sendall'"), w)
    end.

Definition ftp_pwd : M string :=
  on_ftp "pwd" (fun c => (srv_pwd E (conn_wd c), c)).

Definition ftp_cwd (p : string) : M unit :=
  on_ftp "cwd" (fun c =>
    match srv_cwd E (conn_wd c) p with
    | inl e => (inl e, c)
    | inr wd => (inr tt, mkConn (conn_id c) (conn_sock c) wd)
    end).

Definition ftp_mlsd : M (list (string * list (string * string))) :=
  on_ftp "mlsd" (fun c => (srv_mlsd E (conn_wd c), c)).

Definition ftp_nlst : M (list string) :=
  on_ftp "nlst" (fun c => (srv_nlst E (conn_wd c), c)).

(** [ftp.retrbinary("RETR p", callback)]: the callback receives what arrives,
    then the transfer error, if any, is raised. *)
Definition ftp_retrbinary (p : string) (callback : string -> M unit) : M unit :=
  r <- on_ftp "retrbinary" (fun c => (inr (srv_retr E (conn_wd c) p), c)) ;;
  callback (fst r) ;;
  lift (exn_of (snd r) tt).

(** [ftp.quit()]: on success the server drops the session and the object
    closes its socket. *)
Definition ftp_quit : M unit :=
  c <- on_ftp "quit" (fun c => (exn_of (srv_quit E) c, c)) ;;
  modify (fun w => log_event (EvQuit (conn_id c))
                     (set_live (remove Nat.eq_dec (conn_id c) (live w))
                        (set_ftp (Some (mkConn (conn_id c) false (conn_wd c))) w))).

(** [ftp = FTP()] or [FTP_TLS()]: a new, unconnected object. *)
Definition ftp_new : M unit :=
  modify (fun w => set_next_conn (S (next_conn w))
                     (set_ftp (Some (mkConn (next_conn w) false "")) w)).

(** [ftp.connect(host, port)] *)
Definition ftp_connect (host : string) (port : Z) (use_tls : bool) : M unit :=
  fun w =>
    match ftp w with
    | None => (Raise (Exn AttributeError
                          "'NoneType' object has no attribute 'connect'"), w)
    | Some c =>
        match srv_connect E host port use_tls with
        | Some e => (Raise e, w)
        | None => (Ret tt, set_live (conn_id c :: live w)
                             (set_ftp (Some (mkConn (conn_id c) true "")) w))
        end
    end.

(** [ftp.login(user, passwd)] *)
Definition ftp_login (user passwd : string) : M unit :=
  on_ftp "login" (fun c =>
    match srv_login E user passwd with
    | inl e => (inl e, c)
    | inr wd => (inr tt, mkConn (conn_id c) (conn_sock c) wd)
    end).

(** ** Local files *)

Definition on_disk (p : string) (d : list (string * string)) : bool :=
  existsb (fun f => (fst f =? p)%string) d.

Fixpoint read_file (p : string) (d : list (string * string)) : option string :=
  match d with
  | [] => None
  | (q, bytes) :: d' => if (q =? p)%string then Some bytes else read_file p d'
  end.

Definition unlink (p : string) (d : list (string * string)) : list (string * string) :=
  filter (fun f => negb (fst f =? p)%string) d.

(** [tempfile.NamedTemporaryFile(delete=False, suffix=suffix)]: a new empty
    file; the name is drawn from a counter. *)
Definition named_temporary_file (suffix : string) : M string :=
  n <- get tmp_seq ;;
  let name := "/tmp/tmp" ++ str_of_nat n ++ suffix in
  modify (fun w => set_tmp_seq (S n) (set_disk (disk w ++ [(name, "")])%list w)) ;;
  ret name.

(** [tmp_file.write(data)] *)
Definition file_write (p data : string) : M unit :=
  modify (fun w =>
    set_disk (map (fun f => if (fst f =? p)%string then (p, snd f ++ data) else f)
                  (disk w)) w).

(** [os.path.exists(p)] *)
Definition os_path_exists (p : string) : M bool :=
  get (fun w => on_disk p (disk w)).

(** [os.remove(p)] *)
Definition os_remove (p : string) : M unit :=
  match os_remove_error E p with
  | Some e => raise e
  | None =>
      ex <- os_path_exists p ;;
      if ex : bool
      then modify (fun w => log_event (EvRemove p) (set_disk (unlink p (disk w)) w))
      else raise (Exn FileNotFoundError ("No such file or directory: '" ++ p ++ "'"))
  end.

(** [Image.open(p).convert("RGB")] *)
Definition pil_open (p : string) : M Image :=
  d <- get disk ;;
  match read_file p d with
  | None => raise (Exn FileNotFoundError ("No such file or directory: '" ++ p ++ "'"))
  | Some bytes => lift (image_open E bytes)
  end.

End WithEnv.
End Lib.

Import Lib.

(** ** Listing results *)

(** One entry of a listing: the dict with keys "name", "path", "type" and,
    for files, "size". *)
Record DirEntry := mkEntry {
  e_name : string;
  e_path : string;
  e_type : string;
  e_size : option string
}.

(** The dict [_list_directory] returns. *)
Record Listing := mkListing {
  l_current_path : string;
  l_parent_path : string;
  l_directories : list DirEntry;
  l_files : list DirEntry
}.

Definition image_exts : list string := [".jpg"; ".jpeg"; ".png"; ".bmp"; ".gif"].

(** [name in (".", "..")] *)
Definition is_dots (name : string) : bool :=
  ((name =? ".") || (name =? ".."))%string.

(** [facts.get(k)] *)
Fixpoint dict_get (facts : list (string * string)) (k : string) : option string :=
  match facts with
  | [] => None
  | (k', v) :: rest => if (k' =? k)%string then Some v else dict_get rest k
  end.

Definition get_default (facts : list (string * string)) (k d : string) : string :=
  match dict_get facts k with
  | Some v => v
  | None => d
  end.

(** [l.sort(key=key)]: the stable sort by [<] on the keys.  An element goes in
    front of the first element of the sorted rest whose key is not smaller. *)
Fixpoint insert_by {A} (key : A -> string) (x : A) (l : list A) : list A :=
  match l with
  | [] => [x]
  | y :: l' => if String.ltb (key y) (key x) then y :: insert_by key x l' else x :: l
  end.

Definition sort_by {A} (key : A -> string) (l : list A) : list A :=
  fold_right (insert_by key) [] l.

Definition name_key (x : DirEntry) : string := lower (e_name x).

(** The loop over the MLSD entries (plugin lines 102-119, blueprint lines
    53-70): one step on the pair [(directories, files)]. *)
Definition classify_mlsd (path : string) (acc : list DirEntry * list DirEntry)
    (entry : string * list (string * string)) : list DirEntry * list DirEntry :=
  let '(name, facts) := entry in
  let '(directories, files) := acc in
  if is_dots name then acc
  else
    let entry_type := get_default facts "type" "" in
    if (entry_type =? "dir")%string then
      ((directories ++ [mkEntry name (replace_backslash (os_path_join path name)) "dir" None])%list,
       files)
    else if (entry_type =? "file")%string && endswith_any (lower name) image_exts then
      (directories,
       (files ++ [mkEntry name (replace_backslash (os_path_join path name)) "file"
                          (Some (get_default facts "size" "0"))])%list)
    else acc.

Section Listing.

Variable E : Env.

(** The loop over the NLST names (plugin lines 130-155, blueprint lines
    81-106): a name is a directory when the session can change into it and
    back; [error_perm] makes it a file. *)
Definition probe_nlst (path name : string) (acc : list DirEntry * list DirEntry)
    : M (list DirEntry * list DirEntry) :=
  let '(directories, files) := acc in
  if is_dots name then ret acc
  else
    let full_path := replace_backslash (os_path_join path name) in
    try_except_of [error_perm]
      (curr_dir <- ftp_pwd E ;;
       ftp_cwd E full_path ;;
       ftp_cwd E curr_dir ;;
       ret ((directories ++ [mkEntry name full_path "dir" None])%list, files))
      (fun _ =>
         if endswith_any (lower name) image_exts
         then ret (directories,
                   (files ++ [mkEntry name full_path "file" (Some "unknown")])%list)
         else ret acc).

(** The body of [_list_directory] from its outer [try] on (plugin lines
    90-170, blueprint lines 41-121); the two differ in [self.ftp] against
    [ftp] only. *)
Definition list_directory_body (path : string) : M Listing :=
  try_except
    (ftp_cwd E path ;;
     r <- try_except_of [AttributeError; error_perm]
            (entries <- ftp_mlsd E ;;
             ret (fold_left (classify_mlsd path) entries ([], [])))
            (fun _ =>
               names <- ftp_nlst E ;;
               for_each names ([], []) (probe_nlst path)) ;;
     let directories := sort_by name_key (fst r) in
     let files := sort_by name_key (snd r) in
     ret (mkListing path
                    (if (path =? "/")%string then "/" else os_path_dirname path)
                    directories files))
    (fun e => raise (Exn RuntimeError
                         ("Failed to list directory " ++ path ++ ": " ++ message e))).

End Listing.

(** ** The plugin: class [FTPBrowser] *)

(** The options of the config schema (module docstring, lines 10-20) and the
    two display options [_get_image] reads; a key that is absent is [None]. *)
Record Settings := mkSettings {
  server : option string;
  port : option Z;
  username : option string;
  password : option string;
  use_tls : option bool;
  passive : option bool;
  initial_path : option string;
  current_path : option string;
  random_mode : option bool;
  selected_image : option string;
  verticalHandling : option string;
  padImage : option bool
}.

(** [settings.get(k, d)] *)
Definition get_or {A} (v : option A) (d : A) : A :=
  match v with
  | Some a => a
  | None => d
  end.

Module Plugin.
Section WithEnv.

Variable E : Env.

(** [_cleanup_temp_files] (lines 43-51) *)
Definition _cleanup_temp_files : M unit :=
  files <- get temp_files ;;
  for_each files tt (fun temp_file _ =>
    try_except
      (ex <- os_path_exists temp_file ;;
       if ex : bool then os_remove E temp_file else ret tt)
      (fun _ => ret tt)) ;;
  modify (set_temp_files []).

(** [_close_ftp] (lines 53-61) *)
Definition _close_ftp : M unit :=
  c <- get ftp ;;
  match c with
  | Some _ =>
      try_finally (try_except (ftp_quit E) (fun _ => ret tt))
                  (modify (set_ftp None))
  | None => ret tt
  end.

(** [__del__] (lines 39-41) *)
Definition __del__ : M unit :=
  _cleanup_temp_files ;;
  _close_ftp.

(** [_connect_ftp] (lines 63-80) *)
Definition _connect_ftp (server : string) (port : Z) (username password : string)
    (use_tls passive : bool) : M unit :=
  try_except
    (_close_ftp ;;
     ftp_new ;;
     ftp_connect E server port use_tls ;;
     ftp_login E username password ;;
     ret tt)
    (fun e => raise (Exn RuntimeError
                         ("Failed to connect to FTP server: " ++ message e))).

(** [_list_directory] (lines 82-170) *)
Definition _list_directory (path : string) : M Listing :=
  c <- get ftp ;;
  match c with
  | None => raise (Exn RuntimeError "FTP connection is not established")
  | Some _ => list_directory_body E path
  end.

(** One round of the loop of [_list_images_recursive] (lines 199-231);
    [recurse] is the method itself. *)
Definition visit_entry (recurse : string -> M (list string))
    (path current_dir : string)
    (entry : string * list (string * string)) (images : list string)
    : M (list string) :=
  let '(name, facts) := entry in
  if is_dots name then ret images
  else
    try_except
      (let full_path := rstrip_slash path ++ "/" ++ name in
       let entry_type := dict_get facts "type" in
       match entry_type with
       | Some t =>
           if (t =? "dir")%string then
             sub <- recurse full_path ;;
             ret (images ++ sub)%list
           else if (t =? "file")%string then
             if endswith_any (lower name) image_exts
             then ret (images ++ [full_path])%list
             else ret images
           else ret images
       | None =>
           probed <- try_except_of [error_perm; UnicodeDecodeError]
                       (ftp_cwd E full_path ;;
                        ftp_cwd E current_dir ;;
                        sub <- recurse full_path ;;
                        ret (Some (images ++ sub)%list))
                       (fun _ => ret None) ;;
           match probed with
           | Some images' => ret images'
           | None =>
               if endswith_any (lower name) image_exts
               then ret (images ++ [full_path])%list
               else ret images
           end
       end)
      (fun _ => ret images).

(** [_list_images_recursive] (lines 172-240).  [fuel] bounds the depth of
    the recursion; Python has no such bound. *)
Fixpoint _list_images_recursive (fuel : nat) (path : string) : M (list string) :=
  match fuel with
  | O => spin
  | S fuel' =>
      c <- get ftp ;;
      match c with
      | None => raise (Exn RuntimeError "FTP connection is not established")
      | Some _ =>
          try_except
            (current_dir <- ftp_pwd E ;;
             ftp_cwd E path ;;
             listed <- try_except_of [AttributeError; error_perm; UnicodeDecodeError]
                         (entries <- ftp_mlsd E ;; ret (inr entries))
                         (fun _ =>
                            try_except_of [UnicodeDecodeError]
                              (names <- ftp_nlst E ;;
                               ret (inr (map (fun name => (name, [])) names)))
                              (fun _ => ftp_cwd E current_dir ;; ret (inl []))) ;;
             match listed with
             | inl images => ret images
             | inr entries =>
                 images <- for_each entries []
                             (visit_entry (_list_images_recursive fuel') path current_dir) ;;
                 ftp_cwd E current_dir ;;
                 ret images
             end)
            (fun e => raise (Exn RuntimeError
                                 ("Failed to list images in " ++ path ++ ": " ++ message e)))
      end
  end.

(** [_download_image] (lines 242-261) *)
Definition _download_image (remote_path : string) : M string :=
  c <- get ftp ;;
  match c with
  | None => raise (Exn RuntimeError "FTP connection is not established")
  | Some _ =>
      try_except
        (let suffix := match os_path_splitext_ext remote_path with
                       | EmptyString => ".png"
                       | ext => ext
                       end in
         local_path <- named_temporary_file suffix ;;
         modify (fun w => set_temp_files (temp_files w ++ [local_path])%list w) ;;
         ftp_retrbinary E remote_path (file_write local_path) ;;
         ret local_path)
        (fun e => raise (Exn RuntimeError
                             ("Failed to download image " ++ remote_path ++ ": " ++ message e)))
  end.

End WithEnv.
End Plugin.

Module Fit.

(** The crop box of the "crop" policy (lines 320-333), as passed to
    [img.crop]: [(left, upper, right, lower)]. *)
Definition crop_box (img_width img_height display_width display_height : Z)
    : exn + (Z * Z * Z * Z) :=
  match PyNum.truediv display_width display_height,
        PyNum.truediv img_width img_height with
  | Some display_aspect, Some img_aspect =>
      if PyNum.gt img_aspect display_aspect then
        let new_width := PyNum.int_of (inject_Z img_height * display_aspect)%Q in
        let left := (img_width - new_width) / 2 in
        inr (left, 0, left + new_width, img_height)
      else
        match PyNum.fdiv (inject_Z img_width) display_aspect with
        | Some q =>
            let new_height := PyNum.int_of q in
            let top := (img_height - new_height) / 2 in
            inr (0, top, img_width, top + new_height)
        | None => inl (Exn ZeroDivisionError "float division by zero")
        end
  | _, _ => inl (Exn ZeroDivisionError "division by zero")
  end.

(** Handling of vertical images (lines 308-333): the image handed on to the
    final resize. *)
Definition handle_vertical (settings : Settings) (img : Image) (dimensions : Z * Z)
    : exn + Image :=
  let '(img_width, img_height) := size img in
  let '(display_width, display_height) := dimensions in
  let vertical_handling := get_or (verticalHandling settings) "rotate" in
  if (img_height >? img_width) && (display_width >? display_height) then
    if (vertical_handling =? "rotate")%string then inr (rotate 90 img)
    else if (vertical_handling =? "crop")%string then
      match crop_box img_width img_height display_width display_height with
      | inl e => inl e
      | inr box => crop img box
      end
    else inr img
  else inr img.

(** The final resize (lines 335-339). *)
Definition resize_to_display (E : Env) (settings : Settings) (img : Image)
    (dimensions : Z * Z) : exn + Image :=
  if get_or (padImage settings) false
  then contain (lanczos E) img dimensions
  else resize (lanczos E) img dimensions.

End Fit.

Module Facade.
Section WithEnv.

Variable E : Env.

(** [random.choice(images)] on a list that is not empty *)
Definition random_choice (images : list string) : string :=
  nth (Nat.modulo (randbelow E (List.length images)) (List.length images)) images "".

(** [_get_image] (lines 263-345); [fuel] is handed to the recursive walk. *)
Definition _get_image (fuel : nat) (settings : Settings) (dimensions : Z * Z) : M Image :=
  if falsy (server settings)
  then raise (Exn ValueError "FTP Browser plugin: 'server' option is required")
  else
    Plugin._connect_ftp E (get_or (server settings) "") (get_or (port settings) 21)
      (get_or (username settings) "anonymous") (get_or (password settings) "")
      (get_or (use_tls settings) false) (get_or (passive settings) true) ;;
    try_except
      (selected <-
         (if get_or (random_mode settings) false then
            images <- Plugin._list_images_recursive E fuel
                        (get_or (current_path settings) "/") ;;
            match images with
            | [] => raise (Exn FileNotFoundError
                               ("No images found under folder '"
                                ++ get_or (current_path settings) "/" ++ "'"))
            | _ => ret (random_choice images)
            end
          else if falsy (selected_image settings)
               then raise (Exn ValueError "No image selected and random mode is disabled")
               else ret (get_or (selected_image settings) "")) ;;
       local_path <- Plugin._download_image E selected ;;
       img <- pil_open E local_path ;;
       img <- try_except (lift (exif_transpose E img)) (fun _ => ret img) ;;
       img <- lift (Fit.handle_vertical settings img dimensions) ;;
       img <- lift (Fit.resize_to_display E settings img dimensions) ;;
       ret img)
      (fun e => raise (Exn RuntimeError ("Failed to get image: " ++ message e))).

End WithEnv.
End Facade.

(** ** The blueprint: module [ftp_browser_api] *)

(** The JSON body of a request to [/list_directory] or [/preview_image]. *)
Record Request := mkRequest {
  rq_server : option string;
  rq_username : option string;
  rq_password : option string;
  rq_use_tls : option bool;
  rq_passive : option bool;
  rq_path : option string
}.

(** The response: its status and its JSON body. *)
Inductive Response :=
| Listed (l : Listing)              (* 200, the listing *)
| Preview (b64 : string)            (* 200, {"preview": ...} *)
| Error (status : Z) (msg : string) (* {"error": msg} *).

Module Blueprint.
Section WithEnv.

Variable E : Env.

(** [_connect_ftp] (lines 23-34); the object it returns is [ftp] of the world. *)
Definition _connect_ftp (server username password : string) (use_tls passive : bool)
    : M unit :=
  try_except
    (ftp_new ;;
     ftp_connect E server 21 use_tls ;;
     ftp_login E username password ;;
     ret tt)
    (fun e => raise (Exn RuntimeError
                         ("Failed to connect to FTP server: " ++ message e))).

(** [_list_directory] (lines 36-121) *)
Definition _list_directory (path : string) : M Listing :=
  list_directory_body E path.

(** [_download_image] (lines 123-138) *)
Definition _download_image (remote_path : string) : M string :=
  try_except
    (let suffix := match os_path_splitext_ext remote_path with
                   | EmptyString => ".png"
                   | ext => ext
                   end in
     local_path <- named_temporary_file suffix ;;
     ftp_retrbinary E remote_path (file_write local_path) ;;
     ret local_path)
    (fun e => raise (Exn RuntimeError
                         ("Failed to download image " ++ remote_path ++ ": " ++ message e))).

(** The [finally] block shared by the two endpoints: [ftp.quit()] with its
    errors swallowed. *)
Definition quit_quietly : M unit :=
  try_except (ftp_quit E) (fun _ => ret tt).

(** [list_directory] (lines 140-168) *)
Definition list_directory (data : Request) : M Response :=
  try_except
    (if falsy (rq_server data) then ret (Error 400 "Server is required")
     else
       _connect_ftp (get_or (rq_server data) "")
                    (get_or (rq_username data) "anonymous")
                    (get_or (rq_password data) "")
                    (get_or (rq_use_tls data) false)
                    (get_or (rq_passive data) true) ;;
       try_finally
         (result <- _list_directory (get_or (rq_path data) "/") ;;
          ret (Listed result))
         quit_quietly)
    (fun e => ret (Error 500 (message e))).

(** [preview_image] (lines 170-216).  [local_path] is [None] until
    [_download_image] has returned. *)
Definition preview_image (data : Request) : M Response :=
  try_except
    (if falsy (rq_server data) then ret (Error 400 "Server is required")
     else if falsy (rq_path data) then ret (Error 400 "Image path is required")
     else
       _connect_ftp (get_or (rq_server data) "")
                    (get_or (rq_username data) "anonymous")
                    (get_or (rq_password data) "")
                    (get_or (rq_use_tls data) false)
                    (get_or (rq_passive data) true) ;;
       downloaded <- attempt (_download_image (get_or (rq_path data) "")) ;;
       let local_path := match downloaded with
                         | inr p => Some p
                         | inl _ => None
                         end in
       try_finally
         (p <- lift downloaded ;;
          img <- pil_open E p ;;
          img_str <- lift (jpeg_preview E img) ;;
          ret (Preview img_str))
         (quit_quietly ;;
          match local_path with
          | Some p =>
              ex <- os_path_exists p ;;
              if (negb (p =? "")%string && ex)%bool then os_remove E p else ret tt
          | None => ret tt
          end))
    (fun e => ret (Error 500 (message e))).

End WithEnv.
End Blueprint.

(** ** Directory trees *)



(** [f"{path.rstrip('/')}/{name}"] (line 204) *)
Definition child_path (path name : string) : string :=
  rstrip_slash path ++ "/" ++ name.













(** The world [w] with its session [c] moved to working directory [wd]. *)
Definition moved (w : world) (c : conn) (wd : string) : world :=
  set_ftp (Some (mkConn (conn_id c) true wd)) w.

(** ** Concrete servers and inputs *)

Module Demo.

Definition px (n : N) : pixel := (n, n, n).

(** A portrait image, 2 wide and 3 high, and a square one. *)
Definition portrait : Image :=
  mkImage (2, 3) [[px 1; px 2]; [px 3; px 4]; [px 5; px 6]].
Definition square : Image :=
  mkImage (2, 2) [[px 1; px 2]; [px 3; px 4]].

(** A portrait image, 5 wide and 10 high, every pixel different. *)
Definition tall : Image := build 5 10 (fun x y => px (Z.to_N (5 * y + x))).

(** A server given by a table: its directories by absolute path with their
    MLSD entries, its files with their bytes, whether it knows MLSD, what
    NLST fails with, and whether transfers break after four bytes. *)
Record Table := mkTable {
  t_dirs : list (string * list (string * list (string * string)));
  t_files : list (string * string);
  t_mlsd : bool;
  t_nlst_error : option exn;
  t_cut : bool
}.

Fixpoint assoc {A} (k : string) (l : list (string * A)) : option A :=
  match l with
  | [] => None
  | (k', v) :: l' => if (k' =? k)%string then Some v else assoc k l'
  end.

Definition table_cwd (t : Table) (wd p : string) : exn + string :=
  let target := if startswith p "/" then p else rstrip_slash wd ++ "/" ++ p in
  match assoc target (t_dirs t) with
  | Some _ => inr target
  | None => inl (Exn error_perm "550 Failed to change directory.")
  end.

(** The working directory of a session is an absolute path. *)
Definition table_pwd (wd : string) : exn + string :=
  if startswith wd "/" then inr wd
  else inl (Exn error_perm "550 No such directory.").

Definition table_mlsd (t : Table) (wd : string)
    : exn + list (string * list (string * string)) :=
  if t_mlsd t then
    match assoc wd (t_dirs t) with
    | Some entries => inr entries
    | None => inl (Exn error_perm "550 Directory not found.")
    end
  else inl (Exn error_perm "500 Unknown command.").

Definition table_nlst (t : Table) (wd : string) : exn + list string :=
  match t_nlst_error t with
  | Some e => inl e
  | None =>
      match assoc wd (t_dirs t) with
      | Some entries => inr (map fst entries)
      | None => inl (Exn error_perm "550 Directory not found.")
      end
  end.

Definition table_retr (t : Table) (wd p : string) : string * option exn :=
  match assoc p (t_files t) with
  | Some bytes =>
      if t_cut t
      then (substring 0 4 bytes, Some (Exn OtherException "Connection reset by peer"))
      else (bytes, None)
  | None => ("", Some (Exn error_perm "550 Failed to open file."))
  end.

Definition decode (bytes : string) : exn + Image :=
  if (bytes =? "PORTRAIT")%string then inr portrait
  else if (bytes =? "SQUARE")%string then inr square
  else inl (Exn OtherException "cannot identify image file").

(** A nearest-neighbour kernel in the place of LANCZOS. *)
Definition nearest (im : Image) (sz : Z * Z) : list (list pixel) :=
  data (build (fst sz) (snd sz)
              (fun x y => pixel_at im (x * width im / fst sz) (y * height im / snd sz))).

Definition table_env (t : Table) : Env :=
  mkEnv (fun _ _ _ => None) (fun _ _ => inr "/")
        table_pwd (table_cwd t) (table_mlsd t) (table_nlst t) (table_retr t)
        None (fun _ => None) (fun _ => O)
        decode (fun im => inr im) nearest (fun _ => inr "/9j/4AAQ").

Definition file_facts : list (string * string) := [("type", "file"); ("size", "8")].
Definition dir_facts : list (string * string) := [("type", "dir")].

(** /            a.jpg  notes.txt  pics/  vault/ (cannot be entered)
    /pics        tall.PNG  deep/
    /pics/deep   c.gif *)
Definition photo_dirs : list (string * list (string * list (string * string))) :=
  [("/", [(".", [("type", "cdir")]); ("..", [("type", "pdir")]);
          ("a.jpg", file_facts); ("notes.txt", file_facts);
          ("pics", dir_facts); ("vault", dir_facts)]);
   ("/pics", [("tall.PNG", file_facts); ("deep", dir_facts)]);
   ("/pics/deep", [("c.gif", file_facts)])].



Definition photo_files : list (string * string) :=
  [("/a.jpg", "SQUARE"); ("/pics/tall.PNG", "PORTRAIT"); ("/pics/deep/c.gif", "SQUARE")].

(** The photo server, with MLSD. *)
Definition photos : Env := table_env (mkTable photo_dirs photo_files true None false).

(** The same server without MLSD: listings come from NLST. *)
Definition legacy : Env := table_env (mkTable photo_dirs photo_files false None false).

(** A server whose data connection breaks during a transfer. *)
Definition flaky : Env := table_env (mkTable photo_dirs photo_files true None true).

(** A server that knows no MLSD and refuses NLST. *)
Definition mute : Env :=
  table_env (mkTable photo_dirs photo_files false
                     (Some (Exn error_perm "550 No files found.")) false).


(** A server with an empty root directory. *)
Definition bare : Env := table_env (mkTable [("/", [])] [] true None false).

Definition base_settings : Settings :=
  mkSettings (Some "nas.local") None None None None None None None None None None None.

(** Show the selected image [p]. *)
Definition show (p : string) (policy : option string) (pad : option bool) : Settings :=
  mkSettings (Some "nas.local") None None None None None None None
             None (Some p) policy pad.

(** Show a random image from under [dir]. *)
Definition shuffle (dir : string) : Settings :=
  mkSettings (Some "nas.local") None None None None None None (Some dir)
             (Some true) None None None.

(** The world of a plugin instance that has just connected. *)
Definition online : world :=
  mkWorld (Some (mkConn 0 true "/")) [] [] 0 [0%nat] 1 [].

Definition preview_request (p : string) : Request :=
  mkRequest (Some "nas.local") None None None None (Some p).

End Demo.

(** ** Vocabulary of the statements *)

(** The call of [_connect_ftp] that [_get_image] makes (line 283). *)
Definition connect_of (E : Env) (settings : Settings) : M unit :=
  Plugin._connect_ftp E (get_or (server settings) "") (get_or (port settings) 21)
    (get_or (username settings) "anonymous") (get_or (password settings) "")
    (get_or (use_tls settings) false) (get_or (passive settings) true).

(** [session_of w]: which session object the world holds and whether its
    socket is open, the working directory left aside. *)
Definition session_of (w : world) : option (nat * bool) :=
  option_map (fun c => (conn_id c, conn_sock c)) (ftp w).

(** Two worlds that differ at most in the working directory of the session. *)
Definition only_wd (w w' : world) : Prop :=
  session_of w' = session_of w /\
  temp_files w' = temp_files w /\
  disk w' = disk w /\
  tmp_seq w' = tmp_seq w /\
  live w' = live w /\
  next_conn w' = next_conn w /\
  trace w' = trace w.

(** From [w] to [w']: the session object and the open sessions are the same,
    nothing was cleaned up, [temp_files] only grew, and every local file that
    exists was there before or is registered in [temp_files]. *)
Definition tracked (w w' : world) : Prop :=
  session_of w' = session_of w /\
  live w' = live w /\
  trace w' = trace w /\
  incl (temp_files w) (temp_files w') /\
  (forall p, on_disk p (disk w') = true ->
             on_disk p (disk w) = true \/ In p (temp_files w')).

(** A computation all of whose runs relate the world before to the world
    after, however they end. *)
Definition keeps (R : world -> world -> Prop) {A} (m : M A) : Prop :=
  forall w r w', m w = (r, w') -> R w w'.

(** What the loop of [_cleanup_temp_files] leaves of a disk [d], and the
    files it removed, in order: a registered file goes when it exists and
    [os.remove] does not fail on it. *)
Fixpoint sweep (E : Env) (files : list string) (d : list (string * string))
    : list (string * string) * list string :=
  match files with
  | [] => (d, [])
  | p :: rest =>
      match on_disk p d, os_remove_error E p with
      | true, None => let '(d', removed) := sweep E rest (unlink p d) in (d', p :: removed)
      | _, _ => sweep E rest d
      end
  end.

(** The world [_cleanup_temp_files] leaves. *)
Definition swept (E : Env) (w : world) : world :=
  mkWorld (ftp w) [] (fst (sweep E (temp_files w) (disk w))) (tmp_seq w) (live w)
          (next_conn w)
          (trace w ++ map EvRemove (snd (sweep E (temp_files w) (disk w))))%list.

(** The world [_close_ftp] leaves: the session is dropped by the server when
    the object is connected and [quit] succeeds; [self.ftp] is [None] either
    way. *)
Definition hung_up (E : Env) (w : world) : world :=
  match ftp w with
  | None => w
  | Some c =>
      match conn_sock c, srv_quit E with
      | true, None =>
          mkWorld None (temp_files w) (disk w) (tmp_seq w)
                  (remove Nat.eq_dec (conn_id c) (live w)) (next_conn w)
                  (trace w ++ [EvQuit (conn_id c)])%list
      | _, _ => set_ftp None w
      end
  end.

(** The order of a sorted listing: by name, case-insensitively. *)
Definition name_le (a b : DirEntry) : Prop :=
  String.leb (name_key a) (name_key b) = true.

(** [name] ends in one of the image extensions, in any case: it splits into
    a stem and an extension whose lower case is in the list. *)
Definition has_image_ext (name : string) : Prop :=
  exists stem ext, name = stem ++ ext /\ In (lower ext) image_exts.

Definition not_pseudo (e : DirEntry) : Prop :=
  e_name e <> "." /\ e_name e <> "..".

(** What C5 asks of a listing. *)
Definition well_listed (l : Listing) : Prop :=
  StronglySorted name_le (l_directories l) /\
  StronglySorted name_le (l_files l) /\
  Forall not_pseudo (l_directories l) /\
  Forall not_pseudo (l_files l) /\
  Forall (fun e => has_image_ext (e_name e)) (l_files l).

(** What both loops maintain on the pair [(directories, files)]. *)
Definition sound_pair (acc : list DirEntry * list DirEntry) : Prop :=
  Forall not_pseudo (fst acc) /\ Forall not_pseudo (snd acc) /\
  Forall (fun e => has_image_ext (e_name e)) (snd acc).

(** The server is coherent about working directories: a name that [pwd]
    reports for a directory leads back to that directory by [cwd], wherever
    the session is. *)
Definition pwd_names_wd (E : Env) : Prop :=
  forall wd d, srv_pwd E wd = inr d ->
  forall wd0 wd', srv_cwd E wd0 d = inr wd' -> wd' = wd.


(** ** More of the plugin *)

(** What [generate_image] asks of the device configuration:
    [get_resolution()] and [get_config("orientation")]. *)
Record DeviceConfig := mkDevice {
  resolution : Z * Z;
  orientation : option string
}.

(** [dimensions[::-1]] *)
Definition reversed (dimensions : Z * Z) : Z * Z :=
  (snd dimensions, fst dimensions).

Module Entry.

(** [generate_image] (lines 347-355) *)
Definition generate_image (E : Env) (fuel : nat) (settings : Settings)
    (device_config : DeviceConfig) : M Image :=
  let dimensions := resolution device_config in
  let dimensions :=
    match orientation device_config with
    | Some o => if (o =? "vertical")%string then reversed dimensions else dimensions
    | None => dimensions
    end in
  Facade._get_image E fuel settings dimensions.

End Entry.

(** ** More vocabulary *)

(** The settings [s] with random mode off and [p] as the selected image. *)
Definition chosen (s : Settings) (p : string) : Settings :=
  mkSettings (server s) (port s) (username s) (password s) (use_tls s) (passive s)
             (initial_path s) (current_path s) (Some false) (Some p)
             (verticalHandling s) (padImage s).

(** The character [c] occurs in [s]. *)
Fixpoint has_char (c : ascii) (s : string) : bool :=
  match s with
  | EmptyString => false
  | String c' s' => (c' =? c)%char || has_char c s'
  end.

(** A name a listing can show without confusion: not empty, no slash, no
    backslash. *)
Definition plain_name (name : string) : Prop :=
  name <> "" /\ has_char "/" name = false /\ has_char "\" name = false.

(** A path as the browser passes it on: the root, or a path that does not
    end in a slash; no backslash. *)
Definition plain_path (path : string) : Prop :=
  has_char "\" path = false /\
  (path = "/" \/ (path <> "" /\ rstrip_slash path = path)).

(** [p] lies under [root]. *)
Definition under (root p : string) : Prop :=
  startswith p (rstrip_slash root ++ "/") = true.

(** The directories and files of an MLSD answer, as [_list_directory] turns
    them into entries, before sorting. *)
Definition mlsd_directories (path : string)
    (entries : list (string * list (string * string))) : list DirEntry :=
  map (fun e => mkEntry (fst e) (replace_backslash (os_path_join path (fst e))) "dir" None)
      (filter (fun e => negb (is_dots (fst e))
                        && (get_default (snd e) "type" "" =? "dir")%string)
              entries).

Definition mlsd_files (path : string)
    (entries : list (string * list (string * string))) : list DirEntry :=
  map (fun e => mkEntry (fst e) (replace_backslash (os_path_join path (fst e))) "file"
                        (Some (get_default (snd e) "size" "0")))
      (filter (fun e => negb (is_dots (fst e))
                        && (get_default (snd e) "type" "" =? "file")%string
                        && endswith_any (lower (fst e)) image_exts)
              entries).

(** The name [NamedTemporaryFile] draws in world [w] for [suffix]. *)
Definition next_tmp_name (w : world) (suffix : string) : string :=
  "/tmp/tmp" ++ str_of_nat (tmp_seq w) ++ suffix.

(** The suffix [_download_image] gives the scratch file (lines 248, 126). *)
Definition scratch_suffix (remote_path : string) : string :=
  match os_path_splitext_ext remote_path with
  | EmptyString => ".png"
  | ext => ext
  end.

(** One of the session methods of the plugin raises [e] from world [w],
    leaving [w']. *)
Definition plugin_method_raises (E : Env) (w : world) (e : exn) (w' : world) : Prop :=
  (exists server port user passwd use_tls passive,
     Plugin._connect_ftp E server port user passwd use_tls passive w = (Raise e, w')) \/
  (exists path, Plugin._list_directory E path w = (Raise e, w')) \/
  (exists fuel path, Plugin._list_images_recursive E fuel path w = (Raise e, w')) \/
  (exists remote_path, Plugin._download_image E remote_path w = (Raise e, w')).

(** Every entry of the pair carries the path [os.path.join] gives its name
    under [path]. *)
Definition pathed (path : string) (acc : list DirEntry * list DirEntry) : Prop :=
  Forall (fun e => e_path e = replace_backslash (os_path_join path (e_name e))) (fst acc) /\
  Forall (fun e => e_path e = replace_backslash (os_path_join path (e_name e))) (snd acc).

(** [_list_directory] of the plugin or of the blueprint returns [l] for
    [path]. *)
Definition lists_as (E : Env) (path : string) (w : world) (l : Listing) (w' : world)
    : Prop :=
  Plugin._list_directory E path w = (Ret l, w') \/
  Blueprint._list_directory E path w = (Ret l, w').

(** A path the walk from [root] may return: under the root, with an image
    extension. *)
Definition image_under (root p : string) : Prop :=
  under root p /\ has_image_ext p.

(** A computation that comes to an end: no run is cut short by the fuel. *)
Definition ends {A} (m : M A) : Prop := forall w, fst (m w) <> Spin.

(** The HTTP status of a response. *)
Definition status (r : Response) : Z :=
  match r with
  | Listed _ | Preview _ => 200
  | Error s _ => s
  end.

(** The call of [_connect_ftp] that an endpoint makes for the body [data]
    (lines 156, 188). *)
Definition connect_for (E : Env) (data : Request) : M unit :=
  Blueprint._connect_ftp E (get_or (rq_server data) "")
    (get_or (rq_username data) "anonymous") (get_or (rq_password data) "")
    (get_or (rq_use_tls data) false) (get_or (rq_passive data) true).

(** One of the two endpoints ends with [r] on the body [data]. *)
Definition answers (E : Env) (data : Request) (w : world) (r : outcome Response)
    (w' : world) : Prop :=
  Blueprint.list_directory E data w = (r, w') \/
  Blueprint.preview_image E data w = (r, w').

(** The local files and their register are the same in [w'] as in [w]. *)
Definition files_kept (w w' : world) : Prop :=
  disk w' = disk w /\ temp_files w' = temp_files w.

(** From [w] to [w'] no session was opened or closed and nothing was taken
    from the log. *)
Definition sessions_kept (w w' : world) : Prop :=
  live w' = live w /\ incl (trace w) (trace w').

(** The server knows no MLSD: it refuses the command in every directory. *)
Definition no_mlsd (E : Env) : Prop :=
  forall wd, exists e, srv_mlsd E wd = inl e.

(** The server lets a session change into [p] from some directory. *)
Definition enterable (E : Env) (p : string) : Prop :=
  exists wd wd', srv_cwd E wd p = inr wd'.

(** The photo server of the examples with every login refused. *)
Definition locked_out : Env :=
  mkEnv (srv_connect Demo.photos)
        (fun _ _ => inl (Exn error_perm "530 Login incorrect."))
        (srv_pwd Demo.photos) (srv_cwd Demo.photos) (srv_mlsd Demo.photos)
        (srv_nlst Demo.photos) (srv_retr Demo.photos) (srv_quit Demo.photos)
        (os_remove_error Demo.photos) (randbelow Demo.photos) (image_open Demo.photos)
        (exif_transpose Demo.photos) (lanczos Demo.photos) (jpeg_preview Demo.photos).

(** A directory entry made by probing: the server let the session in. *)
Definition probed_dir (E : Env) (d : DirEntry) : Prop :=
  e_type d = "dir" /\ e_size d = None /\ enterable E (e_path d).

(** A file entry made without MLSD facts. *)
Definition unsized_file (f : DirEntry) : Prop :=
  e_type f = "file" /\ e_size f = Some "unknown".

(** What the loop over the NLST names maintains on [(directories, files)]. *)
Definition probed (E : Env) (acc : list DirEntry * list DirEntry) : Prop :=
  Forall (probed_dir E) (fst acc) /\ Forall unsized_file (snd acc).

(** * Properties *)

(** ** Arithmetic of the fitting step *)

Section FitArithmetic.

Lemma truediv_pos a b : 0 < b -> PyNum.truediv a b = Some (a # Z.to_pos b).
Proof.
  intros Hb. unfold PyNum.truediv.
  destruct (Z.eqb_spec b 0); [lia|].
  f_equal. destruct b as [|p|p]; try lia.
  unfold Qdiv, Qinv, Qmult, inject_Z. simpl.
  rewrite Z.mul_1_r. reflexivity.
Qed.

Lemma gt_frac a b c d : PyNum.gt (a # b) (c # d) = (c * Zpos b <? a * Zpos d).
Proof.
  unfold PyNum.gt, Qle_bool. simpl.
  rewrite Z.ltb_antisym. reflexivity.
Qed.

Lemma fdiv_frac w a b :
  0 < a ->
  exists q, PyNum.fdiv (inject_Z w) (a # b) = Some q /\
            PyNum.int_of q = Z.quot (w * Zpos b) a.
Proof.
  intros Ha. unfold PyNum.fdiv.
  destruct (Qeq_bool (a # b) 0) eqn:Hz.
  - apply Qeq_bool_eq in Hz. unfold Qeq in Hz. simpl in Hz. lia.
  - eexists; split; [reflexivity|].
    destruct a as [|p|p]; try lia.
    unfold PyNum.int_of, Qdiv, Qinv, Qmult, inject_Z. simpl. reflexivity.
Qed.

Lemma int_of_mul h a b :
  PyNum.int_of (inject_Z h * (a # b))%Q = Z.quot (h * a) (Zpos b).
Proof. unfold PyNum.int_of, Qmult, inject_Z. simpl. reflexivity. Qed.

(** The crop box in integer arithmetic: which side is cut is decided by
    comparing [w * H] with [h * W], and the kept length is a truncated
    quotient. *)
Lemma crop_box_spec w h W H :
  0 < h -> 0 < W -> 0 < H ->
  Fit.crop_box w h W H =
    if h * W <? w * H
    then (let nw := Z.quot (h * W) H in
          inr ((w - nw) / 2, 0, (w - nw) / 2 + nw, h))
    else (let nh := Z.quot (w * H) W in
          inr (0, (h - nh) / 2, w, (h - nh) / 2 + nh)).
Proof.
  intros Hh HW HH. unfold Fit.crop_box.
  rewrite (truediv_pos W H HH), (truediv_pos w h Hh).
  rewrite gt_frac.
  rewrite !Z2Pos.id by lia.
  replace (W * h) with (h * W) by lia.
  destruct (h * W <? w * H) eqn:Hc.
  - rewrite int_of_mul. rewrite Z2Pos.id by lia. reflexivity.
  - destruct (fdiv_frac w W (Z.to_pos H) HW) as (q & Hq & Hi).
    rewrite Hq, Hi. rewrite Z2Pos.id by lia. reflexivity.
Qed.


Lemma quot_shrinks w W H :
  0 <= w -> 0 < H -> H < W -> 0 <= Z.quot (w * H) W <= w.
Proof.
  intros. rewrite Z.quot_div_nonneg by nia.
  split.
  - apply Z.div_pos; nia.
  - apply Z.div_le_upper_bound; nia.
Qed.


End FitArithmetic.

(** ** Sizes after the final resize *)

Section ResizeSizes.

Variable kernel : Image -> Z * Z -> list (list pixel).

Lemma resize_size im W H im' :
  resize kernel im (W, H) = inr im' -> size im' = (W, H).
Proof.
  unfold resize. destruct (_ && _) eqn:Hfast.
  - intros [= <-]. apply andb_prop in Hfast as [Hw Hh].
    apply Z.eqb_eq in Hw, Hh. destruct (size im); simpl in *; congruence.
  - destruct (_ || _); [discriminate|]. intros [= <-]. reflexivity.
Qed.


End ResizeSizes.

(** ** Reasoning about computations *)

Section Computations.

Context {A B : Type}.

Lemma bind_ret_inv (m : M A) (k : A -> M B) w b w' :
  bind m k w = (Ret b, w') ->
  exists a w1, m w = (Ret a, w1) /\ k a w1 = (Ret b, w').
Proof.
  unfold bind. destruct (m w) as [[a|e|] w1]; intros Hk; try discriminate.
  exists a, w1. split; [reflexivity|exact Hk].
Qed.


Lemma try_except_ret_inv (m : M A) (h : exn -> M A) w a w' :
  try_except m h w = (Ret a, w') ->
  m w = (Ret a, w') \/
  exists e w1, m w = (Raise e, w1) /\ h e w1 = (Ret a, w').
Proof.
  unfold try_except. destruct (m w) as [[a0|e|] w1]; intros Hk; try discriminate.
  - left. exact Hk.
  - right. exists e, w1. split; [reflexivity|exact Hk].
Qed.

Lemma try_except_reraise_ret_inv (m : M A) (wrap : exn -> exn) w a w' :
  try_except m (fun e => raise (wrap e)) w = (Ret a, w') -> m w = (Ret a, w').
Proof.
  intros Hk. apply try_except_ret_inv in Hk as [Hk|(e & w1 & _ & Hk)].
  - exact Hk.
  - discriminate Hk.
Qed.

Lemma lift_ret_inv (r : exn + A) w a w' :
  lift r w = (Ret a, w') -> r = inr a /\ w' = w.
Proof.
  destruct r; simpl; unfold raise, ret; intros [= ]; subst; auto.
Qed.

End Computations.

Lemma ret_inv {A} (a b : A) w w' : ret a w = (Ret b, w') -> a = b /\ w' = w.
Proof. unfold ret. intros [= ]; subst; auto. Qed.

(** Take a computation that returned apart, bind by bind. *)
Ltac returned H :=
  let a := fresh "a" in
  let w := fresh "w" in
  let H1 := fresh "H" in
  first
    [ apply bind_ret_inv in H as (a & w & H1 & H)
    | apply try_except_reraise_ret_inv in H
    | apply ret_inv in H as [H H1]
    | apply lift_ret_inv in H as [H H1] ].

(** ** Handling of vertical images *)

Lemma handle_vertical_crop settings img W H :
  width img < height img -> H < W ->
  verticalHandling settings = Some "crop" ->
  Fit.handle_vertical settings img (W, H) =
    match Fit.crop_box (width img) (height img) W H with
    | inl e => inl e
    | inr box => crop img box
    end.
Proof.
  intros Hp Hl Hv. unfold Fit.handle_vertical, width, height in *.
  destruct (size img) as [w h]. simpl in *.
  rewrite Hv. simpl.
  replace (h >? w) with true by (symmetry; apply Z.gtb_lt; lia).
  replace (W >? H) with true by (symmetry; apply Z.gtb_lt; lia).
  reflexivity.
Qed.

(** With the "rotate" policy, or with no policy set, a portrait image on a
    landscape display is handed on as Pillow's [ROTATE_90] transpose. *)
Lemma handle_vertical_rotate settings img W H :
  width img < height img -> H < W ->
  get_or (verticalHandling settings) "rotate" = "rotate" ->
  Fit.handle_vertical settings img (W, H) = inr (transpose ROTATE_90 img).
Proof.
  intros Hp Hl Hv. unfold Fit.handle_vertical, width, height in *.
  destruct (size img) as [w h] eqn:Hs. simpl in *.
  rewrite Hv. simpl.
  replace (h >? w) with true by (symmetry; apply Z.gtb_lt; lia).
  replace (W >? H) with true by (symmetry; apply Z.gtb_lt; lia).
  reflexivity.
Qed.

(** C2 (the code departs from the claim).  The claim has the "rotate" policy
    turn a portrait image a quarter clockwise.  On the 2 by 3 image with rows
    [1 2], [3 4], [5 6] and an 800 by 600 display the code hands on
    [img.rotate(90, expand=True)], Pillow's counter clockwise quarter turn,
    with rows [2 4 6], [1 3 5]; the clockwise turn has rows [5 3 1], [6 4 2]. *)
Theorem rotate_policy_turns_counter_clockwise :
  Fit.handle_vertical (Demo.show "/pics/tall.PNG" (Some "rotate") None)
                      Demo.portrait (800, 600)
    = inr (transpose ROTATE_90 Demo.portrait) /\
  data (transpose ROTATE_90 Demo.portrait)
    = [[Demo.px 2; Demo.px 4; Demo.px 6]; [Demo.px 1; Demo.px 3; Demo.px 5]] /\
  data (clockwise Demo.portrait)
    = [[Demo.px 5; Demo.px 3; Demo.px 1]; [Demo.px 6; Demo.px 4; Demo.px 2]] /\
  transpose ROTATE_90 Demo.portrait <> clockwise Demo.portrait.
Proof.
  repeat split; try reflexivity.
  intros Heq. apply (f_equal data) in Heq. vm_compute in Heq. discriminate Heq.
Qed.




(** C10.  When the vertical handling step runs (image higher than wide,
    display wider than high, positive sizes), the aspect ratio of the image
    is strictly below that of the display, the test for cropping the width
    is false, and the "crop" policy returns an image of the same width and a
    smaller height. *)
Theorem crop_never_cuts_width settings img W H :
  0 < width img -> width img < height img -> 0 < H -> H < W ->
  verticalHandling settings = Some "crop" ->
  exists img_aspect display_aspect img',
    PyNum.truediv (width img) (height img) = Some img_aspect /\
    PyNum.truediv W H = Some display_aspect /\
    (img_aspect < display_aspect)%Q /\
    PyNum.gt img_aspect display_aspect = false /\
    Fit.handle_vertical settings img (W, H) = inr img' /\
    width img' = width img /\ height img' < height img.
Proof.
  intros Hw Hp HH Hl Hv.
  assert (Hlt : width img * H < height img * W) by nia.
  exists (width img # Z.to_pos (height img)), (W # Z.to_pos H).
  rewrite (handle_vertical_crop _ _ _ _ Hp Hl Hv).
  rewrite crop_box_spec by lia.
  replace (height img * W <? width img * H) with false
    by (symmetry; apply Z.ltb_ge; lia).
  cbv zeta.
  pose proof (quot_shrinks (width img) W H ltac:(lia) HH Hl) as Hq.
  unfold crop.
  replace (width img <? 0) with false by (symmetry; apply Z.ltb_ge; lia).
  match goal with |- context [?a <? ?b] =>
    replace (a <? b) with false by (symmetry; apply Z.ltb_ge; lia) end.
  eexists. repeat split.
  - apply truediv_pos; lia.
  - apply truediv_pos; lia.
  - unfold Qlt. simpl. rewrite !Z2Pos.id by lia. lia.
  - rewrite gt_frac, !Z2Pos.id by lia. apply Z.ltb_ge. lia.
  - unfold width at 1. simpl. lia.
  - unfold height at 1. simpl. lia.
Qed.

Lemma crop_never_cuts_width_witness :
  exists img_aspect display_aspect img',
    PyNum.truediv 5 10 = Some img_aspect /\
    PyNum.truediv 800 600 = Some display_aspect /\
    (img_aspect < display_aspect)%Q /\
    PyNum.gt img_aspect display_aspect = false /\
    Fit.handle_vertical (Demo.show "/tall.png" (Some "crop") None) Demo.tall (800, 600)
      = inr img' /\
    width img' = 5 /\ height img' < 10.
Proof.
  apply (crop_never_cuts_width (Demo.show "/tall.png" (Some "crop") None)
                               Demo.tall 800 600); reflexivity.
Defined.

(** ** The facade: sizes and error kinds *)

Lemma get_image_returns_resized E fuel settings dims w img w' :
  Facade._get_image E fuel settings dims w = (Ret img, w') ->
  exists img0, Fit.resize_to_display E settings img0 dims = inr img.
Proof.
  unfold Facade._get_image. destruct (falsy _); [discriminate|].
  intros H. do 9 returned H. returned H6. subst. exists a4. exact H6.
Qed.




Lemma try_except_reraise_raise_inv {A} (m : M A) (wrap : exn -> exn) w e' w' :
  try_except m (fun e => raise (wrap e)) w = (Raise e', w') ->
  exists e, m w = (Raise e, w') /\ e' = wrap e.
Proof.
  unfold try_except, raise. destruct (m w) as [[a|e|] w1]; intros [= ]; subst.
  exists e. auto.
Qed.

(** C3 (as the code has it).  Once the session is established, random mode
    with an empty enumeration and explicit mode without a selected image both
    make [_get_image] fail; the FileNotFoundError and the ValueError raised
    inside are caught by its own handler and leave it as a RuntimeError whose
    message carries the original one.  No failure of [_get_image] after the
    server check has another kind. *)
Theorem selection_errors_become_runtime_errors E fuel settings dims w w0 :
  falsy (server settings) = false ->
  connect_of E settings w = (Ret tt, w0) ->
  (get_or (random_mode settings) false = true ->
   forall w1,
     Plugin._list_images_recursive E fuel (get_or (current_path settings) "/") w0
       = (Ret [], w1) ->
     Facade._get_image E fuel settings dims w =
       (Raise (Exn RuntimeError
                   ("Failed to get image: No images found under folder '"
                    ++ get_or (current_path settings) "/" ++ "'")), w1)) /\
  (get_or (random_mode settings) false = false ->
   falsy (selected_image settings) = true ->
   Facade._get_image E fuel settings dims w =
     (Raise (Exn RuntimeError
                 "Failed to get image: No image selected and random mode is disabled"),
      w0)) /\
  (forall e w', Facade._get_image E fuel settings dims w = (Raise e, w') ->
                kind e = RuntimeError).
Proof.
  intros Hs Hc. unfold connect_of in Hc. unfold Facade._get_image. rewrite Hs.
  split; [|split].
  - intros Hr w1 Hl. unfold bind at 1. rewrite Hc. rewrite Hr.
    unfold try_except, bind. rewrite Hl. reflexivity.
  - intros Hr Hsel. unfold bind at 1. rewrite Hc. rewrite Hr, Hsel.
    reflexivity.
  - intros e w' H. unfold bind at 1 in H. rewrite Hc in H.
    apply try_except_reraise_raise_inv in H as (e0 & _ & ->). reflexivity.
Qed.

Lemma selection_errors_become_runtime_errors_witness :
  (exists w1, Facade._get_image Demo.bare 5 (Demo.shuffle "/") (800, 600) fresh_world =
     (Raise (Exn RuntimeError "Failed to get image: No images found under folder '/'"), w1)) /\
  (exists w0, Facade._get_image Demo.bare 5 Demo.base_settings (800, 600) fresh_world =
     (Raise (Exn RuntimeError
                 "Failed to get image: No image selected and random mode is disabled"),
      w0)).
Proof.
  split.
  - eexists.
    refine (proj1 (selection_errors_become_runtime_errors Demo.bare 5 (Demo.shuffle "/")
              (800, 600) fresh_world _ eq_refl _) eq_refl _ _).
    + vm_compute. reflexivity.
    + vm_compute. reflexivity.
  - eexists.
    refine (proj1 (proj2 (selection_errors_become_runtime_errors Demo.bare 5
              Demo.base_settings (800, 600) fresh_world _ eq_refl _)) eq_refl eq_refl).
    vm_compute. reflexivity.
Defined.

(** C3, as stated, fails: on a server with an empty root directory neither
    error reaches the caller with its own kind. *)
Lemma selection_errors_change_kind :
  (exists e w', Facade._get_image Demo.bare 5 (Demo.shuffle "/") (800, 600) fresh_world
                = (Raise e, w') /\ kind e <> FileNotFoundError) /\
  (exists e w', Facade._get_image Demo.bare 5 Demo.base_settings (800, 600) fresh_world
                = (Raise e, w') /\ kind e <> ValueError).
Proof.
  split; eexists; eexists; (split; [vm_compute; reflexivity|discriminate]).
Qed.

(** ** Frame rules *)

Section Keeps.

Variable R : world -> world -> Prop.
Hypothesis R_refl : forall w, R w w.
Hypothesis R_trans : forall w1 w2 w3, R w1 w2 -> R w2 w3 -> R w1 w3.

Lemma keeps_ret {A} (a : A) : keeps R (ret a).
Proof. intros w r w' [= _ <-]. apply R_refl. Qed.

Lemma keeps_raise {A} e : keeps R (@raise A e).
Proof. intros w r w' [= _ <-]. apply R_refl. Qed.

Lemma keeps_spin {A} : keeps R (@spin A).
Proof. intros w r w' [= _ <-]. apply R_refl. Qed.

Lemma keeps_get {A} (f : world -> A) : keeps R (get f).
Proof. intros w r w' [= _ <-]. apply R_refl. Qed.

Lemma keeps_lift {A} (x : exn + A) : keeps R (lift x).
Proof. destruct x; [apply keeps_raise|apply keeps_ret]. Qed.

Lemma keeps_bind {A B} (m : M A) (k : A -> M B) :
  keeps R m -> (forall a, keeps R (k a)) -> keeps R (bind m k).
Proof.
  intros Hm Hk w r w'. unfold bind.
  destruct (m w) as [[a|e|] w1] eqn:Hmw; intros Hr.
  - eapply R_trans; [eapply Hm; eauto|eapply Hk; eauto].
  - injection Hr as _ <-. eapply Hm; eauto.
  - injection Hr as _ <-. eapply Hm; eauto.
Qed.

Lemma keeps_try_except {A} (m : M A) (h : exn -> M A) :
  keeps R m -> (forall e, keeps R (h e)) -> keeps R (try_except m h).
Proof.
  intros Hm Hh w r w'. unfold try_except.
  destruct (m w) as [[a|e|] w1] eqn:Hmw; intros Hr.
  - injection Hr as _ <-. eapply Hm; eauto.
  - eapply R_trans; [eapply Hm; eauto|eapply Hh; eauto].
  - injection Hr as _ <-. eapply Hm; eauto.
Qed.

Lemma keeps_try_except_of {A} kinds (m : M A) (h : exn -> M A) :
  keeps R m -> (forall e, keeps R (h e)) -> keeps R (try_except_of kinds m h).
Proof.
  intros Hm Hh. apply keeps_try_except; [exact Hm|].
  intros e. destruct (is_kind kinds e); [apply Hh|apply keeps_raise].
Qed.

Lemma keeps_try_finally {A} (m : M A) (f : M unit) :
  keeps R m -> keeps R f -> keeps R (try_finally m f).
Proof.
  intros Hm Hf w r w'. unfold try_finally.
  destruct (m w) as [r1 w1] eqn:Hmw.
  destruct (f w1) as [[[]|e|] w2] eqn:Hfw; intros [= _ <-];
    (eapply R_trans; [eapply Hm; eauto|eapply Hf; eauto]).
Qed.

Lemma keeps_attempt {A} (m : M A) : keeps R m -> keeps R (attempt m).
Proof.
  intros Hm w r w'. unfold attempt.
  destruct (m w) as [[a|e|] w1] eqn:Hmw; intros [= _ <-]; eapply Hm; eauto.
Qed.

Lemma keeps_for_each {A B} (xs : list A) (body : A -> B -> M B) :
  (forall x acc, keeps R (body x acc)) -> forall acc, keeps R (for_each xs acc body).
Proof.
  intros Hb. induction xs as [|x xs IH]; intros acc; simpl.
  - apply keeps_ret.
  - apply keeps_bind; [apply Hb|]. intros a. apply IH.
Qed.

End Keeps.

Lemma keeps_weaken (R R' : world -> world -> Prop) {A} (m : M A) :
  (forall w w', R w w' -> R' w w') -> keeps R m -> keeps R' m.
Proof. intros Hsub Hm w r w' Hr. apply Hsub. eapply Hm; eauto. Qed.

Lemma only_wd_refl w : only_wd w w.
Proof. unfold only_wd. repeat split. Qed.

Lemma only_wd_trans w1 w2 w3 : only_wd w1 w2 -> only_wd w2 w3 -> only_wd w1 w3.
Proof. unfold only_wd. intuition congruence. Qed.

Lemma tracked_refl w : tracked w w.
Proof. unfold tracked. repeat split; auto using incl_refl. Qed.

Lemma tracked_trans w1 w2 w3 : tracked w1 w2 -> tracked w2 w3 -> tracked w1 w3.
Proof.
  unfold tracked. intros (Hs1 & Hl1 & Ht1 & Hi1 & Hd1) (Hs2 & Hl2 & Ht2 & Hi2 & Hd2).
  repeat split; try congruence.
  - eapply incl_tran; eauto.
  - intros p Hp. destruct (Hd2 p Hp) as [Hp2|Hp2]; [|auto].
    destruct (Hd1 p Hp2) as [Hp1|Hp1]; auto.
Qed.

Lemma only_wd_tracked w w' : only_wd w w' -> tracked w w'.
Proof.
  unfold only_wd, tracked. intros (Hs & Ht & Hd & _ & Hl & _ & Htr).
  repeat split; auto.
  - rewrite Ht. apply incl_refl.
  - intros p Hp. left. congruence.
Qed.

(** Building frame proofs: split a computation along its structure. *)
Ltac frame R_refl R_trans :=
  repeat first
    [ apply (keeps_ret _ R_refl)
    | apply (keeps_raise _ R_refl)
    | apply (keeps_spin _ R_refl)
    | apply (keeps_get _ R_refl)
    | apply (keeps_lift _ R_refl)
    | apply (keeps_bind _ R_trans)
    | apply (keeps_try_except_of _ R_refl R_trans)
    | apply (keeps_try_except _ R_trans)
    | apply (keeps_try_finally _ R_trans)
    | apply (keeps_attempt _)
    | apply (keeps_for_each _ R_refl R_trans)
    | match goal with |- forall _, keeps _ _ => intro end ].

Section SessionCalls.

Variable E : Env.

Lemma on_ftp_only_wd {A} meth (f : conn -> (exn + A) * conn) :
  (forall c, conn_id (snd (f c)) = conn_id c /\ conn_sock (snd (f c)) = conn_sock c) ->
  keeps only_wd (on_ftp meth f).
Proof.
  intros Hf w r w'. unfold on_ftp.
  destruct (ftp w) as [c|] eqn:Hc.
  - destruct (conn_sock c) eqn:Hsock.
    + specialize (Hf c). destruct (f c) as [[e|a] c']; simpl in Hf;
        intros [= _ <-]; unfold only_wd, session_of; simpl; rewrite Hc; simpl;
        destruct Hf as [-> ->]; repeat split.
    + intros [= _ <-]. apply only_wd_refl.
  - intros [= _ <-]. apply only_wd_refl.
Qed.

Lemma ftp_pwd_only_wd : keeps only_wd (ftp_pwd E).
Proof. apply on_ftp_only_wd. intros c. simpl. auto. Qed.

Lemma ftp_cwd_only_wd p : keeps only_wd (ftp_cwd E p).
Proof.
  apply on_ftp_only_wd. intros c. destruct (srv_cwd E (conn_wd c) p); simpl; auto.
Qed.

Lemma ftp_mlsd_only_wd : keeps only_wd (ftp_mlsd E).
Proof. apply on_ftp_only_wd. intros c. simpl. auto. Qed.

Lemma ftp_nlst_only_wd : keeps only_wd (ftp_nlst E).
Proof. apply on_ftp_only_wd. intros c. simpl. auto. Qed.

Lemma visit_entry_only_wd recurse path current_dir entry images :
  (forall p, keeps only_wd (recurse p)) ->
  keeps only_wd (Plugin.visit_entry E recurse path current_dir entry images).
Proof.
  intros Hrec. unfold Plugin.visit_entry. destruct entry as [name facts].
  destruct (is_dots name); [apply (keeps_ret _ only_wd_refl)|].
  apply (keeps_try_except _ only_wd_trans); [|intros; apply (keeps_ret _ only_wd_refl)].
  destruct (dict_get facts "type") as [t|].
  - destruct (t =? "dir")%string.
    + frame only_wd_refl only_wd_trans. apply Hrec.
    + destruct (t =? "file")%string; [destruct (endswith_any _ _)|];
        apply (keeps_ret _ only_wd_refl).
  - apply (keeps_bind _ only_wd_trans).
    + apply (keeps_try_except_of _ only_wd_refl only_wd_trans).
      * frame only_wd_refl only_wd_trans;
          try apply ftp_cwd_only_wd. apply Hrec.
      * intros. apply (keeps_ret _ only_wd_refl).
    + intros [images'|]; [|destruct (endswith_any _ _)];
        apply (keeps_ret _ only_wd_refl).
Qed.

(** The recursive walk changes nothing but the working directory. *)
Lemma list_images_recursive_only_wd fuel :
  forall path, keeps only_wd (Plugin._list_images_recursive E fuel path).
Proof.
  induction fuel as [|fuel IH]; intros path; simpl.
  - apply (keeps_spin _ only_wd_refl).
  - apply (keeps_bind _ only_wd_trans); [apply (keeps_get _ only_wd_refl)|].
    intros [c|]; [|apply (keeps_raise _ only_wd_refl)].
    apply (keeps_try_except _ only_wd_trans); [|intros; apply (keeps_raise _ only_wd_refl)].
    apply (keeps_bind _ only_wd_trans); [apply ftp_pwd_only_wd|]. intros current_dir.
    apply (keeps_bind _ only_wd_trans); [apply ftp_cwd_only_wd|]. intros _.
    apply (keeps_bind _ only_wd_trans).
    + apply (keeps_try_except_of _ only_wd_refl only_wd_trans).
      * apply (keeps_bind _ only_wd_trans); [apply ftp_mlsd_only_wd|].
        intros. apply (keeps_ret _ only_wd_refl).
      * intros _. apply (keeps_try_except_of _ only_wd_refl only_wd_trans).
        -- apply (keeps_bind _ only_wd_trans); [apply ftp_nlst_only_wd|].
           intros. apply (keeps_ret _ only_wd_refl).
        -- intros _. apply (keeps_bind _ only_wd_trans); [apply ftp_cwd_only_wd|].
           intros. apply (keeps_ret _ only_wd_refl).
    + intros [images|entries]; [apply (keeps_ret _ only_wd_refl)|].
      apply (keeps_bind _ only_wd_trans).
      * apply (keeps_for_each _ only_wd_refl only_wd_trans).
        intros x acc. apply visit_entry_only_wd. exact IH.
      * intros images. apply (keeps_bind _ only_wd_trans); [apply ftp_cwd_only_wd|].
        intros. apply (keeps_ret _ only_wd_refl).
Qed.

End SessionCalls.

(** ** Scratch files and the session across a request *)

Section Request.

Variable E : Env.

Lemma on_disk_app p d1 d2 : on_disk p (d1 ++ d2) = on_disk p d1 || on_disk p d2.
Proof. unfold on_disk. apply existsb_app. Qed.

Lemma on_disk_cons p n b d : on_disk p ((n, b) :: d) = (n =? p)%string || on_disk p d.
Proof. reflexivity. Qed.

Lemma on_disk_rewrite p q data d :
  on_disk p (map (fun f => if (fst f =? q)%string then (q, snd f ++ data) else f) d)
  = on_disk p d.
Proof.
  unfold on_disk. induction d as [|[n b] d IH]; simpl; [reflexivity|].
  rewrite IH. destruct (String.eqb_spec n q); simpl; [subst|]; reflexivity.
Qed.

Lemma file_write_tracked p data : keeps tracked (file_write p data).
Proof.
  intros w r w' [= _ <-]. unfold tracked, session_of. simpl.
  repeat split; auto using incl_refl.
  intros q Hq. left. rewrite on_disk_rewrite in Hq. exact Hq.
Qed.

Lemma ftp_retrbinary_tracked p callback :
  (forall data, keeps tracked (callback data)) ->
  keeps tracked (ftp_retrbinary E p callback).
Proof.
  intros Hcb. unfold ftp_retrbinary.
  frame tracked_refl tracked_trans; auto.
  apply (keeps_weaken only_wd); [apply only_wd_tracked|].
  apply on_ftp_only_wd. intros c. simpl. auto.
Qed.

(** [_download_image] registers the scratch file it creates, however the
    transfer ends. *)
Lemma download_image_tracked remote_path :
  keeps tracked (Plugin._download_image E remote_path).
Proof.
  unfold Plugin._download_image.
  apply (keeps_bind _ tracked_trans); [apply (keeps_get _ tracked_refl)|].
  intros [c|]; [|apply (keeps_raise _ tracked_refl)].
  apply (keeps_try_except _ tracked_trans); [|intros; apply (keeps_raise _ tracked_refl)].
  set (suffix := match os_path_splitext_ext remote_path with
                 | EmptyString => ".png" | ext => ext end).
  intros w r w'. unfold named_temporary_file.
  unfold bind at 1. unfold bind at 1. unfold get at 1.
  unfold bind at 1. unfold modify at 1. unfold ret at 1.
  unfold bind at 1. unfold modify at 1.
  set (name := "/tmp/tmp" ++ str_of_nat (tmp_seq w) ++ suffix).
  set (w1 := set_temp_files _ _).
  intros Hrest.
  assert (Hstep : tracked w w1).
  { unfold tracked, session_of, w1. simpl. repeat split.
    - apply incl_appl, incl_refl.
    - intros p Hp. rewrite on_disk_app in Hp. apply orb_prop in Hp as [Hp|Hp]; [auto|].
      right. apply in_or_app. right. rewrite on_disk_cons in Hp.
      change (on_disk p []) with false in Hp. rewrite orb_false_r in Hp.
      apply String.eqb_eq in Hp. subst. left. reflexivity. }
  eapply tracked_trans; [exact Hstep|].
  revert Hrest. generalize w1 r w'.
  change (keeps tracked (ftp_retrbinary E remote_path (file_write name) ;; ret name)).
  apply (keeps_bind _ tracked_trans); [|intros; apply (keeps_ret _ tracked_refl)].
  apply ftp_retrbinary_tracked. intros. apply file_write_tracked.
Qed.

Lemma pil_open_tracked p : keeps tracked (pil_open E p).
Proof.
  unfold pil_open.
  apply (keeps_bind _ tracked_trans); [apply (keeps_get _ tracked_refl)|].
  intros d. destruct (read_file p d);
    [apply (keeps_lift _ tracked_refl)|apply (keeps_raise _ tracked_refl)].
Qed.


Lemma get_image_body_tracked fuel settings dims w w0 r w1 :
  falsy (server settings) = false ->
  connect_of E settings w = (Ret tt, w0) ->
  Facade._get_image E fuel settings dims w = (r, w1) ->
  tracked w0 w1.
Proof.
  intros Hs Hc. unfold connect_of in Hc. unfold Facade._get_image. rewrite Hs.
  unfold bind at 1. rewrite Hc. revert w0 r w1 Hc. 
  intros w0 r w1 _. revert w0 r w1.
  match goal with |- forall w0 r w1, ?m w0 = (r, w1) -> _ =>
    change (keeps tracked m) end.
  apply (keeps_try_except _ tracked_trans); [|intros; apply (keeps_raise _ tracked_refl)].
  apply (keeps_bind _ tracked_trans).
  { destruct (get_or (random_mode settings) false).
    - apply (keeps_bind _ tracked_trans).
      + apply (keeps_weaken only_wd); [apply only_wd_tracked|].
        apply list_images_recursive_only_wd.
      + intros [|x xs]; [apply (keeps_raise _ tracked_refl)|apply (keeps_ret _ tracked_refl)].
    - destruct (falsy (selected_image settings));
        [apply (keeps_raise _ tracked_refl)|apply (keeps_ret _ tracked_refl)]. }
  intros selected.
  apply (keeps_bind _ tracked_trans); [apply download_image_tracked|]. intros local_path.
  apply (keeps_bind _ tracked_trans); [apply pil_open_tracked|]. intros img.
  frame tracked_refl tracked_trans.
Qed.

(** A successful [_connect_ftp] leaves an open session and the local files
    as they were. *)
Lemma connect_establishes settings w w0 :
  connect_of E settings w = (Ret tt, w0) ->
  exists c, ftp w0 = Some c /\ conn_sock c = true /\ In (conn_id c) (live w0) /\
            disk w0 = disk w /\ temp_files w0 = temp_files w.
Proof.
  unfold connect_of, Plugin._connect_ftp. intros H.
  do 5 returned H. 
  assert (Hclose : disk w1 = disk w /\ temp_files w1 = temp_files w).
  { clear - H0. unfold Plugin._close_ftp in H0. returned H0.
    unfold get in H. injection H as <- <-.
    destruct (ftp w) as [c|].
    - unfold try_finally, try_except, ftp_quit, bind, on_ftp, modify in H0.
      destruct (ftp w) as [c0|]; [destruct (conn_sock c0); [destruct (srv_quit E)|]|];
        simpl in H0; injection H0; intros; subst; simpl; auto.
    - injection H0 as _ <-. auto. }
  destruct Hclose as [Hd Ht].
  unfold ftp_new, modify in H1. injection H1 as _ <-.
  unfold ftp_connect in H2. simpl in H2.
  destruct (srv_connect E _ _ _); [discriminate|]. injection H2 as _ <-.
  unfold ftp_login, on_ftp in H3. simpl in H3.
  destruct (srv_login E _ _) as [e|home]; [discriminate|]. injection H3 as _ <-.
  apply ret_inv in H as [_ ->].
  eexists. simpl. repeat split; auto.
Qed.


Lemma cleanup_loop files : forall w,
  for_each files tt
    (fun temp_file _ =>
       try_except
         (ex <- os_path_exists temp_file ;;
          if ex : bool then os_remove E temp_file else ret tt)
         (fun _ => ret tt)) w
  = (Ret tt,
     mkWorld (ftp w) (temp_files w) (fst (sweep E files (disk w))) (tmp_seq w)
             (live w) (next_conn w)
             (trace w ++ map EvRemove (snd (sweep E files (disk w))))%list).
Proof.
  induction files as [|p rest IH]; intros w.
  - simpl. rewrite app_nil_r. destruct w; reflexivity.
  - cbn [for_each sweep]. unfold bind at 1.
    unfold try_except at 1, bind at 1, os_path_exists at 1, get at 1.
    destruct (on_disk p (disk w)) eqn:Hex.
    + unfold os_remove. destruct (os_remove_error E p) as [e|].
      * unfold raise, ret. rewrite IH. reflexivity.
      * unfold bind, os_path_exists, get, modify. rewrite Hex.
        rewrite IH. simpl.
        destruct (sweep E rest (unlink p (disk w))) as [d' removed]. simpl.
        rewrite <- app_assoc. reflexivity.
    + unfold ret at 1. rewrite IH. reflexivity.
Qed.

Lemma cleanup_temp_files_spec w :
  Plugin._cleanup_temp_files E w = (Ret tt, swept E w).
Proof.
  unfold Plugin._cleanup_temp_files. unfold bind at 1, get at 1.
  unfold bind. rewrite cleanup_loop. reflexivity.
Qed.

Lemma close_ftp_spec w : Plugin._close_ftp E w = (Ret tt, hung_up E w).
Proof.
  unfold Plugin._close_ftp, hung_up. unfold bind, get.
  destruct (ftp w) as [c|] eqn:Hc; [|reflexivity].
  unfold try_finally, try_except, ftp_quit, bind, on_ftp, modify. rewrite Hc.
  destruct (conn_sock c); [destruct (srv_quit E)|]; reflexivity.
Qed.

Lemma del_spec w : Plugin.__del__ E w = (Ret tt, hung_up E (swept E w)).
Proof.
  unfold Plugin.__del__, bind. rewrite cleanup_temp_files_spec. apply close_ftp_spec.
Qed.

Lemma on_disk_unlink p q d :
  on_disk p (unlink q d) = negb (q =? p)%string && on_disk p d.
Proof.
  unfold on_disk, unlink. induction d as [|[n b] d IH]; simpl.
  - rewrite andb_false_r. reflexivity.
  - destruct (String.eqb_spec n q) as [->|Hn]; simpl.
    + rewrite IH. destruct (q =? p)%string; reflexivity.
    + rewrite IH. destruct (String.eqb_spec n p) as [->|Hp]; simpl.
      * destruct (String.eqb_spec q p); [congruence|reflexivity].
      * reflexivity.
Qed.

Lemma sweep_subset files : forall d p,
  on_disk p (fst (sweep E files d)) = true -> on_disk p d = true.
Proof.
  induction files as [|q rest IH]; intros d p; simpl; [auto|].
  destruct (on_disk q d); [destruct (os_remove_error E q)|]; try apply IH.
  destruct (sweep E rest (unlink q d)) as [d' removed] eqn:Hs. simpl.
  intros Hp. specialize (IH (unlink q d) p). rewrite Hs in IH.
  specialize (IH Hp). rewrite on_disk_unlink in IH.
  apply andb_prop in IH as [_ IH]. exact IH.
Qed.

Lemma sweep_removes files : forall d p,
  In p files -> os_remove_error E p = None ->
  on_disk p (fst (sweep E files d)) = false.
Proof.
  induction files as [|q rest IH]; intros d p Hin Hok; [contradiction|].
  simpl. destruct Hin as [->|Hin].
  - rewrite Hok. destruct (on_disk p d) eqn:Hp.
    + destruct (sweep E rest (unlink p d)) as [d' removed] eqn:Hs. simpl.
      destruct (on_disk p d') eqn:Hp'; [|reflexivity].
      pose proof (sweep_subset rest (unlink p d) p) as Hsub. rewrite Hs in Hsub.
      specialize (Hsub Hp'). rewrite on_disk_unlink, String.eqb_refl in Hsub.
      discriminate Hsub.
    + destruct (on_disk p (fst (sweep E rest d))) eqn:Hp'; [|reflexivity].
      apply sweep_subset in Hp'. congruence.
  - destruct (on_disk q d); [destruct (os_remove_error E q)|]; try (apply IH; assumption).
    destruct (sweep E rest (unlink q d)) as [d' removed] eqn:Hs. simpl.
    specialize (IH (unlink q d) p Hin Hok). rewrite Hs in IH. exact IH.
Qed.

End Request.

(** C1 (as the code has it).  For every request that establishes a session,
    however [_get_image] ends: on return the session is still open and still
    held by the instance, and every local file made during the request is
    registered in [temp_files]; nothing is cleaned up yet.  Cleanup is
    [__del__]: it never raises, removes the registered scratch files first
    and closes the session after, both best-effort.  After it [self.ftp] is
    [None] and [temp_files] is empty, every registered file whose removal
    does not fail is gone, no file has appeared, and the server has dropped
    the session when [quit] succeeds. *)
Theorem cleanup_waits_for_del E fuel settings dims w w0 r w1 :
  falsy (server settings) = false ->
  connect_of E settings w = (Ret tt, w0) ->
  Facade._get_image E fuel settings dims w = (r, w1) ->
  exists c,
    ftp w1 = Some c /\ conn_sock c = true /\ In (conn_id c) (live w1) /\
    (forall p, on_disk p (disk w1) = true ->
               on_disk p (disk w) = true \/ In p (temp_files w1)) /\
    exists w2,
      Plugin.__del__ E w1 = (Ret tt, w2) /\
      ftp w2 = None /\ temp_files w2 = [] /\
      (forall p, In p (temp_files w1) -> os_remove_error E p = None ->
                 on_disk p (disk w2) = false) /\
      (forall p, on_disk p (disk w2) = true -> on_disk p (disk w1) = true) /\
      (srv_quit E = None -> ~ In (conn_id c) (live w2)) /\
      exists removed,
        trace w2 = (trace w1 ++ map EvRemove removed ++
                    match srv_quit E with
                    | None => [EvQuit (conn_id c)]
                    | Some _ => []
                    end)%list.
Proof.
  intros Hs Hc Hrun.
  destruct (connect_establishes E settings w w0 Hc) as (c0 & Hf0 & Hsock0 & Hlive0 & Hd0 & Ht0).
  destruct (get_image_body_tracked E fuel settings dims w w0 r w1 Hs Hc Hrun)
    as (Hsess & Hlive & Htrace & Hincl & Hdisk).
  unfold session_of in Hsess. rewrite Hf0 in Hsess.
  destruct (ftp w1) as [c|] eqn:Hf1; [|discriminate Hsess].
  simpl in Hsess. injection Hsess as Hid Hsock. rewrite Hsock0 in Hsock.
  exists c. split; [reflexivity|]. split; [exact Hsock|].
  split; [rewrite Hlive, Hid; exact Hlive0|].
  split; [intros p Hp; rewrite <- Hd0; auto|].
  exists (hung_up E (swept E w1)). split; [apply del_spec|].
  unfold hung_up. cbn [swept ftp]. rewrite Hf1, Hsock.
  destruct (srv_quit E) as [e|]; cbn.
  - repeat split; auto.
    + intros p Hin Hok. apply sweep_removes; assumption.
    + intros p. apply sweep_subset.
    + discriminate.
    + exists (snd (sweep E (temp_files w1) (disk w1))). rewrite app_nil_r. reflexivity.
  - repeat split; auto.
    + intros p Hin Hok. apply sweep_removes; assumption.
    + intros p. apply sweep_subset.
    + intros _. apply remove_In.
    + exists (snd (sweep E (temp_files w1) (disk w1))). rewrite <- app_assoc. reflexivity.
Qed.

Lemma cleanup_waits_for_del_witness :
  exists r w1 w2,
    Facade._get_image Demo.flaky 5 (Demo.show "/a.jpg" None None) (4, 3) fresh_world
      = (r, w1) /\
    Plugin.__del__ Demo.flaky w1 = (Ret tt, w2) /\
    ftp w2 = None /\ on_disk "/tmp/tmp0.jpg" (disk w2) = false.
Proof.
  eexists. eexists.
  assert (Hrun : Facade._get_image Demo.flaky 5 (Demo.show "/a.jpg" None None) (4, 3)
                   fresh_world = (_, _)) by (vm_compute; reflexivity).
  assert (Hc : connect_of Demo.flaky (Demo.show "/a.jpg" None None) fresh_world
               = (Ret tt, _)) by (vm_compute; reflexivity).
  destruct (cleanup_waits_for_del Demo.flaky 5 (Demo.show "/a.jpg" None None) (4, 3)
              fresh_world _ _ _ eq_refl Hc Hrun)
    as (c & _ & _ & _ & _ & w2 & Hdel & Hftp & _ & Hgone & _).
  exists w2. split; [exact Hrun|]. split; [exact Hdel|]. split; [exact Hftp|].
  apply Hgone; [|reflexivity]. left. reflexivity.
Defined.

(** C1, as stated, fails: when [_get_image] returns, with an image or with
    an error after a broken transfer, the session is open on the server and
    the scratch file is on the disk. *)
Lemma session_and_scratch_file_outlive_the_request :
  (exists img w1 c,
     Facade._get_image Demo.photos 5 (Demo.show "/a.jpg" None None) (4, 3) fresh_world
       = (Ret img, w1) /\
     ftp w1 = Some c /\ conn_sock c = true /\ In (conn_id c) (live w1) /\
     on_disk "/tmp/tmp0.jpg" (disk w1) = true) /\
  (exists e w1 c,
     Facade._get_image Demo.flaky 5 (Demo.show "/a.jpg" None None) (4, 3) fresh_world
       = (Raise e, w1) /\
     ftp w1 = Some c /\ conn_sock c = true /\ In (conn_id c) (live w1) /\
     on_disk "/tmp/tmp0.jpg" (disk w1) = true).
Proof.
  split; eexists; eexists; eexists;
    (split; [vm_compute; reflexivity|]);
    (split; [reflexivity|]); (split; [reflexivity|]);
    (split; [left; reflexivity|reflexivity]).
Qed.

(** C4 (the code departs from the claim).  The claim wants the scratch file
    registered for cleanup as soon as it exists.  The plugin's
    [_download_image] does so.  The blueprint's does not: when the transfer of
    "/a.jpg" breaks, [preview_image] answers 500, its [finally] block closes
    the session and deletes nothing because [local_path] was never assigned,
    and the scratch file stays on the disk with no record of it. *)
Theorem preview_leaves_scratch_file_after_failed_download :
  (exists msg w',
     Blueprint.preview_image Demo.flaky (Demo.preview_request "/a.jpg") fresh_world
       = (Ret (Error 500 msg), w') /\
     on_disk "/tmp/tmp0.jpg" (disk w') = true /\
     temp_files w' = [] /\ live w' = []) /\
  (exists w0 e w1,
     connect_of Demo.flaky (Demo.show "/a.jpg" None None) fresh_world = (Ret tt, w0) /\
     Plugin._download_image Demo.flaky "/a.jpg" w0 = (Raise e, w1) /\
     on_disk "/tmp/tmp0.jpg" (disk w1) = true /\
     In "/tmp/tmp0.jpg" (temp_files w1)).
Proof.
  split.
  - eexists. eexists. split; [vm_compute; reflexivity|]. repeat split.
  - eexists. eexists. eexists. split; [vm_compute; reflexivity|].
    split; [vm_compute; reflexivity|]. split; [reflexivity|left; reflexivity].
Qed.

(** ** Sorting by name *)

Section StringOrder.

Lemma ascii_compare_trans a b c o :
  Ascii.compare a b = o -> Ascii.compare b c = o -> Ascii.compare a c = o.
Proof.
  unfold Ascii.compare. destruct o; intros H1 H2.
  - apply N.compare_eq_iff in H1. apply N.compare_eq_iff in H2.
    apply N.compare_eq_iff. congruence.
  - apply N.compare_lt_iff in H1. apply N.compare_lt_iff in H2.
    apply N.compare_lt_iff. eapply N.lt_trans; eassumption.
  - apply N.compare_gt_iff in H1. apply N.compare_gt_iff in H2.
    apply N.compare_gt_iff. eapply N.lt_trans; eassumption.
Qed.

Lemma string_compare_refl s : String.compare s s = Eq.
Proof.
  induction s as [|a s IH]; simpl; [reflexivity|].
  unfold Ascii.compare. rewrite N.compare_refl. exact IH.
Qed.

Lemma string_leb_trans a : forall b c,
  String.leb a b = true -> String.leb b c = true -> String.leb a c = true.
Proof.
  unfold String.leb.
  induction a as [|x a IH]; intros [|y b] [|z c]; simpl; try congruence.
  destruct (Ascii.compare x y) eqn:Hxy; destruct (Ascii.compare y z) eqn:Hyz;
    try congruence.
  - apply Ascii.compare_eq_iff in Hxy, Hyz. subst.
    unfold Ascii.compare. rewrite N.compare_refl. apply IH.
  - apply Ascii.compare_eq_iff in Hxy. subst. rewrite Hyz. auto.
  - apply Ascii.compare_eq_iff in Hyz. subst. rewrite Hxy. auto.
  - rewrite (ascii_compare_trans _ _ _ _ Hxy Hyz). auto.
Qed.

Lemma string_ltb_false_leb a b : String.ltb a b = false -> String.leb b a = true.
Proof.
  unfold String.ltb, String.leb. rewrite (String.compare_antisym b a).
  destruct (String.compare a b); simpl; congruence.
Qed.

Lemma string_ltb_leb a b : String.ltb a b = true -> String.leb a b = true.
Proof.
  unfold String.ltb, String.leb. destruct (String.compare a b); congruence.
Qed.

End StringOrder.

Section SortBy.

Context {A : Type} (key : A -> string).

Let le (a b : A) : Prop := String.leb (key a) (key b) = true.

Lemma insert_by_perm x l : Permutation (x :: l) (insert_by key x l).
Proof.
  induction l as [|y l IH]; simpl; [apply Permutation_refl|].
  destruct (String.ltb (key y) (key x)); [|apply Permutation_refl].
  eapply Permutation_trans; [apply perm_swap|]. apply perm_skip. exact IH.
Qed.

Lemma sort_by_perm l : Permutation l (sort_by key l).
Proof.
  induction l as [|x l IH]; simpl; [apply perm_nil|].
  eapply Permutation_trans; [apply perm_skip; exact IH|]. apply insert_by_perm.
Qed.

Lemma insert_by_sorted x l :
  StronglySorted le l -> StronglySorted le (insert_by key x l).
Proof.
  induction 1 as [|y l Hs IH Hall]; simpl.
  - constructor; constructor.
  - destruct (String.ltb (key y) (key x)) eqn:Hlt.
    + constructor; [exact IH|].
      apply (Permutation_Forall (insert_by_perm x l)).
      constructor; [apply string_ltb_leb; exact Hlt|exact Hall].
    + apply string_ltb_false_leb in Hlt.
      constructor; [constructor; assumption|].
      constructor; [exact Hlt|].
      eapply Forall_impl; [|exact Hall]. intros z Hz. unfold le in *.
      eapply string_leb_trans; eauto.
Qed.

Lemma sort_by_sorted l : StronglySorted le (sort_by key l).
Proof.
  induction l as [|x l IH]; simpl; [constructor|].
  apply insert_by_sorted. exact IH.
Qed.

Lemma sort_by_Forall (P : A -> Prop) l : Forall P l -> Forall P (sort_by key l).
Proof. apply Permutation_Forall. apply sort_by_perm. Qed.

End SortBy.

(** ** Directory listings *)

Lemma try_except_of_ret_inv {A} kinds (m : M A) (h : exn -> M A) w a w' :
  try_except_of kinds m h w = (Ret a, w') ->
  m w = (Ret a, w') \/
  exists e w1, m w = (Raise e, w1) /\ is_kind kinds e = true /\ h e w1 = (Ret a, w').
Proof.
  unfold try_except_of. intros H.
  apply try_except_ret_inv in H as [H|(e & w1 & Hm & H)]; [left; exact H|].
  right. exists e, w1. destruct (is_kind kinds e); [auto|discriminate H].
Qed.

Lemma for_each_inv {A B} (I : B -> Prop) (body : A -> B -> M B) :
  (forall x acc w acc' w', I acc -> body x acc w = (Ret acc', w') -> I acc') ->
  forall xs acc w r w',
    I acc -> for_each xs acc body w = (Ret r, w') -> I r.
Proof.
  intros Hb. induction xs as [|x xs IH]; intros acc w r w' Hacc H; simpl in H.
  - apply ret_inv in H as [<- _]. exact Hacc.
  - apply bind_ret_inv in H as (acc' & w1 & Hx & H).
    eapply IH; [|exact H]. eapply Hb; eauto.
Qed.

Lemma substring_split s : forall k,
  (k <= String.length s)%nat ->
  s = substring 0 k s ++ substring k (String.length s - k) s.
Proof.
  induction s as [|c s IH]; intros [|k] Hk; simpl in *; try lia; try reflexivity.
  - f_equal. clear. induction s as [|c s IH]; simpl; [reflexivity|]. f_equal. exact IH.
  - f_equal. apply IH. lia.
Qed.

Lemma endswith_split s suf : endswith s suf = true -> exists stem, s = stem ++ suf.
Proof.
  unfold endswith. intros H. apply andb_prop in H as [Hlen Heq].
  apply Nat.leb_le in Hlen. apply String.eqb_eq in Heq.
  exists (substring 0 (String.length s - String.length suf) s).
  pose proof (substring_split s (String.length s - String.length suf) ltac:(lia)) as Hs.
  replace (String.length s - (String.length s - String.length suf))%nat
    with (String.length suf) in Hs by lia.
  rewrite Heq in Hs. exact Hs.
Qed.

Lemma lower_split a : forall s b,
  lower s = a ++ b -> exists a' b', s = a' ++ b' /\ lower a' = a /\ lower b' = b.
Proof.
  induction a as [|c a IH]; intros s b H.
  - exists "", s. auto.
  - destruct s as [|c' s]; [discriminate H|]. simpl in H. injection H as Hc Hs.
    destruct (IH s b Hs) as (a' & b' & -> & Ha & Hb).
    exists (String c' a'), b'. simpl. rewrite Ha, Hc. auto.
Qed.

Lemma filter_has_image_ext name :
  endswith_any (lower name) image_exts = true -> has_image_ext name.
Proof.
  unfold endswith_any. intros H. apply existsb_exists in H as (suf & Hin & Hend).
  apply endswith_split in Hend as [stem Hstem].
  apply lower_split in Hstem as (a' & b' & -> & _ & Hb).
  exists a', b'. split; [reflexivity|]. rewrite Hb. exact Hin.
Qed.

Lemma not_dots name : is_dots name = false -> name <> "." /\ name <> "..".
Proof.
  unfold is_dots. intros H. apply orb_false_elim in H as [H1 H2].
  apply String.eqb_neq in H1, H2. auto.
Qed.

Lemma classify_mlsd_sound path acc entry :
  sound_pair acc -> sound_pair (classify_mlsd path acc entry).
Proof.
  unfold classify_mlsd. destruct entry as [name facts]. destruct acc as [dirs files].
  intros (Hd & Hf & Hi).
  destruct (is_dots name) eqn:Hdots; [repeat split; assumption|].
  apply not_dots in Hdots.
  destruct (get_default facts "type" "" =? "dir")%string.
  - repeat split; simpl; auto. apply Forall_app. split; [exact Hd|]. repeat constructor; apply Hdots.
  - destruct (_ && _) eqn:Hfile; [|repeat split; assumption].
    apply andb_prop in Hfile as [_ Hext]. apply filter_has_image_ext in Hext.
    repeat split; simpl; auto; apply Forall_app; (split; [assumption|]);
      repeat constructor; simpl; auto; apply Hdots.
Qed.

Lemma fold_classify_sound path entries : forall acc,
  sound_pair acc -> sound_pair (fold_left (classify_mlsd path) entries acc).
Proof.
  induction entries as [|e entries IH]; intros acc Hacc; simpl; [exact Hacc|].
  apply IH. apply classify_mlsd_sound. exact Hacc.
Qed.

Lemma probe_nlst_sound E path name acc w acc' w' :
  sound_pair acc -> probe_nlst E path name acc w = (Ret acc', w') -> sound_pair acc'.
Proof.
  unfold probe_nlst. destruct acc as [dirs files]. intros (Hd & Hf & Hi).
  destruct (is_dots name) eqn:Hdots.
  - intros H. apply ret_inv in H as [<- _]. repeat split; assumption.
  - apply not_dots in Hdots. intros H.
    apply try_except_of_ret_inv in H as [H|(e & w1 & _ & _ & H)].
    + do 3 returned H. apply ret_inv in H as [<- _].
      repeat split; simpl; auto. apply Forall_app. split; [exact Hd|].
      repeat constructor; apply Hdots.
    + destruct (endswith_any (lower name) image_exts) eqn:Hext;
        apply ret_inv in H as [<- _]; [|repeat split; assumption].
      apply filter_has_image_ext in Hext.
      repeat split; simpl; auto; apply Forall_app; (split; [assumption|]);
        repeat constructor; simpl; auto; apply Hdots.
Qed.

Lemma list_directory_body_well_listed E path w l w' :
  list_directory_body E path w = (Ret l, w') -> well_listed l.
Proof.
  unfold list_directory_body. intros H.
  returned H. returned H. returned H. apply ret_inv in H as [<- _].
  assert (Hsound : sound_pair a0).
  { apply try_except_of_ret_inv in H1 as [H1|(e & w2 & _ & _ & H1)].
    - returned H1. apply ret_inv in H1 as [<- _].
      apply fold_classify_sound. repeat split; constructor.
    - returned H1. eapply for_each_inv; [|  |exact H1].
      + intros x acc wa acc' wb Hacc Hstep. eapply probe_nlst_sound; eauto.
      + repeat split; constructor. }
  destruct Hsound as (Hd & Hf & Hi).
  unfold well_listed. simpl. repeat split.
  - apply (sort_by_sorted name_key).
  - apply (sort_by_sorted name_key).
  - apply sort_by_Forall; assumption.
  - apply sort_by_Forall; assumption.
  - apply sort_by_Forall; assumption.
Qed.

(** C5.  Every listing that [_list_directory] returns, in the plugin and in
    the blueprint, from MLSD or from the NLST fallback, has its directories
    and its files sorted ascending by lower-cased name, contains neither "."
    nor "..", and has only files whose name ends in .jpg, .jpeg, .png, .bmp or
    .gif in any case. *)
Theorem listings_are_sorted_and_filtered E path w l w' :
  Plugin._list_directory E path w = (Ret l, w') \/
  Blueprint._list_directory E path w = (Ret l, w') ->
  well_listed l.
Proof.
  intros [H|H].
  - unfold Plugin._list_directory in H. returned H.
    destruct a; [|discriminate H].
    eapply list_directory_body_well_listed; eauto.
  - eapply list_directory_body_well_listed; eauto.
Qed.

Lemma listings_are_sorted_and_filtered_witness :
  exists l1 w1 l2 w2,
    Plugin._list_directory Demo.photos "/" Demo.online = (Ret l1, w1) /\
    Blueprint._list_directory Demo.legacy "/pics" Demo.online = (Ret l2, w2) /\
    map e_name (l_directories l1) = ["pics"; "vault"] /\
    map e_name (l_files l2) = ["tall.PNG"] /\
    well_listed l1 /\ well_listed l2.
Proof.
  eexists. eexists. eexists. eexists.
  assert (H1 : Plugin._list_directory Demo.photos "/" Demo.online = (Ret _, _))
    by (vm_compute; reflexivity).
  assert (H2 : Blueprint._list_directory Demo.legacy "/pics" Demo.online = (Ret _, _))
    by (vm_compute; reflexivity).
  split; [exact H1|]. split; [exact H2|].
  split; [reflexivity|]. split; [reflexivity|]. split.
  - exact (listings_are_sorted_and_filtered _ _ _ _ _ (or_introl H1)).
  - exact (listings_are_sorted_and_filtered _ _ _ _ _ (or_intror H2)).
Defined.

(** ** The recursive walk *)

Section Walk.

Variable E : Env.

Lemma on_ftp_ret_inv {A} meth (f : conn -> (exn + A) * conn) w a w' :
  on_ftp meth f w = (Ret a, w') ->
  exists c c', ftp w = Some c /\ conn_sock c = true /\
               f c = (inr a, c') /\ w' = set_ftp (Some c') w.
Proof.
  unfold on_ftp. destruct (ftp w) as [c|]; [|discriminate].
  destruct (conn_sock c) eqn:Hsock; [|discriminate].
  destruct (f c) as [[e|a0] c'] eqn:Hf; [discriminate|].
  intros [= <- <-]. exists c, c'. auto.
Qed.

Lemma ftp_pwd_ret_inv w d w' :
  ftp_pwd E w = (Ret d, w') ->
  exists c, ftp w = Some c /\ conn_sock c = true /\
            srv_pwd E (conn_wd c) = inr d /\ ftp w' = Some c.
Proof.
  unfold ftp_pwd. intros H.
  apply on_ftp_ret_inv in H as (c & c' & Hc & Hs & Hf & ->).
  injection Hf as Hp <-. exists c. auto.
Qed.

Lemma ftp_cwd_ret_inv p w u w' :
  ftp_cwd E p w = (Ret u, w') ->
  exists c wd, ftp w = Some c /\ conn_sock c = true /\
               srv_cwd E (conn_wd c) p = inr wd /\
               ftp w' = Some (mkConn (conn_id c) (conn_sock c) wd).
Proof.
  unfold ftp_cwd. intros H.
  apply on_ftp_ret_inv in H as (c & c' & Hc & Hs & Hf & ->).
  destruct (srv_cwd E (conn_wd c) p) as [e|wd] eqn:Hcwd; [discriminate|].
  injection Hf as _ <-. exists c, wd. auto.
Qed.

Lemma only_wd_same_wd w w' c c' :
  only_wd w w' -> ftp w = Some c -> ftp w' = Some c' -> conn_wd c' = conn_wd c ->
  w' = w.
Proof.
  intros (Hs & Ht & Hd & Hq & Hl & Hn & Htr) Hc Hc' Hwd.
  unfold session_of in Hs. rewrite Hc, Hc' in Hs. simpl in Hs.
  injection Hs as Hid Hsock.
  destruct w, w', c, c'. simpl in *. subst. reflexivity.
Qed.

(** The last call of a walk that returns is [cwd(current_dir)]. *)
Lemma walk_ends_with_restore fuel path w imgs w' :
  Plugin._list_images_recursive E fuel path w = (Ret imgs, w') ->
  exists c d w3 u,
    ftp w = Some c /\ srv_pwd E (conn_wd c) = inr d /\
    ftp_cwd E d w3 = (Ret u, w').
Proof.
  destruct fuel as [|fuel]; [discriminate|]. simpl. intros H.
  returned H. unfold get in H0. injection H0 as <- <-.
  destruct (ftp w) as [c|] eqn:Hc; [|discriminate H].
  returned H. returned H. returned H. returned H.
  apply ftp_pwd_ret_inv in H0 as (c0 & Hc0 & _ & Hpwd & _).
  rewrite Hc in Hc0. injection Hc0 as <-.
  exists c, a. destruct a1 as [images|entries].
  - apply ret_inv in H as [-> ->].
    apply try_except_of_ret_inv in H2 as [H2|(e & w4 & _ & _ & H2)].
    + returned H2. apply ret_inv in H2 as [H2 _]. discriminate H2.
    + apply try_except_of_ret_inv in H2 as [H2|(e' & w5 & _ & _ & H2)].
      * returned H2. apply ret_inv in H2 as [H2 _]. discriminate H2.
      * returned H2. apply ret_inv in H2 as [_ ->].
        exists w5, a1. auto.
  - returned H. returned H. apply ret_inv in H as [_ ->].
    exists w3, a2. auto.
Qed.


End Walk.


Lemma table_env_coherent t : pwd_names_wd (Demo.table_env t).
Proof.
  intros wd d Hpwd wd0 wd' Hcwd. simpl in *. unfold Demo.table_pwd in Hpwd.
  destruct (startswith wd "/") eqn:Habs; [|discriminate]. injection Hpwd as <-.
  unfold Demo.table_cwd in Hcwd. rewrite Habs in Hcwd.
  destruct (Demo.assoc _ _); [|discriminate]. injection Hcwd as <-. reflexivity.
Qed.


(** ** The walk on a tree *)

Section WalkOnTree.

Variable E : Env.
Variable w : world.
Variable c : conn.

(** Session calls in a world whose session is connected. *)

Lemma moved_moved wd wd' : set_ftp (Some (mkConn (conn_id c) true wd')) (moved w c wd) = moved w c wd'.
Proof. reflexivity. Qed.



Lemma run_cwd wd p wd' :
  srv_cwd E wd p = inr wd' -> ftp_cwd E p (moved w c wd) = (Ret tt, moved w c wd').
Proof. intros H. unfold ftp_cwd, on_ftp. simpl. rewrite H. reflexivity. Qed.


Lemma run_mlsd wd :
  ftp_mlsd E (moved w c wd) =
    (match srv_mlsd E wd with inl e => Raise e | inr entries => Ret entries end,
     moved w c wd).
Proof. unfold ftp_mlsd, on_ftp. simpl. destruct (srv_mlsd E wd); reflexivity. Qed.










End WalkOnTree.

Lemma moved_self w c : ftp w = Some c -> conn_sock c = true -> moved w c (conn_wd c) = w.
Proof. destruct w, c. simpl. intros [= ->] ->. reflexivity. Qed.



Section NeverAborts.

Variable E : Env.






End NeverAborts.


Section TableServers.

Variable t : Demo.Table.





End TableServers.

(** Solve [lists] on a concrete table server. *)
Ltac listed :=
  first
    [ eexists; split; [reflexivity|];
      repeat (apply Forall2_cons || apply Forall2_nil); split; reflexivity
    | split; [eexists; split; reflexivity|reflexivity] ].






(** * Further properties *)

(** ** Closing and cleaning up *)

(** X1.  [_close_ftp] never raises, whatever [quit] does, and leaves
    [self.ftp] at [None] with the local files and [temp_files] untouched;
    closing again changes nothing. *)
Theorem close_ftp_is_quiet_and_idempotent E w :
  exists w1,
    Plugin._close_ftp E w = (Ret tt, w1) /\
    ftp w1 = None /\ disk w1 = disk w /\ temp_files w1 = temp_files w /\
    Plugin._close_ftp E w1 = (Ret tt, w1).
Proof.
  exists (hung_up E w). split; [apply close_ftp_spec|].
  assert (Hnone : ftp (hung_up E w) = None).
  { unfold hung_up. destruct (ftp w) as [c|] eqn:Hc; [|exact Hc].
    destruct (conn_sock c); [destruct (srv_quit E)|]; reflexivity. }
  split; [exact Hnone|]. split; [|split].
  - unfold hung_up. destruct (ftp w) as [c|]; [|reflexivity].
    destruct (conn_sock c); [destruct (srv_quit E)|]; reflexivity.
  - unfold hung_up. destruct (ftp w) as [c|]; [|reflexivity].
    destruct (conn_sock c); [destruct (srv_quit E)|]; reflexivity.
  - rewrite close_ftp_spec. unfold hung_up at 1. rewrite Hnone. reflexivity.
Qed.

Lemma on_disk_unlink_other p q d :
  p <> q -> on_disk p (unlink q d) = on_disk p d.
Proof.
  intros Hpq. rewrite on_disk_unlink.
  destruct (String.eqb_spec q p); [congruence|reflexivity].
Qed.

Lemma sweep_keeps E files : forall d p,
  os_remove_error E p <> None ->
  on_disk p (fst (sweep E files d)) = on_disk p d.
Proof.
  induction files as [|q rest IH]; intros d p Hp; simpl; [reflexivity|].
  destruct (on_disk q d) eqn:Hq; [|apply IH; exact Hp].
  destruct (os_remove_error E q) eqn:Hrm; [apply IH; exact Hp|].
  destruct (sweep E rest (unlink q d)) as [d' removed] eqn:Hs. simpl.
  specialize (IH (unlink q d) p Hp). rewrite Hs in IH. simpl in IH. rewrite IH.
  apply on_disk_unlink_other. intros ->. congruence.
Qed.

(** X2.  [_cleanup_temp_files] never raises and empties [temp_files].  Every
    registered file whose removal does not fail is gone afterwards; a file
    whose removal fails stays on the disk although it is no longer
    registered, so a second cleanup does nothing at all. *)
Theorem cleanup_forgets_what_it_cannot_remove E w :
  exists w1,
    Plugin._cleanup_temp_files E w = (Ret tt, w1) /\
    temp_files w1 = [] /\ ftp w1 = ftp w /\ live w1 = live w /\
    (forall p, In p (temp_files w) -> os_remove_error E p = None ->
               on_disk p (disk w1) = false) /\
    (forall p, os_remove_error E p <> None -> on_disk p (disk w1) = on_disk p (disk w)) /\
    Plugin._cleanup_temp_files E w1 = (Ret tt, w1).
Proof.
  exists (swept E w). split; [apply cleanup_temp_files_spec|].
  split; [reflexivity|]. split; [reflexivity|]. split; [reflexivity|].
  split; [|split].
  - intros p Hin Hok. apply sweep_removes; assumption.
  - intros p Hp. apply sweep_keeps. exact Hp.
  - rewrite cleanup_temp_files_spec. unfold swept at 1. cbn [temp_files swept sweep fst snd map].
    rewrite app_nil_r. reflexivity.
Qed.

(** ** Connecting *)

Lemma close_ftp_ret_inv E w u w' :
  Plugin._close_ftp E w = (Ret u, w') -> w' = hung_up E w.
Proof. rewrite close_ftp_spec. intros H. injection H as _ <-. reflexivity. Qed.

(** What a successful [_connect_ftp] of the plugin leaves. *)
Lemma plugin_connect_ret_inv E server port user passwd use_tls passive w w' :
  Plugin._connect_ftp E server port user passwd use_tls passive w = (Ret tt, w') ->
  exists home,
    srv_connect E server port use_tls = None /\
    srv_login E user passwd = inr home /\
    w' = mkWorld (Some (mkConn (next_conn (hung_up E w)) true home))
                 (temp_files (hung_up E w)) (disk (hung_up E w)) (tmp_seq (hung_up E w))
                 (next_conn (hung_up E w) :: live (hung_up E w))
                 (S (next_conn (hung_up E w))) (trace (hung_up E w)).
Proof.
  unfold Plugin._connect_ftp. intros H. do 5 returned H.
  apply close_ftp_ret_inv in H0. subst.
  unfold ftp_new, modify in H1. injection H1 as _ <-.
  unfold ftp_connect in H2. cbn [ftp set_next_conn set_ftp] in H2.
  destruct (srv_connect E server port use_tls) eqn:Hconn; [discriminate|].
  injection H2 as _ <-.
  unfold ftp_login, on_ftp in H3. cbn in H3.
  destruct (srv_login E user passwd) as [e|home] eqn:Hlogin; [discriminate|].
  injection H3 as _ <-. apply ret_inv in H as [_ ->].
  exists home. repeat split.
Qed.

(** X3.  Connecting over an open session replaces it: when [quit] succeeds,
    a successful [_connect_ftp] leaves the old session closed on the server
    (its quit is logged), the new session open and held in [self.ftp], in the
    working directory the login gave, and local files untouched. *)
Theorem connect_replaces_the_open_session
    E server port user passwd use_tls passive w c w' :
  ftp w = Some c -> conn_sock c = true -> srv_quit E = None ->
  conn_id c <> next_conn w ->
  Plugin._connect_ftp E server port user passwd use_tls passive w = (Ret tt, w') ->
  exists home,
    srv_login E user passwd = inr home /\
    ftp w' = Some (mkConn (next_conn w) true home) /\
    live w' = next_conn w :: remove Nat.eq_dec (conn_id c) (live w) /\
    ~ In (conn_id c) (live w') /\
    trace w' = (trace w ++ [EvQuit (conn_id c)])%list /\
    disk w' = disk w /\ temp_files w' = temp_files w.
Proof.
  intros Hc Hsock Hquit Hfresh Hrun.
  apply plugin_connect_ret_inv in Hrun as (home & _ & Hlogin & ->).
  unfold hung_up. rewrite Hc, Hsock, Hquit. cbn.
  exists home. repeat split; auto.
  intros [Hin|Hin]; [congruence|]. revert Hin. apply remove_In.
Qed.

Lemma connect_replaces_the_open_session_witness :
  exists w1 w2,
    connect_of Demo.photos Demo.base_settings fresh_world = (Ret tt, w1) /\
    connect_of Demo.photos Demo.base_settings w1 = (Ret tt, w2) /\
    ftp w2 = Some (mkConn 1 true "/") /\ live w2 = [1%nat] /\
    trace w2 = [EvQuit 0].
Proof.
  exists Demo.online. eexists.
  assert (H2 : connect_of Demo.photos Demo.base_settings Demo.online = (Ret tt, _))
    by (vm_compute; reflexivity).
  split; [vm_compute; reflexivity|]. split; [exact H2|].
  destruct (connect_replaces_the_open_session Demo.photos "nas.local" 21 "anonymous" ""
              false true Demo.online (mkConn 0 true "/") _
              eq_refl eq_refl eq_refl ltac:(discriminate) H2)
    as (home & Hlogin & Hftp & Hlive & _ & Htrace & _).
  injection Hlogin as <-. auto.
Defined.

(** ** Error kinds *)

Lemma guarded_raise_inv {A} (m : M A) w e w' :
  (c <- get ftp ;;
   match c with
   | None => raise (Exn RuntimeError "FTP connection is not established")
   | Some _ => m
   end) w = (Raise e, w') ->
  e = Exn RuntimeError "FTP connection is not established" \/ m w = (Raise e, w').
Proof.
  unfold bind, get. destruct (ftp w); [auto|]. intros [= <- _]. auto.
Qed.

(** X4.  Whatever goes wrong inside them, the plugin's [_connect_ftp],
    [_list_directory], [_list_images_recursive] and [_download_image] raise
    nothing but RuntimeError. *)
Theorem plugin_methods_raise_runtime_errors E w e w' :
  plugin_method_raises E w e w' -> kind e = RuntimeError.
Proof.
  intros [(server & port & user & passwd & use_tls & passive & H)
         |[(path & H)|[(fuel & path & H)|(remote_path & H)]]].
  - unfold Plugin._connect_ftp in H.
    apply try_except_reraise_raise_inv in H as (e0 & _ & ->). reflexivity.
  - unfold Plugin._list_directory in H.
    apply guarded_raise_inv in H as [->|H]; [reflexivity|].
    unfold list_directory_body in H.
    apply try_except_reraise_raise_inv in H as (e0 & _ & ->). reflexivity.
  - destruct fuel as [|fuel]; [discriminate H|]. cbn [Plugin._list_images_recursive] in H.
    apply guarded_raise_inv in H as [->|H]; [reflexivity|].
    apply try_except_reraise_raise_inv in H as (e0 & _ & ->). reflexivity.
  - unfold Plugin._download_image in H.
    apply guarded_raise_inv in H as [->|H]; [reflexivity|].
    apply try_except_reraise_raise_inv in H as (e0 & _ & ->). reflexivity.
Qed.

Lemma plugin_methods_raise_runtime_errors_witness :
  exists e w',
    Plugin._list_images_recursive Demo.mute 5 "/" Demo.online = (Raise e, w') /\
    kind e = RuntimeError.
Proof.
  eexists. eexists.
  assert (H : Plugin._list_images_recursive Demo.mute 5 "/" Demo.online = (Raise _, _))
    by (vm_compute; reflexivity).
  split; [exact H|].
  eapply (plugin_methods_raise_runtime_errors Demo.mute Demo.online).
  right. right. left. exists 5%nat, "/". exact H.
Defined.

(** ** Listings from MLSD *)

Lemma fold_classify_eq path entries : forall ds fs,
  fold_left (classify_mlsd path) entries (ds, fs)
  = ((ds ++ mlsd_directories path entries)%list, (fs ++ mlsd_files path entries)%list).
Proof.
  unfold mlsd_directories, mlsd_files.
  induction entries as [|[name facts] entries IH]; intros ds fs.
  - simpl. rewrite !app_nil_r. reflexivity.
  - cbn [fold_left filter fst snd]. unfold classify_mlsd at 2.
    destruct (is_dots name); cbn [negb andb].
    + apply IH.
    + destruct (String.eqb_spec (get_default facts "type" "") "dir") as [Hd|Hd].
      * rewrite Hd. change ("dir" =? "file")%string with false. cbn [andb map].
        rewrite IH. rewrite <- app_assoc. reflexivity.
      * destruct ((get_default facts "type" "" =? "file")%string
                  && endswith_any (lower name) image_exts); cbn [map].
        -- rewrite IH. rewrite <- app_assoc. reflexivity.
        -- apply IH.
Qed.

Lemma list_directory_body_mlsd E path w c wd0 wd entries :
  srv_cwd E wd0 path = inr wd -> srv_mlsd E wd = inr entries ->
  list_directory_body E path (moved w c wd0)
  = (Ret (mkListing path (if (path =? "/")%string then "/" else os_path_dirname path)
                    (sort_by name_key (mlsd_directories path entries))
                    (sort_by name_key (mlsd_files path entries))),
     moved w c wd).
Proof.
  intros Hcwd Hmlsd. unfold list_directory_body.
  unfold try_except at 1. unfold bind at 1. rewrite (run_cwd E w c _ _ _ Hcwd).
  unfold bind at 1. unfold try_except_of, try_except at 1. unfold bind at 1.
  rewrite run_mlsd, Hmlsd. unfold ret.
  rewrite fold_classify_eq. reflexivity.
Qed.

(** X5.  When the server answers MLSD, [_list_directory], in the plugin and
    in the blueprint, returns a listing for the path asked that loses
    nothing and invents nothing: its directories are exactly the entries of
    type "dir" other than "." and "..", its files exactly the entries of type
    "file" with an image extension, each once, sorted by lower-cased name;
    the session is left in the listed directory. *)
Theorem mlsd_listing_is_complete E path w c wd entries :
  ftp w = Some c -> conn_sock c = true ->
  srv_cwd E (conn_wd c) path = inr wd -> srv_mlsd E wd = inr entries ->
  exists l,
    Plugin._list_directory E path w = (Ret l, moved w c wd) /\
    Blueprint._list_directory E path w = (Ret l, moved w c wd) /\
    l_current_path l = path /\
    l_directories l = sort_by name_key (mlsd_directories path entries) /\
    l_files l = sort_by name_key (mlsd_files path entries) /\
    Permutation (mlsd_directories path entries) (l_directories l) /\
    Permutation (mlsd_files path entries) (l_files l).
Proof.
  intros Hc Hsock Hcwd Hmlsd.
  pose proof (list_directory_body_mlsd E path w c _ _ _ Hcwd Hmlsd) as Hbody.
  rewrite (moved_self w c Hc Hsock) in Hbody.
  eexists. split; [|split; [exact Hbody|]].
  - unfold Plugin._list_directory, bind, get. rewrite Hc. exact Hbody.
  - cbn [l_current_path l_directories l_files].
    repeat split; apply sort_by_perm.
Qed.

Lemma mlsd_listing_is_complete_witness :
  exists l,
    Plugin._list_directory Demo.photos "/pics" Demo.online
      = (Ret l, moved Demo.online (mkConn 0 true "/") "/pics") /\
    map e_path (l_directories l) = ["/pics/deep"] /\
    map e_path (l_files l) = ["/pics/tall.PNG"].
Proof.
  destruct (mlsd_listing_is_complete Demo.photos "/pics" Demo.online (mkConn 0 true "/")
              "/pics" [("tall.PNG", Demo.file_facts); ("deep", Demo.dir_facts)]
              eq_refl eq_refl eq_refl eq_refl)
    as (l & Hrun & _ & _ & Hd & Hf & _).
  exists l. split; [exact Hrun|]. rewrite Hd, Hf. split; reflexivity.
Defined.

(** ** Paths *)

Section PathStrings.

Lemma has_char_app c a b : has_char c (a ++ b) = has_char c a || has_char c b.
Proof.
  induction a as [|x a IH]; simpl; [reflexivity|]. rewrite IH. apply orb_assoc.
Qed.

Lemma replace_backslash_plain s : has_char "\" s = false -> replace_backslash s = s.
Proof.
  induction s as [|c s IH]; simpl; [reflexivity|]. intros H.
  apply orb_false_elim in H as [Hc Hs]. rewrite Hc, (IH Hs). reflexivity.
Qed.

Lemma upto_last_slash_none s : has_char "/" s = false -> upto_last_slash s = "".
Proof.
  induction s as [|c s IH]; simpl; [reflexivity|]. intros H.
  apply orb_false_elim in H as [Hc Hs]. rewrite (IH Hs), Hc. reflexivity.
Qed.

Lemma upto_last_slash_app a b :
  has_char "/" b = false -> upto_last_slash (a ++ String "/" b) = a ++ "/".
Proof.
  intros Hb. induction a as [|c a IH].
  - cbn [append upto_last_slash]. rewrite (upto_last_slash_none b Hb). reflexivity.
  - cbn [append upto_last_slash]. rewrite IH. destruct a; reflexivity.
Qed.

Lemma rstrip_slash_app a b :
  rstrip_slash (a ++ b) =
    match rstrip_slash b with
    | EmptyString => rstrip_slash a
    | r => a ++ r
    end.
Proof.
  induction a as [|c a IH]; cbn [append].
  - destruct (rstrip_slash b); reflexivity.
  - cbn [rstrip_slash]. rewrite IH.
    destruct (rstrip_slash b) as [|x r]; [reflexivity|].
    destruct a; reflexivity.
Qed.

Lemma rstrip_slash_length s : (String.length (rstrip_slash s) <= String.length s)%nat.
Proof.
  induction s as [|c s IH]; simpl; [lia|].
  destruct (rstrip_slash s); [destruct (c =? "/")%char|]; simpl in *; lia.
Qed.

Lemma length_append a b : String.length (a ++ b) = (String.length a + String.length b)%nat.
Proof. induction a as [|c a IH]; simpl; [reflexivity|]. rewrite IH. reflexivity. Qed.

Lemma no_trailing_slash path :
  rstrip_slash path = path -> endswith path "/" = true -> False.
Proof.
  intros Hfix Hend. apply endswith_split in Hend as [stem ->].
  rewrite rstrip_slash_app in Hfix. cbn in Hfix.
  pose proof (rstrip_slash_length stem) as Hlen. rewrite Hfix in Hlen.
  rewrite length_append in Hlen. simpl in Hlen. lia.
Qed.

Lemma plain_name_not_absolute name : plain_name name -> startswith name "/" = false.
Proof.
  intros (Hne & Hslash & _). destruct name as [|c name]; [congruence|].
  simpl in Hslash. apply orb_false_elim in Hslash as [Hc _].
  unfold startswith. cbn [prefix].
  destruct (Ascii.ascii_dec "/" c) as [<-|_]; [discriminate Hc|reflexivity].
Qed.

(** The path of an entry of a plain directory. *)
Lemma entry_path_plain path name :
  plain_path path -> plain_name name ->
  replace_backslash (os_path_join path name)
  = if (path =? "/")%string then "/" ++ name else path ++ "/" ++ name.
Proof.
  intros (Hback & Hshape) Hname. pose proof Hname as (Hne & Hslash & Hbs).
  unfold os_path_join. rewrite (plain_name_not_absolute name Hname).
  destruct Hshape as [->|(Hpath & Hfix)].
  - cbn. f_equal. apply replace_backslash_plain. exact Hbs.
  - destruct (String.eqb_spec path "") as [|_]; [contradiction|].
    destruct (String.eqb_spec path "/") as [->|_].
    + cbn. f_equal. apply replace_backslash_plain. exact Hbs.
    + cbn [orb]. destruct (endswith path "/") eqn:Hend.
      * exfalso. eapply no_trailing_slash; eauto.
      * apply replace_backslash_plain. rewrite !has_char_app, Hback, Hbs. reflexivity.
Qed.

(** [os.path.dirname] undoes [os.path.join] on plain paths and names. *)
Lemma dirname_of_entry_path path name :
  plain_path path -> plain_name name ->
  os_path_dirname (replace_backslash (os_path_join path name)) = path /\
  replace_backslash (os_path_join path name) <> "/".
Proof.
  intros Hpath Hname. rewrite (entry_path_plain path name Hpath Hname).
  destruct Hname as (Hne & Hslash & _). destruct Hpath as (_ & [->|(Hpne & Hfix)]).
  - cbn [String.eqb Ascii.eqb Bool.eqb]. cbn. split.
    + unfold os_path_dirname.
      change (String "/" name) with ("" ++ String "/" name).
      rewrite (upto_last_slash_app "" name Hslash). reflexivity.
    + destruct name; congruence.
  - assert (Hjoin : (if (path =? "/")%string then "/" ++ name else path ++ "/" ++ name)
                    = path ++ String "/" name /\ True).
    { split; [|exact I].
      destruct (String.eqb_spec path "/") as [->|_]; [discriminate Hfix|reflexivity]. }
    destruct Hjoin as [-> _]. split.
    + unfold os_path_dirname. rewrite (upto_last_slash_app path name Hslash).
      rewrite rstrip_slash_app. cbn. rewrite Hfix.
      destruct path; [congruence|reflexivity].
    + destruct path as [|c path]; [congruence|]. cbn [append].
      intros [= _ H]. destruct path; discriminate H.
Qed.

End PathStrings.

(** ** Browsing down and up *)

Lemma classify_mlsd_pathed path acc entry :
  pathed path acc -> pathed path (classify_mlsd path acc entry).
Proof.
  unfold classify_mlsd, pathed. destruct entry as [name facts]. destruct acc as [ds fs].
  cbn [fst snd]. intros [Hd Hf].
  destruct (is_dots name); [split; assumption|].
  destruct (get_default facts "type" "" =? "dir")%string.
  - cbn [fst snd]. split; [|exact Hf]. apply Forall_app. split; [exact Hd|].
    constructor; [reflexivity|constructor].
  - destruct (_ && _); [|split; assumption].
    cbn [fst snd]. split; [exact Hd|]. apply Forall_app. split; [exact Hf|].
    constructor; [reflexivity|constructor].
Qed.

Lemma fold_classify_pathed path entries : forall acc,
  pathed path acc -> pathed path (fold_left (classify_mlsd path) entries acc).
Proof.
  induction entries as [|e entries IH]; intros acc Hacc; simpl; [exact Hacc|].
  apply IH. apply classify_mlsd_pathed. exact Hacc.
Qed.

Lemma probe_nlst_pathed E path name acc w acc' w' :
  pathed path acc -> probe_nlst E path name acc w = (Ret acc', w') -> pathed path acc'.
Proof.
  unfold probe_nlst, pathed. destruct acc as [ds fs]. cbn [fst snd]. intros [Hd Hf].
  destruct (is_dots name).
  - intros H. apply ret_inv in H as [<- _]. split; assumption.
  - intros H. apply try_except_of_ret_inv in H as [H|(e & w1 & _ & _ & H)].
    + do 3 returned H. apply ret_inv in H as [<- _]. cbn [fst snd].
      split; [|exact Hf]. apply Forall_app. split; [exact Hd|].
      constructor; [reflexivity|constructor].
    + destruct (endswith_any (lower name) image_exts);
        apply ret_inv in H as [<- _]; cbn [fst snd]; [|split; assumption].
      split; [exact Hd|]. apply Forall_app. split; [exact Hf|].
      constructor; [reflexivity|constructor].
Qed.

Lemma list_directory_body_fields E path w l w' :
  list_directory_body E path w = (Ret l, w') ->
  l_current_path l = path /\
  l_parent_path l = (if (path =? "/")%string then "/" else os_path_dirname path) /\
  Forall (fun e => e_path e = replace_backslash (os_path_join path (e_name e)))
         (l_directories l) /\
  Forall (fun e => e_path e = replace_backslash (os_path_join path (e_name e)))
         (l_files l).
Proof.
  unfold list_directory_body. intros H.
  returned H. returned H. returned H. apply ret_inv in H as [<- _].
  assert (Hp : pathed path a0).
  { apply try_except_of_ret_inv in H1 as [H1|(e & w2 & _ & _ & H1)].
    - returned H1. apply ret_inv in H1 as [<- _].
      apply fold_classify_pathed. split; constructor.
    - returned H1. eapply for_each_inv; [| |exact H1].
      + intros x acc wa acc' wb Hacc Hstep. eapply probe_nlst_pathed; eauto.
      + split; constructor. }
  destruct Hp as [Hd Hf]. cbn. repeat split; try apply sort_by_Forall; assumption.
Qed.

Lemma lists_as_body E path w l w' :
  lists_as E path w l w' -> list_directory_body E path w = (Ret l, w').
Proof.
  intros [H|H]; [|exact H].
  unfold Plugin._list_directory in H. returned H.
  unfold get in H0. injection H0 as <- <-.
  destruct (ftp w); [exact H|discriminate H].
Qed.

(** X6.  Browsing down and up again comes back: when a listing of a plain
    path shows a directory with a plain name, the entry's path is the path
    joined with the name by one slash, and a listing of that path names the
    first path as its parent. *)
Theorem parent_of_a_listed_directory E path w l w1 d w2 l' w3 :
  plain_path path ->
  lists_as E path w l w1 ->
  In d (l_directories l) -> plain_name (e_name d) ->
  lists_as E (e_path d) w2 l' w3 ->
  e_path d = (if (path =? "/")%string then "/" ++ e_name d else path ++ "/" ++ e_name d) /\
  l_current_path l' = e_path d /\
  l_parent_path l' = l_current_path l.
Proof.
  intros Hpath Hl Hin Hname Hl'.
  apply lists_as_body in Hl, Hl'.
  apply list_directory_body_fields in Hl as (Hcur & _ & Hdirs & _).
  apply list_directory_body_fields in Hl' as (Hcur' & Hpar' & _).
  rewrite Forall_forall in Hdirs. specialize (Hdirs d Hin).
  destruct (dirname_of_entry_path path (e_name d) Hpath Hname) as [Hdir Hroot].
  split; [rewrite Hdirs; apply entry_path_plain; assumption|].
  split; [exact Hcur'|].
  rewrite Hpar', Hcur, Hdirs.
  destruct (String.eqb_spec (replace_backslash (os_path_join path (e_name d))) "/");
    [contradiction|exact Hdir].
Qed.

Lemma parent_of_a_listed_directory_witness :
  exists l w1 d l' w3,
    lists_as Demo.photos "/pics" Demo.online l w1 /\
    In d (l_directories l) /\ e_path d = "/pics/deep" /\
    lists_as Demo.photos "/pics/deep" w1 l' w3 /\
    l_parent_path l' = "/pics".
Proof.
  eexists. eexists. eexists. eexists. eexists.
  assert (Hl : lists_as Demo.photos "/pics" Demo.online _ _)
    by (left; vm_compute; reflexivity).
  assert (Hl' : lists_as Demo.photos "/pics/deep"
                  (moved Demo.online (mkConn 0 true "/") "/pics") _ _)
    by (right; vm_compute; reflexivity).
  split; [exact Hl|]. split; [left; reflexivity|]. split; [reflexivity|].
  split; [exact Hl'|].
  eapply (parent_of_a_listed_directory Demo.photos "/pics" Demo.online _ _
            (mkEntry "deep" "/pics/deep" "dir" None) _ _ _ _ Hl _ _ Hl').
  Unshelve.
  - split; [reflexivity|]. right. split; [discriminate|reflexivity].
  - left. reflexivity.
  - split; [discriminate|]. split; reflexivity.
Defined.

(** ** What the walk returns *)

Section WalkResults.

Lemma prefix_iff a : forall b, prefix a b = true <-> exists t, b = a ++ t.
Proof.
  induction a as [|x a IH]; intros b.
  - split; [intros _; exists b; reflexivity|]. intros _. destruct b; reflexivity.
  - destruct b as [|y b]; cbn [prefix].
    + split; [discriminate|]. intros [t Ht]. discriminate Ht.
    + destruct (Ascii.ascii_dec x y) as [->|Hxy].
      * rewrite IH. split; intros [t Ht]; exists t.
        -- cbn [append]. rewrite Ht. reflexivity.
        -- cbn [append] in Ht. injection Ht as ->. reflexivity.
      * split; [discriminate|]. intros [t Ht]. cbn [append] in Ht.
        injection Ht as Hx _. congruence.
Qed.

Lemma append_assoc a b c : (a ++ b) ++ c = a ++ (b ++ c).
Proof. induction a as [|x a IH]; simpl; [reflexivity|]. rewrite IH. reflexivity. Qed.

Lemma rstrip_slash_idem s : rstrip_slash (rstrip_slash s) = rstrip_slash s.
Proof.
  induction s as [|c s IH]; simpl; [reflexivity|].
  destruct (rstrip_slash s) as [|x r] eqn:Hr.
  - destruct (c =? "/")%char eqn:Hc; simpl; [reflexivity|]. rewrite Hc. reflexivity.
  - cbn [rstrip_slash]. cbn [rstrip_slash] in IH. rewrite IH. reflexivity.
Qed.

Lemma under_child root name : under root (child_path root name).
Proof.
  unfold under, child_path, startswith. apply prefix_iff.
  exists name. rewrite append_assoc. reflexivity.
Qed.

Lemma under_trans root name p : under (child_path root name) p -> under root p.
Proof.
  unfold under, child_path, startswith. rewrite !prefix_iff. intros [t ->].
  rewrite rstrip_slash_app.
  destruct (rstrip_slash ("/" ++ name)) as [|x r] eqn:Hr.
  - rewrite rstrip_slash_idem. exists t. reflexivity.
  - cbn [append rstrip_slash] in Hr.
    assert (Hx : x = "/"%char).
    { destruct (rstrip_slash name); [discriminate Hr|]. injection Hr as <- _. reflexivity. }
    subst x. exists (r ++ "/" ++ t).
    rewrite !append_assoc. reflexivity.
Qed.

Lemma image_under_child root name :
  endswith_any (lower name) image_exts = true -> image_under root (child_path root name).
Proof.
  intros Hext. split; [apply under_child|].
  apply filter_has_image_ext in Hext as (stem & ext & -> & Hin).
  exists (rstrip_slash root ++ "/" ++ stem), ext. split; [|exact Hin].
  unfold child_path. rewrite !append_assoc. reflexivity.
Qed.

Lemma image_under_trans root name p :
  image_under (child_path root name) p -> image_under root p.
Proof. intros [Hu Hi]. split; [eapply under_trans; eauto|exact Hi]. Qed.

Variable E : Env.

Lemma visit_entry_results recurse path d0 entry images w images' w' :
  (forall p w1 sub w2, recurse p w1 = (Ret sub, w2) -> Forall (image_under p) sub) ->
  Forall (image_under path) images ->
  Plugin.visit_entry E recurse path d0 entry images w = (Ret images', w') ->
  Forall (image_under path) images'.
Proof.
  intros Hrec Himages. unfold Plugin.visit_entry. destruct entry as [name facts].
  change (rstrip_slash path ++ "/" ++ name) with (child_path path name).
  assert (Hsub : forall w1 sub w2,
            recurse (child_path path name) w1 = (Ret sub, w2) ->
            Forall (image_under path) (images ++ sub)).
  { intros w1 sub w2 Hr. apply Forall_app. split; [exact Himages|].
    eapply Forall_impl; [|eapply Hrec; exact Hr].
    intros p. apply image_under_trans. }
  assert (Hfile : forall w1 w2,
            (if endswith_any (lower name) image_exts
             then ret (images ++ [child_path path name])%list
             else ret images) w1 = (Ret images', w2) ->
            Forall (image_under path) images').
  { intros w1 w2 H. destruct (endswith_any (lower name) image_exts) eqn:Hext;
      apply ret_inv in H as [<- _]; [|exact Himages].
    apply Forall_app. split; [exact Himages|].
    constructor; [apply image_under_child; exact Hext|constructor]. }
  destruct (is_dots name).
  { intros H. apply ret_inv in H as [<- _]. exact Himages. }
  intros H. apply try_except_ret_inv in H as [H|(? & ? & _ & H)];
    [|apply ret_inv in H as [<- _]; exact Himages].
  destruct (dict_get facts "type") as [t|].
  - destruct (t =? "dir")%string.
    + returned H. apply ret_inv in H as [<- _]. eapply Hsub; eauto.
    + destruct (t =? "file")%string; [eapply Hfile; eauto|].
      apply ret_inv in H as [<- _]. exact Himages.
  - returned H. destruct a as [images''|]; [|eapply Hfile; eauto].
    apply ret_inv in H as [<- _].
    apply try_except_of_ret_inv in H0 as [H0|(? & ? & _ & _ & H0)].
    + do 3 returned H0. apply ret_inv in H0 as [H0 _]. injection H0 as <-.
      eapply Hsub; eauto.
    + apply ret_inv in H0 as [H0 _]. discriminate H0.
Qed.

Lemma walk_results : forall fuel root w images w',
  Plugin._list_images_recursive E fuel root w = (Ret images, w') ->
  Forall (image_under root) images.
Proof.
  induction fuel as [|fuel IH]; intros root w images w' H; [discriminate H|].
  cbn [Plugin._list_images_recursive] in H.
  returned H. destruct a as [c|]; [|discriminate H].
  returned H. returned H. returned H. returned H.
  destruct a1 as [early|entries].
  - apply ret_inv in H as [<- _].
    apply try_except_of_ret_inv in H3 as [H3|(? & ? & _ & _ & H3)].
    + returned H3. apply ret_inv in H3 as [H3 _]. discriminate H3.
    + apply try_except_of_ret_inv in H3 as [H3|(? & ? & _ & _ & H3)].
      * returned H3. apply ret_inv in H3 as [H3 _]. discriminate H3.
      * returned H3. apply ret_inv in H3 as [H3 _]. injection H3 as <-. constructor.
  - returned H. returned H. apply ret_inv in H as [<- _].
    eapply (for_each_inv (Forall (image_under root))); [| |exact H4].
    + intros entry acc wa acc' wb Hacc Hstep.
      eapply visit_entry_results; [|exact Hacc|exact Hstep].
      intros p wc sub wd Hr. eapply IH; eauto.
    + constructor.
Qed.

(** X7.  On any server, whatever it answers, every path a returning walk
    yields lies under the root it was asked for and ends in an image
    extension, in any case. *)
Theorem walk_returns_image_paths_under_the_root fuel root w images w' :
  Plugin._list_images_recursive E fuel root w = (Ret images, w') ->
  Forall (image_under root) images.
Proof. apply walk_results. Qed.

End WalkResults.

Lemma walk_returns_image_paths_under_the_root_witness :
  Forall (image_under "/pics") ["/pics/tall.PNG"; "/pics/deep/c.gif"].
Proof.
  apply (walk_returns_image_paths_under_the_root Demo.legacy 5 "/pics" Demo.online _
           Demo.online).
  vm_compute. reflexivity.
Defined.

(** ** Random mode *)

Lemma walk_leaves_the_world E fuel path w images w' :
  pwd_names_wd E ->
  Plugin._list_images_recursive E fuel path w = (Ret images, w') -> w' = w.
Proof.
  intros Hcoh Hrun.
  pose proof (list_images_recursive_only_wd E fuel path w _ w' Hrun) as Hframe.
  destruct (walk_ends_with_restore E _ _ _ _ _ Hrun) as (c & d & w3 & u & Hc & Hpwd & Hcwd).
  apply ftp_cwd_ret_inv in Hcwd as (c3 & wd & _ & _ & Hsrv & Hc').
  eapply only_wd_same_wd; eauto.
Qed.

Lemma bind_run {A B} (m : M A) (k : A -> M B) w a w1 :
  m w = (Ret a, w1) -> bind m k w = k a w1.
Proof. intros H. unfold bind. rewrite H. reflexivity. Qed.

Lemma random_choice_in E images : images <> [] -> In (Facade.random_choice E images) images.
Proof.
  intros Hne. unfold Facade.random_choice. apply nth_In.
  apply Nat.mod_upper_bound. destruct images; [congruence|discriminate].
Qed.

Lemma image_under_nonempty root p : image_under root p -> p <> "".
Proof.
  intros [Hu _] ->. unfold under, startswith in Hu. apply prefix_iff in Hu as [t Ht].
  destruct (rstrip_slash root); discriminate Ht.
Qed.

(** X8.  In random mode the image fetched is one of the enumerated paths (the
    only one when there is just one), and from there on the request is the
    request for that image in explicit mode: on a server coherent about
    working directories [_get_image] ends with the same outcome and the same
    world either way. *)
Theorem random_mode_is_explicit_mode_on_the_draw E fuel s dims w w0 images w1 :
  pwd_names_wd E ->
  falsy (server s) = false ->
  get_or (random_mode s) false = true ->
  connect_of E s w = (Ret tt, w0) ->
  Plugin._list_images_recursive E fuel (get_or (current_path s) "/") w0
    = (Ret images, w1) ->
  images <> [] ->
  In (Facade.random_choice E images) images /\
  (forall p, images = [p] -> Facade.random_choice E images = p) /\
  Facade._get_image E fuel s dims w
  = Facade._get_image E fuel (chosen s (Facade.random_choice E images)) dims w.
Proof.
  intros Hcoh Hs Hrandom Hc Hwalk Hne.
  pose proof (random_choice_in E images Hne) as Hin.
  split; [exact Hin|]. split.
  { intros p ->. destruct Hin as [<-|[]]. reflexivity. }
  pose proof (walk_leaves_the_world E _ _ _ _ _ Hcoh Hwalk) as ->.
  assert (Hchosen : falsy (Some (Facade.random_choice E images)) = false).
  { pose proof (walk_results E _ _ _ _ _ Hwalk) as Hall.
    rewrite Forall_forall in Hall. apply Hall in Hin.
    apply image_under_nonempty in Hin. apply String.eqb_neq. exact Hin. }
  unfold connect_of in Hc. unfold Facade._get_image.
  cbn [chosen server port username password use_tls passive current_path
       random_mode selected_image verticalHandling padImage].
  rewrite Hs, Hrandom. cbn [get_or]. rewrite Hchosen.
  rewrite !(bind_run _ _ _ _ _ Hc).
  unfold try_except.
  rewrite (bind_run _ _ w0 (Facade.random_choice E images) w0).
  - rewrite (bind_run _ _ w0 (Facade.random_choice E images) w0 eq_refl).
    reflexivity.
  - rewrite (bind_run _ _ _ _ _ Hwalk).
    destruct images as [|p rest]; [congruence|reflexivity].
Qed.

Lemma random_mode_is_explicit_mode_on_the_draw_witness :
  In (Facade.random_choice Demo.photos ["/pics/tall.PNG"; "/pics/deep/c.gif"])
     ["/pics/tall.PNG"; "/pics/deep/c.gif"] /\
  (forall p, ["/pics/tall.PNG"; "/pics/deep/c.gif"] = [p] ->
             Facade.random_choice Demo.photos ["/pics/tall.PNG"; "/pics/deep/c.gif"] = p) /\
  Facade._get_image Demo.photos 5 (Demo.shuffle "/pics") (800, 480) fresh_world
  = Facade._get_image Demo.photos 5
      (chosen (Demo.shuffle "/pics")
         (Facade.random_choice Demo.photos ["/pics/tall.PNG"; "/pics/deep/c.gif"]))
      (800, 480) fresh_world.
Proof.
  apply (random_mode_is_explicit_mode_on_the_draw Demo.photos 5 (Demo.shuffle "/pics")
           (800, 480) fresh_world Demo.online _ Demo.online).
  - apply table_env_coherent.
  - reflexivity.
  - reflexivity.
  - vm_compute. reflexivity.
  - vm_compute. reflexivity.
  - discriminate.
Defined.

(** ** The endpoints *)

Section Ends.

Lemma ends_ret {A} (a : A) : ends (ret a).
Proof. intros w. discriminate. Qed.

Lemma ends_raise {A} e : ends (@raise A e).
Proof. intros w. discriminate. Qed.

Lemma ends_get {A} (f : world -> A) : ends (get f).
Proof. intros w. discriminate. Qed.

Lemma ends_modify f : ends (modify f).
Proof. intros w. discriminate. Qed.

Lemma ends_lift {A} (x : exn + A) : ends (lift x).
Proof. destruct x; [apply ends_raise|apply ends_ret]. Qed.

Lemma ends_bind {A B} (m : M A) (k : A -> M B) :
  ends m -> (forall a, ends (k a)) -> ends (bind m k).
Proof.
  intros Hm Hk w. unfold bind. specialize (Hm w).
  destruct (m w) as [[a|e|] w1]; simpl in *; [apply Hk|discriminate|congruence].
Qed.

Lemma ends_try_except {A} (m : M A) (h : exn -> M A) :
  ends m -> (forall e, ends (h e)) -> ends (try_except m h).
Proof.
  intros Hm Hh w. unfold try_except. specialize (Hm w).
  destruct (m w) as [[a|e|] w1]; simpl in *; [discriminate|apply Hh|congruence].
Qed.

Lemma ends_try_except_of {A} kinds (m : M A) (h : exn -> M A) :
  ends m -> (forall e, ends (h e)) -> ends (try_except_of kinds m h).
Proof.
  intros Hm Hh. apply ends_try_except; [exact Hm|].
  intros e. destruct (is_kind kinds e); [apply Hh|apply ends_raise].
Qed.

Lemma ends_try_finally {A} (m : M A) (f : M unit) :
  ends m -> ends f -> ends (try_finally m f).
Proof.
  intros Hm Hf w. unfold try_finally. specialize (Hm w).
  destruct (m w) as [r w1]. specialize (Hf w1).
  destruct (f w1) as [[[]|e|] w2]; simpl in *; [exact Hm|discriminate|congruence].
Qed.

Lemma ends_attempt {A} (m : M A) : ends m -> ends (attempt m).
Proof.
  intros Hm w. unfold attempt. specialize (Hm w).
  destruct (m w) as [[a|e|] w1]; simpl in *; [discriminate|discriminate|congruence].
Qed.

Lemma ends_for_each {A B} (xs : list A) (body : A -> B -> M B) :
  (forall x acc, ends (body x acc)) -> forall acc, ends (for_each xs acc body).
Proof.
  intros Hb. induction xs as [|x xs IH]; intros acc; simpl.
  - apply ends_ret.
  - apply ends_bind; [apply Hb|]. intros a. apply IH.
Qed.

Lemma ends_on_ftp {A} meth (f : conn -> (exn + A) * conn) : ends (on_ftp meth f).
Proof.
  intros w. unfold on_ftp. destruct (ftp w) as [c|]; [|discriminate].
  destruct (conn_sock c); [|discriminate]. destruct (f c) as [[e|a] c']; discriminate.
Qed.

Lemma ends_ftp_connect E host port use_tls : ends (ftp_connect E host port use_tls).
Proof.
  intros w. unfold ftp_connect. destruct (ftp w) as [c|]; [|discriminate].
  destruct (srv_connect E host port use_tls); discriminate.
Qed.

End Ends.

Ltac ending :=
  repeat first
    [ apply ends_ret
    | apply ends_raise
    | apply ends_get
    | apply ends_modify
    | apply ends_lift
    | apply ends_on_ftp
    | apply ends_ftp_connect
    | apply ends_bind
    | apply ends_try_except_of
    | apply ends_try_except
    | apply ends_try_finally
    | apply ends_attempt
    | apply ends_for_each
    | match goal with |- forall _, _ => intro end ].

Section Endpoints.

Variable E : Env.

Lemma ends_probe_nlst path name acc : ends (probe_nlst E path name acc).
Proof.
  unfold probe_nlst. destruct acc as [directories files].
  destruct (is_dots name); [apply ends_ret|].
  apply ends_try_except_of.
  - unfold ftp_pwd, ftp_cwd. ending.
  - intros _. destruct (endswith_any _ _); apply ends_ret.
Qed.

Lemma ends_list_directory_body path : ends (list_directory_body E path).
Proof.
  unfold list_directory_body. apply ends_try_except; [|intros; apply ends_raise].
  apply ends_bind; [apply ends_on_ftp|]. intros _.
  apply ends_bind; [|intros; apply ends_ret].
  apply ends_try_except_of.
  - apply ends_bind; [apply ends_on_ftp|]. intros; apply ends_ret.
  - intros _. apply ends_bind; [apply ends_on_ftp|]. intros names.
    apply ends_for_each. intros. apply ends_probe_nlst.
Qed.

Lemma ends_blueprint_connect server user passwd use_tls passive :
  ends (Blueprint._connect_ftp E server user passwd use_tls passive).
Proof.
  unfold Blueprint._connect_ftp, ftp_new, ftp_login. ending.
Qed.

Lemma ends_quit_quietly : ends (Blueprint.quit_quietly E).
Proof. unfold Blueprint.quit_quietly, ftp_quit. ending. Qed.

Lemma ends_retrbinary p callback :
  (forall data, ends (callback data)) -> ends (ftp_retrbinary E p callback).
Proof. intros Hcb. unfold ftp_retrbinary. ending. apply Hcb. Qed.

Lemma ends_blueprint_download remote_path : ends (Blueprint._download_image E remote_path).
Proof.
  unfold Blueprint._download_image. apply ends_try_except; [|intros; apply ends_raise].
  apply ends_bind; [unfold named_temporary_file; ending|]. intros local_path.
  apply ends_bind; [|intros; apply ends_ret].
  apply ends_retrbinary. intros. apply ends_modify.
Qed.

Lemma ends_pil_open p : ends (pil_open E p).
Proof.
  unfold pil_open. apply ends_bind; [apply ends_get|]. intros d.
  destruct (read_file p d); [apply ends_lift|apply ends_raise].
Qed.

Lemma ends_os_remove p : ends (os_remove E p).
Proof.
  unfold os_remove. destruct (os_remove_error E p); [apply ends_raise|].
  apply ends_bind; [apply ends_get|]. intros [|]; [apply ends_modify|apply ends_raise].
Qed.

(** A handler that answers makes an endpoint answer. *)
Lemma answered {A} (m : M A) (h : exn -> A) w :
  ends m ->
  exists a w', try_except m (fun e => ret (h e)) w = (Ret a, w') /\
               ((m w = (Ret a, w')) \/ exists e, m w = (Raise e, w') /\ a = h e).
Proof.
  intros Hm. unfold try_except. specialize (Hm w).
  destruct (m w) as [[a|e|] w1]; simpl in Hm.
  - exists a, w1. auto.
  - exists (h e), w1. split; [reflexivity|]. right. exists e. auto.
  - congruence.
Qed.

Lemma try_finally_ret_inv {A} (m : M A) (f : M unit) w a w' :
  try_finally m f w = (Ret a, w') ->
  exists w1, m w = (Ret a, w1) /\ f w1 = (Ret tt, w').
Proof.
  unfold try_finally. destruct (m w) as [r w1].
  destruct (f w1) as [[[]|e|] w2] eqn:Hf; intros [= -> <-]. exists w1. auto.
Qed.

(** X9.  The endpoint [/list_directory] always answers, whatever the server
    does: without a server in the body it answers 400 "Server is required"
    and touches nothing; with one it answers either 500 or the listing of the
    requested path (of "/" when the body names none), sorted and filtered. *)
Theorem list_directory_endpoint_answers data w :
  exists r w',
    Blueprint.list_directory E data w = (Ret r, w') /\
    (falsy (rq_server data) = true ->
     r = Error 400 "Server is required" /\ w' = w) /\
    (falsy (rq_server data) = false ->
     (exists l, r = Listed l /\ l_current_path l = get_or (rq_path data) "/" /\
                well_listed l) \/
     (exists msg, r = Error 500 msg)).
Proof.
  unfold Blueprint.list_directory.
  destruct (falsy (rq_server data)) eqn:Hs.
  - exists (Error 400 "Server is required"), w. split; [reflexivity|].
    split; [auto|discriminate].
  - match goal with |- context [try_except ?m _] =>
      destruct (answered m (fun e => Error 500 (message e)) w) as (r & w' & Hrun & Hr)
    end.
    { apply ends_bind; [apply ends_blueprint_connect|]. intros _.
      apply ends_try_finally; [|apply ends_quit_quietly].
      apply ends_bind; [apply ends_list_directory_body|]. intros; apply ends_ret. }
    exists r, w'. split; [exact Hrun|]. split; [discriminate|]. intros _.
    destruct Hr as [Hr|(e & _ & ->)]; [|right; eexists; reflexivity].
    left. returned Hr. apply try_finally_ret_inv in Hr as (w2 & Hr & _).
    returned Hr. apply ret_inv in Hr as [<- _]. exists a0.
    split; [reflexivity|]. split.
    + eapply list_directory_body_fields. exact H0.
    + eapply list_directory_body_well_listed. exact H0.
Qed.

(** X10.  The endpoint [/preview_image] always answers: 400 with nothing
    touched when the body lacks the server or the path, the server being
    checked first; otherwise a preview or 500. *)
Theorem preview_image_endpoint_answers data w :
  exists r w',
    Blueprint.preview_image E data w = (Ret r, w') /\
    (falsy (rq_server data) = true ->
     r = Error 400 "Server is required" /\ w' = w) /\
    (falsy (rq_server data) = false -> falsy (rq_path data) = true ->
     r = Error 400 "Image path is required" /\ w' = w) /\
    (falsy (rq_server data) = false -> falsy (rq_path data) = false ->
     (exists b64, r = Preview b64) \/ (exists msg, r = Error 500 msg)).
Proof.
  unfold Blueprint.preview_image.
  destruct (falsy (rq_server data)) eqn:Hs.
  { exists (Error 400 "Server is required"), w. split; [reflexivity|].
    split; [auto|]. split; discriminate. }
  destruct (falsy (rq_path data)) eqn:Hp.
  { exists (Error 400 "Image path is required"), w. split; [reflexivity|].
    split; [discriminate|]. split; [auto|discriminate]. }
  match goal with |- context [try_except ?m _] =>
    destruct (answered m (fun e => Error 500 (message e)) w) as (r & w' & Hrun & Hr)
  end.
  { apply ends_bind; [apply ends_blueprint_connect|]. intros _.
    apply ends_bind; [apply ends_attempt, ends_blueprint_download|]. intros downloaded.
    apply ends_try_finally.
    - apply ends_bind; [apply ends_lift|]. intros p.
      apply ends_bind; [apply ends_pil_open|]. intros img.
      apply ends_bind; [apply ends_lift|]. intros; apply ends_ret.
    - apply ends_bind; [apply ends_quit_quietly|]. intros _.
      destruct downloaded as [e|p]; [apply ends_ret|].
      apply ends_bind; [apply ends_get|]. intros ex.
      destruct (negb (p =? "")%string && ex)%bool; [apply ends_os_remove|apply ends_ret]. }
  exists r, w'. split; [exact Hrun|]. split; [discriminate|]. split; [discriminate|].
  intros _ _. destruct Hr as [Hr|(e & _ & ->)]; [|right; eexists; reflexivity].
  left. returned Hr. returned Hr. apply try_finally_ret_inv in Hr as (w3 & Hr & _).
  do 3 returned Hr. apply ret_inv in Hr as [<- _]. eexists. reflexivity.
Qed.

End Endpoints.

Lemma list_directory_endpoint_answers_witness :
  exists r w',
    Blueprint.list_directory Demo.photos (Demo.preview_request "/pics") fresh_world
      = (Ret r, w') /\
    ((exists l, r = Listed l /\ l_current_path l = "/pics" /\ well_listed l) \/
     (exists msg, r = Error 500 msg)).
Proof.
  destruct (list_directory_endpoint_answers Demo.photos (Demo.preview_request "/pics")
              fresh_world) as (r & w' & Hrun & _ & Hgiven).
  exists r, w'. split; [exact Hrun|]. apply Hgiven. reflexivity.
Defined.

Lemma preview_image_endpoint_answers_witness :
  exists r w',
    Blueprint.preview_image Demo.photos (Demo.preview_request "/a.jpg") fresh_world
      = (Ret r, w') /\
    ((exists b64, r = Preview b64) \/ (exists msg, r = Error 500 msg)).
Proof.
  destruct (preview_image_endpoint_answers Demo.photos (Demo.preview_request "/a.jpg")
              fresh_world) as (r & w' & Hrun & _ & _ & Hgiven).
  exists r, w'. split; [exact Hrun|]. apply Hgiven; reflexivity.
Defined.

(** ** Scratch files *)

Section ScratchFiles.

Variable E : Env.

Lemma rewrite_fresh p data d :
  on_disk p d = false ->
  map (fun f => if (fst f =? p)%string then (p, snd f ++ data) else f) d = d.
Proof.
  induction d as [|[n b] d IH]; [reflexivity|].
  rewrite on_disk_cons. intros H. apply orb_false_elim in H as [Hn Hd].
  cbn [map fst snd]. rewrite Hn, (IH Hd). reflexivity.
Qed.

Lemma written_fresh p data d :
  on_disk p d = false ->
  map (fun f => if (fst f =? p)%string then (p, snd f ++ data) else f)
      (d ++ [(p, "")])%list
  = (d ++ [(p, data)])%list.
Proof.
  intros H. rewrite map_app, (rewrite_fresh _ _ _ H). cbn [map fst snd].
  rewrite String.eqb_refl. reflexivity.
Qed.

Lemma read_fresh p data d :
  on_disk p d = false -> read_file p (d ++ [(p, data)])%list = Some data.
Proof.
  induction d as [|[n b] d IH]; intros H.
  - cbn [app read_file]. rewrite String.eqb_refl. reflexivity.
  - rewrite on_disk_cons in H. apply orb_false_elim in H as [Hn Hd].
    cbn [app read_file]. rewrite Hn. apply IH, Hd.
Qed.

Lemma unlink_fresh p data d :
  on_disk p d = false -> unlink p (d ++ [(p, data)])%list = d.
Proof.
  unfold unlink. induction d as [|[n b] d IH]; intros H.
  - cbn [app filter fst]. rewrite String.eqb_refl. reflexivity.
  - rewrite on_disk_cons in H. apply orb_false_elim in H as [Hn Hd].
    cbn [app filter fst]. rewrite Hn. cbn [negb]. f_equal. apply IH, Hd.
Qed.

(** What the transfer into a scratch file leaves, on an open session. *)
Lemma plugin_download_run remote w c :
  ftp w = Some c -> conn_sock c = true ->
  Plugin._download_image E remote w
  = let name := next_tmp_name w (scratch_suffix remote) in
    let r := srv_retr E (conn_wd c) remote in
    let w1 := mkWorld (Some c) (temp_files w ++ [name])%list
                (map (fun f => if (fst f =? name)%string
                               then (name, snd f ++ fst r) else f)
                     (disk w ++ [(name, "")])%list)
                (S (tmp_seq w)) (live w) (next_conn w) (trace w) in
    match snd r with
    | None => (Ret name, w1)
    | Some e => (Raise (Exn RuntimeError
                            ("Failed to download image " ++ remote ++ ": " ++ message e)),
                 w1)
    end.
Proof.
  intros Hc Hsock. destruct w as [f t d n l nc tr]. cbn [ftp] in Hc. subst f.
  unfold Plugin._download_image, next_tmp_name, scratch_suffix.
  unfold bind at 1. unfold get at 1. cbn [ftp].
  set (suffix := match os_path_splitext_ext remote with
                 | EmptyString => ".png" | ext => ext end).
  unfold try_except, bind, named_temporary_file, get, modify, ret, ftp_retrbinary,
    on_ftp, file_write, bind, lift, exn_of.
  cbn [ftp tmp_seq disk temp_files live next_conn trace set_ftp set_disk set_tmp_seq
       set_temp_files]. rewrite Hsock.
  cbn [ftp tmp_seq disk temp_files live next_conn trace set_ftp set_disk set_tmp_seq
       set_temp_files fst snd].
  destruct (srv_retr E (conn_wd c) remote) as [bytes [e|]]; reflexivity.
Qed.

Lemma plugin_download_closed remote w c :
  ftp w = Some c -> conn_sock c = false ->
  exists e,
    Plugin._download_image E remote w
    = (Raise e,
       mkWorld (Some c) (temp_files w ++ [next_tmp_name w (scratch_suffix remote)])%list
               (disk w ++ [(next_tmp_name w (scratch_suffix remote), "")])%list
               (S (tmp_seq w)) (live w) (next_conn w) (trace w)).
Proof.
  intros Hc Hsock. destruct w as [f t d n l nc tr]. cbn [ftp] in Hc. subst f.
  unfold Plugin._download_image, next_tmp_name, scratch_suffix.
  unfold bind at 1. unfold get at 1. cbn [ftp].
  set (suffix := match os_path_splitext_ext remote with
                 | EmptyString => ".png" | ext => ext end).
  unfold try_except, bind, named_temporary_file, get, modify, ret, ftp_retrbinary,
    on_ftp, file_write, bind, lift, exn_of, raise.
  cbn [ftp tmp_seq disk temp_files live next_conn trace set_ftp set_disk set_tmp_seq
       set_temp_files]. rewrite Hsock.
  eexists. reflexivity.
Qed.

Lemma sweep_fresh files : forall d name data,
  ~ In name files -> on_disk name d = false ->
  sweep E files (d ++ [(name, data)])%list
  = ((fst (sweep E files d) ++ [(name, data)])%list, snd (sweep E files d)).
Proof.
  induction files as [|q rest IH]; intros d name data Hin Hd; [reflexivity|].
  assert (Hq : (name =? q)%string = false).
  { apply String.eqb_neq. intros ->. apply Hin. left. reflexivity. }
  cbn [sweep]. rewrite on_disk_app, on_disk_cons, Hq.
  change (on_disk q []) with false. rewrite !orb_false_r.
  destruct (on_disk q d) eqn:Hqd; [|apply IH; [intros H; apply Hin; right; exact H|exact Hd]].
  destruct (os_remove_error E q);
    [apply IH; [intros H; apply Hin; right; exact H|exact Hd]|].
  assert (Hu : unlink q (d ++ [(name, data)])%list = (unlink q d ++ [(name, data)])%list).
  { unfold unlink. rewrite filter_app. cbn [filter fst]. rewrite Hq. reflexivity. }
  rewrite Hu, IH.
  - destruct (sweep E rest (unlink q d)) as [d' removed]. reflexivity.
  - intros H; apply Hin; right; exact H.
  - rewrite on_disk_unlink, Hd. apply andb_false_r.
Qed.

Lemma sweep_app files1 files2 d :
  sweep E (files1 ++ files2)%list d
  = (fst (sweep E files2 (fst (sweep E files1 d))),
     (snd (sweep E files1 d) ++ snd (sweep E files2 (fst (sweep E files1 d))))%list).
Proof.
  revert d. induction files1 as [|q rest IH]; intros d.
  - cbn [app sweep fst snd]. destruct (sweep E files2 d); reflexivity.
  - cbn [app sweep]. destruct (on_disk q d); [destruct (os_remove_error E q)|];
      try apply IH.
    rewrite IH. destruct (sweep E rest (unlink q d)) as [d' removed]. reflexivity.
Qed.

Lemma sweep_registered files d name data :
  ~ In name files -> on_disk name d = false -> os_remove_error E name = None ->
  fst (sweep E (files ++ [name])%list (d ++ [(name, data)])%list) = fst (sweep E files d).
Proof.
  intros Hin Hd Hrm. rewrite sweep_app, sweep_fresh by assumption.
  cbn [fst snd sweep]. rewrite Hrm.
  assert (Hfree : on_disk name (fst (sweep E files d)) = false).
  { destruct (on_disk name (fst (sweep E files d))) eqn:H; [|reflexivity].
    apply sweep_subset in H. congruence. }
  rewrite on_disk_app, on_disk_cons, String.eqb_refl, orb_true_r.
  rewrite (unlink_fresh _ _ _ Hfree). reflexivity.
Qed.

(** X11.  A download that returns has stored exactly what the server sent:
    the path returned is the scratch file just created, with the extension of
    the remote path or ".png" when it has none; when that name was free, the
    file is the one new file and holds the bytes of the transfer; the path is
    registered last in [temp_files]; the session is untouched. *)
Theorem download_stores_what_the_server_sent remote w local w' :
  on_disk (next_tmp_name w (scratch_suffix remote)) (disk w) = false ->
  Plugin._download_image E remote w = (Ret local, w') ->
  exists c bytes,
    ftp w = Some c /\ srv_retr E (conn_wd c) remote = (bytes, None) /\
    local = next_tmp_name w (scratch_suffix remote) /\
    disk w' = (disk w ++ [(local, bytes)])%list /\
    read_file local (disk w') = Some bytes /\
    temp_files w' = (temp_files w ++ [local])%list /\
    ftp w' = ftp w.
Proof.
  intros Hfree Hrun. destruct (ftp w) as [c|] eqn:Hc.
  - destruct (conn_sock c) eqn:Hsock.
    + rewrite (plugin_download_run _ _ _ Hc Hsock) in Hrun. cbv zeta in Hrun.
      destruct (srv_retr E (conn_wd c) remote) as [bytes [e|]] eqn:Hretr;
        cbn [fst snd] in Hrun; [discriminate Hrun|].
      injection Hrun as <- <-. exists c, bytes. cbn [disk temp_files ftp].
      rewrite (written_fresh _ _ _ Hfree).
      repeat split; try reflexivity; try assumption. apply read_fresh, Hfree.
    + destruct (plugin_download_closed remote w c Hc Hsock) as [e He].
      rewrite He in Hrun. discriminate Hrun.
  - unfold Plugin._download_image, bind, get in Hrun. rewrite Hc in Hrun.
    discriminate Hrun.
Qed.

(** X12.  Cleanup undoes a download, however the download ends: when the
    name of the scratch file was free and unregistered and [os.remove] does
    not fail on it, [_cleanup_temp_files] after [_download_image] leaves the
    local files that cleanup alone would have left, which are the files of
    before when nothing was registered. *)
Theorem cleanup_undoes_a_download remote w r w1 :
  ~ In (next_tmp_name w (scratch_suffix remote)) (temp_files w) ->
  on_disk (next_tmp_name w (scratch_suffix remote)) (disk w) = false ->
  os_remove_error E (next_tmp_name w (scratch_suffix remote)) = None ->
  Plugin._download_image E remote w = (r, w1) ->
  exists w2,
    Plugin._cleanup_temp_files E w1 = (Ret tt, w2) /\
    temp_files w2 = [] /\
    disk w2 = fst (sweep E (temp_files w) (disk w)) /\
    (temp_files w = [] -> disk w2 = disk w).
Proof.
  intros Hin Hfree Hrm Hrun. exists (swept E w1).
  split; [apply cleanup_temp_files_spec|]. split; [reflexivity|].
  assert (Hdisk : disk (swept E w1) = fst (sweep E (temp_files w) (disk w))).
  { unfold swept. cbn [disk]. destruct (ftp w) as [c|] eqn:Hc.
    - destruct (conn_sock c) eqn:Hsock.
      + rewrite (plugin_download_run _ _ _ Hc Hsock) in Hrun. cbv zeta in Hrun.
        rewrite (written_fresh _ _ _ Hfree) in Hrun.
        destruct (snd (srv_retr E (conn_wd c) remote));
          injection Hrun as _ <-; cbn [disk temp_files];
          apply sweep_registered; assumption.
      + destruct (plugin_download_closed remote w c Hc Hsock) as [e He].
        rewrite He in Hrun. injection Hrun as _ <-. cbn [disk temp_files].
        apply sweep_registered; assumption.
    - unfold Plugin._download_image, bind, get in Hrun. rewrite Hc in Hrun.
      injection Hrun as _ <-. reflexivity. }
  split; [exact Hdisk|]. intros Hnone. rewrite Hdisk, Hnone. reflexivity.
Qed.

End ScratchFiles.

Lemma download_stores_what_the_server_sent_witness :
  exists c bytes,
    ftp Demo.online = Some c /\
    srv_retr Demo.photos (conn_wd c) "/pics/tall.PNG" = (bytes, None) /\
    "/tmp/tmp0.PNG" = next_tmp_name Demo.online (scratch_suffix "/pics/tall.PNG").
Proof.
  destruct (download_stores_what_the_server_sent Demo.photos "/pics/tall.PNG" Demo.online
              "/tmp/tmp0.PNG"
              (snd (Plugin._download_image Demo.photos "/pics/tall.PNG" Demo.online)))
    as (c & bytes & Hc & Hretr & Hname & _).
  - reflexivity.
  - vm_compute. reflexivity.
  - exists c, bytes. auto.
Defined.

Lemma cleanup_undoes_a_download_witness :
  exists w2,
    Plugin._cleanup_temp_files Demo.flaky
      (snd (Plugin._download_image Demo.flaky "/a.jpg" Demo.online)) = (Ret tt, w2) /\
    temp_files w2 = [] /\ disk w2 = [].
Proof.
  destruct (cleanup_undoes_a_download Demo.flaky "/a.jpg" Demo.online
              (fst (Plugin._download_image Demo.flaky "/a.jpg" Demo.online))
              (snd (Plugin._download_image Demo.flaky "/a.jpg" Demo.online)))
    as (w2 & Hrun & Ht & _ & Hd).
  - intros [].
  - reflexivity.
  - reflexivity.
  - destruct (Plugin._download_image Demo.flaky "/a.jpg" Demo.online). reflexivity.
  - exists w2. split; [exact Hrun|]. split; [exact Ht|]. apply Hd. reflexivity.
Defined.

(** ** A request to an endpoint, step by step *)

Section EndpointRuns.

Variable E : Env.

Lemma blueprint_connect_ret_inv server user passwd use_tls passive w w0 :
  Blueprint._connect_ftp E server user passwd use_tls passive w = (Ret tt, w0) ->
  exists home,
    srv_connect E server 21 use_tls = None /\
    srv_login E user passwd = inr home /\
    w0 = mkWorld (Some (mkConn (next_conn w) true home)) (temp_files w) (disk w)
                 (tmp_seq w) (next_conn w :: live w) (S (next_conn w)) (trace w).
Proof.
  unfold Blueprint._connect_ftp. intros H. do 4 returned H.
  unfold ftp_new, modify in H0. injection H0 as _ <-.
  unfold ftp_connect in H1. cbn [ftp set_next_conn set_ftp] in H1.
  destruct (srv_connect E server 21 use_tls) eqn:Hconn; [discriminate|].
  injection H1 as _ <-.
  unfold ftp_login, on_ftp in H2. cbn in H2.
  destruct (srv_login E user passwd) as [e|home] eqn:Hlogin; [discriminate|].
  injection H2 as _ <-. apply ret_inv in H as [_ ->].
  exists home. repeat split.
Qed.

(** [quit] on an open session, with its errors swallowed. *)
Lemma quit_quietly_run w c :
  ftp w = Some c -> conn_sock c = true -> srv_quit E = None ->
  Blueprint.quit_quietly E w
  = (Ret tt, mkWorld (Some (mkConn (conn_id c) false (conn_wd c))) (temp_files w)
                     (disk w) (tmp_seq w) (remove Nat.eq_dec (conn_id c) (live w))
                     (next_conn w) (trace w ++ [EvQuit (conn_id c)])%list).
Proof.
  intros Hc Hsock Hquit.
  unfold Blueprint.quit_quietly, try_except, ftp_quit, bind, on_ftp, modify, exn_of.
  rewrite Hc, Hsock, Hquit. destruct w; reflexivity.
Qed.

Lemma blueprint_download_run remote w c :
  ftp w = Some c -> conn_sock c = true ->
  Blueprint._download_image E remote w
  = let name := next_tmp_name w (scratch_suffix remote) in
    let r := srv_retr E (conn_wd c) remote in
    let w1 := mkWorld (Some c) (temp_files w)
                (map (fun f => if (fst f =? name)%string
                               then (name, snd f ++ fst r) else f)
                     (disk w ++ [(name, "")])%list)
                (S (tmp_seq w)) (live w) (next_conn w) (trace w) in
    match snd r with
    | None => (Ret name, w1)
    | Some e => (Raise (Exn RuntimeError
                            ("Failed to download image " ++ remote ++ ": " ++ message e)),
                 w1)
    end.
Proof.
  intros Hc Hsock. destruct w as [f t d n l nc tr]. cbn [ftp] in Hc. subst f.
  unfold Blueprint._download_image, next_tmp_name, scratch_suffix.
  set (suffix := match os_path_splitext_ext remote with
                 | EmptyString => ".png" | ext => ext end).
  unfold try_except, bind, named_temporary_file, get, modify, ret, ftp_retrbinary,
    on_ftp, file_write, bind, lift, exn_of.
  cbn [ftp tmp_seq disk temp_files live next_conn trace set_ftp set_disk set_tmp_seq
       set_temp_files]. rewrite Hsock.
  cbn [ftp tmp_seq disk temp_files live next_conn trace set_ftp set_disk set_tmp_seq
       set_temp_files fst snd].
  destruct (srv_retr E (conn_wd c) remote) as [bytes [e|]]; reflexivity.
Qed.

Lemma tmp_name_not_empty w suffix : (next_tmp_name w suffix =? "")%string = false.
Proof. reflexivity. Qed.

Lemma quit_quietly_files_kept : keeps files_kept (Blueprint.quit_quietly E).
Proof.
  intros w r w'.
  unfold Blueprint.quit_quietly, try_except, ftp_quit, bind, on_ftp, modify, exn_of, ret.
  destruct (ftp w) as [c|]; [destruct (conn_sock c); [destruct (srv_quit E)|]|];
    intros [= _ <-]; split; reflexivity.
Qed.

(** X13.  A preview is the preview of what the server sent: when
    [/preview_image] answers with a preview and the name of the scratch file
    was free, the login succeeded, the transfer of the requested path ended
    without error, the preview is the encoding of the image decoded from the
    transferred bytes, and the scratch file is gone again: the local files
    are those of before. *)
Theorem preview_shows_what_the_server_sent data w b64 w' :
  on_disk (next_tmp_name w (scratch_suffix (get_or (rq_path data) ""))) (disk w) = false ->
  Blueprint.preview_image E data w = (Ret (Preview b64), w') ->
  exists home bytes img,
    srv_login E (get_or (rq_username data) "anonymous") (get_or (rq_password data) "")
      = inr home /\
    srv_retr E home (get_or (rq_path data) "") = (bytes, None) /\
    image_open E bytes = inr img /\
    jpeg_preview E img = inr b64 /\
    disk w' = disk w /\ temp_files w' = temp_files w.
Proof.
  intros Hfree. unfold Blueprint.preview_image.
  destruct (falsy (rq_server data)); [discriminate|].
  destruct (falsy (rq_path data)); [discriminate|].
  set (path := get_or (rq_path data) "") in *.
  intros H. apply try_except_ret_inv in H as [H|(e & w1 & _ & H)]; [|discriminate H].
  returned H. destruct a.
  apply blueprint_connect_ret_inv in H0 as (home & _ & Hlogin & ->).
  returned H. unfold attempt in H0.
  rewrite blueprint_download_run with (c := mkConn (next_conn w) true home) in H0
    by reflexivity.
  cbv zeta in H0. cbn [disk tmp_seq temp_files live next_conn trace conn_wd] in H0.
  change (next_tmp_name _ (scratch_suffix path))
    with (next_tmp_name w (scratch_suffix path)) in H0.
  set (name := next_tmp_name w (scratch_suffix path)) in *.
  rewrite (written_fresh _ _ _ Hfree) in H0.
  destruct (srv_retr E home path) as [bytes [e|]] eqn:Hretr; cbn [fst snd] in H0;
    injection H0 as <- <-.
  { apply try_finally_ret_inv in H as (w2 & H & _). returned H. discriminate H0. }
  apply try_finally_ret_inv in H as (w2 & Hbody & Hfin).
  exists home, bytes.
  returned Hbody. apply ret_inv in H as [<- ->].
  returned Hbody. unfold pil_open in H. returned H. unfold get in H0.
  injection H0 as <- <-. cbn [disk] in H. rewrite (read_fresh _ _ _ Hfree) in H.
  apply lift_ret_inv in H as [Himg ->].
  returned Hbody. apply lift_ret_inv in H as [Hjpeg ->].
  apply ret_inv in Hbody as [[= <-] ->].
  exists a. split; [exact Hlogin|]. split; [exact Hretr|]. split; [exact Himg|].
  split; [exact Hjpeg|].
  returned Hfin. apply quit_quietly_files_kept in H as [Hd Ht].
  cbn [disk temp_files] in Hd, Ht.
  returned Hfin. unfold os_path_exists, get in H. injection H as <- <-.
  rewrite Hd, on_disk_app, on_disk_cons, String.eqb_refl, orb_true_r in Hfin.
  unfold name in Hfin at 1. rewrite tmp_name_not_empty in Hfin. cbn [negb andb] in Hfin.
  unfold os_remove in Hfin. destruct (os_remove_error E _); [discriminate Hfin|].
  returned Hfin. unfold os_path_exists, get in H. injection H as <- <-.
  rewrite Hd, on_disk_app, on_disk_cons, String.eqb_refl, orb_true_r in Hfin.
  unfold modify in Hfin. injection Hfin as <-. cbn [disk temp_files].
  split; [rewrite Hd; apply unlink_fresh, Hfree|exact Ht].
Qed.

Lemma list_directory_body_only_wd path : keeps only_wd (list_directory_body E path).
Proof.
  unfold list_directory_body.
  apply (keeps_try_except _ only_wd_trans); [|intros; apply (keeps_raise _ only_wd_refl)].
  apply (keeps_bind _ only_wd_trans); [apply ftp_cwd_only_wd|]. intros _.
  apply (keeps_bind _ only_wd_trans); [|intros; apply (keeps_ret _ only_wd_refl)].
  apply (keeps_try_except_of _ only_wd_refl only_wd_trans).
  - apply (keeps_bind _ only_wd_trans); [apply ftp_mlsd_only_wd|].
    intros; apply (keeps_ret _ only_wd_refl).
  - intros _. apply (keeps_bind _ only_wd_trans); [apply ftp_nlst_only_wd|].
    intros names. apply (keeps_for_each _ only_wd_refl only_wd_trans).
    intros name [directories files]. unfold probe_nlst.
    destruct (is_dots name); [apply (keeps_ret _ only_wd_refl)|].
    apply (keeps_try_except_of _ only_wd_refl only_wd_trans).
    + apply (keeps_bind _ only_wd_trans); [apply ftp_pwd_only_wd|]. intros curr_dir.
      apply (keeps_bind _ only_wd_trans); [apply ftp_cwd_only_wd|]. intros _.
      apply (keeps_bind _ only_wd_trans); [apply ftp_cwd_only_wd|]. intros _.
      apply (keeps_ret _ only_wd_refl).
    + intros _. destruct (endswith_any _ _); apply (keeps_ret _ only_wd_refl).
Qed.

Lemma sessions_kept_refl w : sessions_kept w w.
Proof. split; [reflexivity|apply incl_refl]. Qed.

Lemma sessions_kept_trans w1 w2 w3 :
  sessions_kept w1 w2 -> sessions_kept w2 w3 -> sessions_kept w1 w3.
Proof.
  intros [Hl1 Ht1] [Hl2 Ht2]. split; [congruence|eapply incl_tran; eauto].
Qed.

Lemma os_remove_sessions_kept p : keeps sessions_kept (os_remove E p).
Proof.
  unfold os_remove. destruct (os_remove_error E p);
    [apply (keeps_raise _ sessions_kept_refl)|].
  apply (keeps_bind _ sessions_kept_trans); [apply (keeps_get _ sessions_kept_refl)|].
  intros [|]; [|apply (keeps_raise _ sessions_kept_refl)].
  intros w r w' [= _ <-]. split; [reflexivity|]. cbn [trace log_event set_disk].
  apply incl_appl, incl_refl.
Qed.

Lemma pil_open_only_wd p : keeps only_wd (pil_open E p).
Proof.
  unfold pil_open.
  apply (keeps_bind _ only_wd_trans); [apply (keeps_get _ only_wd_refl)|].
  intros d. destruct (read_file p d);
    [apply (keeps_lift _ only_wd_refl)|apply (keeps_raise _ only_wd_refl)].
Qed.

Lemma try_finally_inv {A} (m : M A) (f : M unit) w r w' :
  try_finally m f w = (r, w') ->
  exists r1 w1 r2, m w = (r1, w1) /\ f w1 = (r2, w').
Proof.
  unfold try_finally. destruct (m w) as [r1 w1].
  destruct (f w1) as [[[]|e|] w2] eqn:Hf; intros [= _ <-]; eauto.
Qed.

Lemma answered_inv {A} (m : M A) (h : exn -> A) w a w' :
  try_except m (fun e => ret (h e)) w = (Ret a, w') -> exists r, m w = (r, w').
Proof.
  unfold try_except, ret. destruct (m w) as [[a0|e|] w1]; intros [= _ <-]; eauto.
Qed.

(** Closing the session that the world holds open. *)
Lemma quit_after id w1 r w' :
  srv_quit E = None -> session_of w1 = Some (id, true) ->
  Blueprint.quit_quietly E w1 = (r, w') ->
  live w' = remove Nat.eq_dec id (live w1) /\
  trace w' = (trace w1 ++ [EvQuit id])%list.
Proof.
  intros Hquit Hs Hrun. unfold session_of in Hs.
  destruct (ftp w1) as [c|] eqn:Hc; [|discriminate Hs].
  cbn [option_map] in Hs. injection Hs as Hid Hsock.
  rewrite (quit_quietly_run w1 c Hc Hsock Hquit) in Hrun. injection Hrun as _ <-.
  cbn [live trace]. rewrite Hid. split; reflexivity.
Qed.

Lemma closed_again id l : ~ In id l -> remove Nat.eq_dec id (id :: l) = l.
Proof. intros H. rewrite remove_cons. apply notin_remove, H. Qed.

(** X14.  The endpoints close the session they open: when the connection
    of a request is established and [quit] succeeds, the server holds the
    same sessions after the request as before it, whatever the answer, and
    the quit of the new session is logged unless the answer is 400. *)
Theorem endpoints_close_their_session data w w0 r w' :
  srv_quit E = None ->
  ~ In (next_conn w) (live w) ->
  connect_for E data w = (Ret tt, w0) ->
  answers E data w (Ret r) w' ->
  live w0 = next_conn w :: live w /\
  live w' = live w /\
  (status r <> 400 -> In (EvQuit (next_conn w)) (trace w')).
Proof.
  intros Hquit Hnew Hc Hrun. unfold connect_for in Hc.
  destruct (blueprint_connect_ret_inv _ _ _ _ _ _ _ Hc) as (home & _ & _ & Hw0).
  subst w0. split; [reflexivity|].
  match type of Hc with _ = (_, ?w) => set (w0 := w) in * end.
  assert (Hs0 : session_of w0 = Some (next_conn w, true)) by reflexivity.
  assert (Hl0 : live w0 = next_conn w :: live w) by reflexivity.
  destruct Hrun as [Hrun|Hrun].
  - unfold Blueprint.list_directory in Hrun.
    destruct (falsy (rq_server data)).
    { injection Hrun as <- <-. split; [reflexivity|]. intros H. contradiction H.
      reflexivity. }
    apply answered_inv in Hrun as [x Hrun]. rewrite (bind_run _ _ _ _ _ Hc) in Hrun.
    apply try_finally_inv in Hrun as (r1 & w1 & r2 & Hbody & Hfin).
    assert (Hkept : only_wd w0 w1).
    { revert Hbody. apply (keeps_bind _ only_wd_trans);
        [apply list_directory_body_only_wd|intros; apply (keeps_ret _ only_wd_refl)]. }
    destruct Hkept as (Hs1 & _ & _ & _ & Hl1 & _ & _).
    rewrite Hs0 in Hs1.
    destruct (quit_after _ _ _ _ Hquit Hs1 Hfin) as [Hl Ht].
    rewrite Hl, Hl1, Hl0, Ht. split; [apply closed_again, Hnew|].
    intros _. apply in_or_app. right. left. reflexivity.
  - unfold Blueprint.preview_image in Hrun.
    destruct (falsy (rq_server data)).
    { injection Hrun as <- <-. split; [reflexivity|]. intros H. contradiction H.
      reflexivity. }
    destruct (falsy (rq_path data)).
    { injection Hrun as <- <-. split; [reflexivity|]. intros H. contradiction H.
      reflexivity. }
    apply answered_inv in Hrun as [x Hrun]. rewrite (bind_run _ _ _ _ _ Hc) in Hrun.
    unfold bind at 1 in Hrun. unfold attempt in Hrun.
    rewrite blueprint_download_run with (c := mkConn (next_conn w) true home) in Hrun
      by reflexivity.
    cbv zeta in Hrun.
    match type of Hrun with context [mkWorld ?f ?t ?d ?n ?l ?nc ?tr] =>
      set (w1 := mkWorld f t d n l nc tr) in *
    end.
    assert (Hs1 : session_of w1 = Some (next_conn w, true)) by reflexivity.
    assert (Hl1 : live w1 = next_conn w :: live w) by reflexivity.
    assert (Hfinal : forall downloaded x,
      try_finally
        (p <- lift downloaded ;;
         img <- pil_open E p ;;
         img_str <- lift (jpeg_preview E img) ;;
         ret (Preview img_str))
        (Blueprint.quit_quietly E ;;
         match match downloaded with inr p => Some p | inl _ => None end with
         | Some p =>
             ex <- os_path_exists p ;;
             if (negb (p =? "")%string && ex)%bool then os_remove E p else ret tt
         | None => ret tt
         end) w1 = (x, w') ->
      live w' = live w /\ In (EvQuit (next_conn w)) (trace w')).
    { intros downloaded y Hy.
      apply try_finally_inv in Hy as (r1 & w2 & r2 & Hbody & Hfin).
      assert (Hkept : only_wd w1 w2).
      { revert Hbody. apply (keeps_bind _ only_wd_trans);
          [apply (keeps_lift _ only_wd_refl)|]. intros p.
        apply (keeps_bind _ only_wd_trans); [apply pil_open_only_wd|]. intros img.
        apply (keeps_bind _ only_wd_trans); [apply (keeps_lift _ only_wd_refl)|].
        intros; apply (keeps_ret _ only_wd_refl). }
      destruct Hkept as (Hs2 & _ & _ & _ & Hl2 & _ & _). rewrite Hs1 in Hs2.
      unfold bind at 1 in Hfin.
      destruct (Blueprint.quit_quietly E w2) as [q w3] eqn:Hq.
      destruct (quit_after _ _ _ _ Hquit Hs2 Hq) as [Hl Ht].
      assert (Hrest : sessions_kept w3 w').
      { destruct q as [[]|e|]; try (injection Hfin as _ <-; apply sessions_kept_refl).
        revert Hfin. destruct downloaded as [e|p];
          [apply (keeps_ret _ sessions_kept_refl)|].
        apply (keeps_bind _ sessions_kept_trans);
          [apply (keeps_get _ sessions_kept_refl)|]. intros ex.
        destruct (negb (p =? "")%string && ex)%bool;
          [apply os_remove_sessions_kept|apply (keeps_ret _ sessions_kept_refl)]. }
      destruct Hrest as [Hl3 Ht3]. rewrite Hl3, Hl, Hl2, Hl1.
      split; [apply closed_again, Hnew|].
      apply Ht3. rewrite Ht. apply in_or_app. right. left. reflexivity. }
    destruct (snd (srv_retr E (conn_wd _) _)) as [e|];
      apply Hfinal in Hrun as [Hl Ht]; auto.
Qed.

End EndpointRuns.

Lemma preview_shows_what_the_server_sent_witness :
  exists b64 w' home bytes img,
    Blueprint.preview_image Demo.photos (Demo.preview_request "/a.jpg") fresh_world
      = (Ret (Preview b64), w') /\
    srv_login Demo.photos "anonymous" "" = inr home /\
    srv_retr Demo.photos home "/a.jpg" = (bytes, None) /\
    image_open Demo.photos bytes = inr img /\
    jpeg_preview Demo.photos img = inr b64 /\
    disk w' = [].
Proof.
  assert (Hrun : exists b64,
            Blueprint.preview_image Demo.photos (Demo.preview_request "/a.jpg") fresh_world
            = (Ret (Preview b64),
               snd (Blueprint.preview_image Demo.photos (Demo.preview_request "/a.jpg")
                      fresh_world))).
  { eexists. vm_compute. reflexivity. }
  destruct Hrun as [b64 Hrun].
  destruct (preview_shows_what_the_server_sent Demo.photos (Demo.preview_request "/a.jpg")
              fresh_world b64 _ eq_refl Hrun)
    as (home & bytes & img & Hlogin & Hretr & Himg & Hjpeg & Hd & _).
  exists b64, (snd (Blueprint.preview_image Demo.photos (Demo.preview_request "/a.jpg")
                      fresh_world)), home, bytes, img.
  split; [exact Hrun|]. split; [exact Hlogin|]. split; [exact Hretr|].
  split; [exact Himg|]. split; [exact Hjpeg|exact Hd].
Defined.

Lemma endpoints_close_their_session_witness :
  exists r w',
    Blueprint.preview_image Demo.photos (Demo.preview_request "/a.jpg") Demo.online
      = (Ret r, w') /\
    live w' = [0%nat] /\ In (EvQuit 1) (trace w').
Proof.
  assert (Hrun : exists r,
            Blueprint.preview_image Demo.photos (Demo.preview_request "/a.jpg") Demo.online
            = (Ret r,
               snd (Blueprint.preview_image Demo.photos (Demo.preview_request "/a.jpg")
                      Demo.online))).
  { eexists. vm_compute. reflexivity. }
  destruct Hrun as [r Hrun].
  assert (Hfresh : ~ In (next_conn Demo.online) (live Demo.online)).
  { intros [H|[]]. discriminate H. }
  assert (Hc : connect_for Demo.photos (Demo.preview_request "/a.jpg") Demo.online
               = (Ret tt,
                  snd (connect_for Demo.photos (Demo.preview_request "/a.jpg")
                         Demo.online))).
  { vm_compute. reflexivity. }
  destruct (endpoints_close_their_session Demo.photos (Demo.preview_request "/a.jpg")
              Demo.online _ r _ eq_refl Hfresh Hc (or_intror Hrun))
    as (_ & Hl & Ht).
  exists r, (snd (Blueprint.preview_image Demo.photos (Demo.preview_request "/a.jpg")
                    Demo.online)).
  split; [exact Hrun|]. split; [exact Hl|]. apply Ht.
  assert (Hr : status r = 200).
  { assert (H : fst (Blueprint.preview_image Demo.photos (Demo.preview_request "/a.jpg")
                       Demo.online) = Ret r) by (rewrite Hrun; reflexivity).
    vm_compute in H. injection H as <-. reflexivity. }
  rewrite Hr. discriminate.
Defined.

(** ** The entry point *)

Section EntryPoint.

Variable E : Env.


(** X16.  With [padImage] off, the image [generate_image] returns has the
    resolution of the device, and the resolution with width and height
    exchanged when the device is configured as vertical. *)
Theorem generate_image_fills_the_display fuel settings device_config w img w' :
  get_or (padImage settings) false = false ->
  Entry.generate_image E fuel settings device_config w = (Ret img, w') ->
  (orientation device_config = Some "vertical" ->
   size img = (snd (resolution device_config), fst (resolution device_config))) /\
  (orientation device_config <> Some "vertical" ->
   size img = resolution device_config).
Proof.
  intros Hpad Hrun. unfold Entry.generate_image in Hrun. cbv zeta in Hrun.
  assert (Hsize : forall dims,
            Facade._get_image E fuel settings dims w = (Ret img, w') -> size img = dims).
  { intros [W H] Hd. destruct (get_image_returns_resized _ _ _ _ _ _ _ Hd) as [img0 Hr].
    unfold Fit.resize_to_display in Hr. rewrite Hpad in Hr.
    eapply resize_size. exact Hr. }
  split.
  - intros Ho. rewrite Ho in Hrun. cbn [String.eqb] in Hrun.
    change ("vertical" =? "vertical")%string with true in Hrun.
    apply Hsize in Hrun. exact Hrun.
  - intros Ho. destruct (orientation device_config) as [o|].
    + destruct (o =? "vertical")%string eqn:Heq;
        [apply String.eqb_eq in Heq; congruence|].
      apply Hsize, Hrun.
    + apply Hsize, Hrun.
Qed.

End EntryPoint.


Lemma generate_image_fills_the_display_witness :
  exists img w',
    Entry.generate_image Demo.photos 5 (Demo.show "/a.jpg" None None)
      (mkDevice (8, 6) (Some "vertical")) fresh_world = (Ret img, w') /\
    size img = (6, 8).
Proof.
  assert (Hrun : exists img,
            Entry.generate_image Demo.photos 5 (Demo.show "/a.jpg" None None)
              (mkDevice (8, 6) (Some "vertical")) fresh_world
            = (Ret img,
               snd (Entry.generate_image Demo.photos 5 (Demo.show "/a.jpg" None None)
                      (mkDevice (8, 6) (Some "vertical")) fresh_world))).
  { eexists. vm_compute. reflexivity. }
  destruct Hrun as [img Hrun].
  exists img, (snd (Entry.generate_image Demo.photos 5 (Demo.show "/a.jpg" None None)
                      (mkDevice (8, 6) (Some "vertical")) fresh_world)).
  split; [exact Hrun|].
  apply (generate_image_fills_the_display Demo.photos 5 (Demo.show "/a.jpg" None None)
           (mkDevice (8, 6) (Some "vertical")) fresh_world img _ eq_refl Hrun).
  reflexivity.
Defined.

(** ** What the vertical handling achieves *)

(** X17.  On a display wider than high, the "rotate" policy (also the
    default) and the "crop" policy never hand a portrait image on to the
    final resize: for positive sizes the step succeeds, its result is at most
    as high as wide, and an image that was not portrait passes unchanged. *)
Theorem vertical_handling_hands_on_no_portrait settings img W H :
  0 < width img -> 0 < height img -> 0 < H -> H < W ->
  get_or (verticalHandling settings) "rotate" = "rotate" \/
  verticalHandling settings = Some "crop" ->
  exists img',
    Fit.handle_vertical settings img (W, H) = inr img' /\
    height img' <= width img' /\
    (height img <= width img -> img' = img).
Proof.
  intros Hw Hh HH Hl Hpolicy.
  destruct (Z_lt_le_dec (width img) (height img)) as [Hp|Hp].
  - destruct Hpolicy as [Hv|Hv].
    + rewrite (handle_vertical_rotate _ _ _ _ Hp Hl Hv).
      eexists. split; [reflexivity|]. split; [|lia].
      unfold transpose, build, height, width in *. cbn [size fst snd]. lia.
    + rewrite (handle_vertical_crop _ _ _ _ Hp Hl Hv).
      rewrite crop_box_spec by lia.
      replace (height img * W <? width img * H) with false
        by (symmetry; apply Z.ltb_ge; nia).
      cbv zeta.
      pose proof (quot_shrinks (width img) W H ltac:(lia) HH Hl) as Hq.
      unfold crop.
      replace (width img <? 0) with false by (symmetry; apply Z.ltb_ge; lia).
      match goal with |- context [?a <? ?b] =>
        replace (a <? b) with false by (symmetry; apply Z.ltb_ge; lia)
      end.
      eexists. split; [reflexivity|]. split; [|lia].
      unfold build, height, width in *. cbn [size fst snd]. lia.
  - exists img. split; [|split; [lia|reflexivity]].
    unfold Fit.handle_vertical. unfold width, height in Hp.
    destruct (size img) as [w h]. cbn [fst snd] in Hp.
    replace (h >? w) with false by (symmetry; rewrite Z.gtb_ltb; apply Z.ltb_ge; lia).
    reflexivity.
Qed.

Lemma vertical_handling_hands_on_no_portrait_witness :
  exists img',
    Fit.handle_vertical (Demo.show "/pics/tall.PNG" (Some "crop") None) Demo.tall (800, 600)
      = inr img' /\
    height img' <= width img'.
Proof.
  destruct (vertical_handling_hands_on_no_portrait
              (Demo.show "/pics/tall.PNG" (Some "crop") None) Demo.tall 800 600)
    as (img' & Hrun & Hshape & _).
  - reflexivity.
  - reflexivity.
  - reflexivity.
  - reflexivity.
  - right. reflexivity.
  - exists img'. split; assumption.
Defined.

(** ** From the selected path to the image shown *)

Section Pipeline.

Variable E : Env.

Lemma hung_up_files w :
  disk (hung_up E w) = disk w /\ tmp_seq (hung_up E w) = tmp_seq w /\
  temp_files (hung_up E w) = temp_files w.
Proof.
  unfold hung_up. destruct (ftp w) as [c|]; [|auto].
  destruct (conn_sock c); [destruct (srv_quit E)|]; auto.
Qed.

(** X18.  In explicit mode the image returned is made from the selected
    file and nothing else: when [_get_image] returns and the name of the
    scratch file was free, the login succeeded, the transfer of the selected
    path, asked from the login directory, ended without error, and the result
    is the decoded transfer after the EXIF transposition (skipped when it
    fails), the vertical handling and the final resize, in this order. *)
Theorem get_image_shows_the_selected_file fuel settings dims w img w' :
  get_or (random_mode settings) false = false ->
  on_disk (next_tmp_name w (scratch_suffix (get_or (selected_image settings) "")))
          (disk w) = false ->
  Facade._get_image E fuel settings dims w = (Ret img, w') ->
  exists home bytes img0 img1 img2,
    srv_login E (get_or (username settings) "anonymous") (get_or (password settings) "")
      = inr home /\
    srv_retr E home (get_or (selected_image settings) "") = (bytes, None) /\
    image_open E bytes = inr img0 /\
    (exif_transpose E img0 = inr img1 \/
     (exists e, exif_transpose E img0 = inl e) /\ img1 = img0) /\
    Fit.handle_vertical settings img1 dims = inr img2 /\
    Fit.resize_to_display E settings img2 dims = inr img.
Proof.
  intros Hmode Hfree. unfold Facade._get_image.
  destruct (falsy (server settings)); [discriminate|].
  set (selected := get_or (selected_image settings) "") in *.
  intros H. returned H. destruct a.
  apply plugin_connect_ret_inv in H0 as (home & _ & Hlogin & ->).
  returned H. rewrite Hmode in H.
  returned H. destruct (falsy (selected_image settings)); [discriminate H0|].
  apply ret_inv in H0 as [<- ->].
  destruct (hung_up_files w) as (Hd & Hn & _).
  returned H.
  rewrite plugin_download_run
    with (c := mkConn (next_conn (hung_up E w)) true home) in H0 by reflexivity.
  cbv zeta in H0. unfold next_tmp_name in H0, Hfree.
  cbn [disk tmp_seq temp_files live next_conn trace conn_wd] in H0.
  rewrite Hd, Hn in H0.
  set (name := "/tmp/tmp" ++ str_of_nat (tmp_seq w) ++ scratch_suffix selected) in *.
  rewrite (written_fresh _ _ _ Hfree) in H0.
  destruct (srv_retr E home selected) as [bytes [e|]] eqn:Hretr; cbn [fst snd] in H0;
    [discriminate H0|].
  injection H0 as <- <-.
  returned H. unfold pil_open in H0. returned H0. unfold get in H1.
  injection H1 as <- <-. cbn [disk] in H0. rewrite (read_fresh _ _ _ Hfree) in H0.
  apply lift_ret_inv in H0 as [Himg ->].
  returned H.
  assert (Hexif : exif_transpose E a = inr a0 \/
                  (exists e, exif_transpose E a = inl e) /\ a0 = a).
  { unfold try_except, lift in H0. destruct (exif_transpose E a) as [e|t].
    - apply ret_inv in H0 as [<- _]. right. split; [eexists; reflexivity|reflexivity].
    - apply ret_inv in H0 as [<- _]. left. reflexivity. }
  returned H. apply lift_ret_inv in H1 as [Hvert _].
  returned H. apply lift_ret_inv in H1 as [Hsize _].
  apply ret_inv in H as [<- _].
  exists home, bytes, a, a0, a1. auto 10.
Qed.

End Pipeline.

Lemma get_image_shows_the_selected_file_witness :
  exists img w' home bytes img0 img1 img2,
    Facade._get_image Demo.photos 5 (Demo.show "/pics/tall.PNG" (Some "crop") None)
      (8, 6) fresh_world = (Ret img, w') /\
    srv_login Demo.photos "anonymous" "" = inr home /\
    srv_retr Demo.photos home "/pics/tall.PNG" = (bytes, None) /\
    image_open Demo.photos bytes = inr img0 /\
    Fit.handle_vertical (Demo.show "/pics/tall.PNG" (Some "crop") None) img1 (8, 6)
      = inr img2 /\
    Fit.resize_to_display Demo.photos (Demo.show "/pics/tall.PNG" (Some "crop") None)
      img2 (8, 6) = inr img.
Proof.
  assert (Hrun : exists img,
            Facade._get_image Demo.photos 5 (Demo.show "/pics/tall.PNG" (Some "crop") None)
              (8, 6) fresh_world
            = (Ret img,
               snd (Facade._get_image Demo.photos 5
                      (Demo.show "/pics/tall.PNG" (Some "crop") None) (8, 6)
                      fresh_world))).
  { eexists. vm_compute. reflexivity. }
  destruct Hrun as [img Hrun].
  destruct (get_image_shows_the_selected_file Demo.photos 5
              (Demo.show "/pics/tall.PNG" (Some "crop") None) (8, 6) fresh_world img _
              eq_refl eq_refl Hrun)
    as (home & bytes & img0 & img1 & img2 & Hlogin & Hretr & Himg & _ & Hvert & Hsize).
  exists img, (snd (Facade._get_image Demo.photos 5
                      (Demo.show "/pics/tall.PNG" (Some "crop") None) (8, 6)
                      fresh_world)), home, bytes, img0, img1, img2.
  split; [exact Hrun|]. split; [exact Hlogin|]. split; [exact Hretr|].
  split; [exact Himg|]. split; [exact Hvert|exact Hsize].
Defined.

(** ** A connection that fails *)

Section FailedConnection.

Variable E : Env.

Lemma hung_up_next_conn w : next_conn (hung_up E w) = next_conn w.
Proof.
  unfold hung_up. destruct (ftp w) as [c|]; [|reflexivity].
  destruct (conn_sock c); [destruct (srv_quit E)|]; reflexivity.
Qed.

Lemma plugin_connect_run server port user passwd use_tls passive w :
  Plugin._connect_ftp E server port user passwd use_tls passive w
  = let w1 := hung_up E w in
    let made sock wd sessions :=
      mkWorld (Some (mkConn (next_conn w1) sock wd)) (temp_files w1) (disk w1)
              (tmp_seq w1) sessions (S (next_conn w1)) (trace w1) in
    match srv_connect E server port use_tls with
    | Some e =>
        (Raise (Exn RuntimeError ("Failed to connect to FTP server: " ++ message e)),
         made false "" (live w1))
    | None =>
        match srv_login E user passwd with
        | inl e =>
            (Raise (Exn RuntimeError ("Failed to connect to FTP server: " ++ message e)),
             made true "" (next_conn w1 :: live w1))
        | inr home => (Ret tt, made true home (next_conn w1 :: live w1))
        end
    end.
Proof.
  unfold Plugin._connect_ftp, try_except.
  rewrite (bind_run _ _ _ _ _ (close_ftp_spec E w)).
  unfold bind, ftp_new, modify, ftp_connect, ftp_login, on_ftp, ret, raise.
  cbn [ftp set_next_conn set_ftp set_live live next_conn conn_id conn_sock conn_wd
       temp_files disk tmp_seq trace].
  destruct (srv_connect E server port use_tls) as [e|]; [reflexivity|].
  cbn [ftp set_next_conn set_ftp set_live live next_conn conn_id conn_sock conn_wd
       temp_files disk tmp_seq trace].
  destruct (srv_login E user passwd) as [e|home]; reflexivity.
Qed.

(** X19.  A connection that fails leaves its object behind: after
    [_connect_ftp] raises, [self.ftp] is the new object and not [None], so
    the guards "FTP connection is not established" of the other methods do
    not fire and [_list_directory] fails inside its own handler instead; when
    it was the login that failed, the new session stays open on the
    server. *)
Theorem failed_connect_leaves_its_object server port user passwd use_tls passive w e w' :
  Plugin._connect_ftp E server port user passwd use_tls passive w = (Raise e, w') ->
  exists c,
    ftp w' = Some c /\ conn_id c = next_conn w /\
    (srv_connect E server port use_tls = None ->
     conn_sock c = true /\ In (conn_id c) (live w')) /\
    (srv_connect E server port use_tls <> None -> conn_sock c = false) /\
    (forall path e1 w1,
       Plugin._list_directory E path w' = (Raise e1, w1) ->
       exists e0, e1 = Exn RuntimeError
                         ("Failed to list directory " ++ path ++ ": " ++ message e0)).
Proof.
  rewrite plugin_connect_run. cbv zeta. rewrite hung_up_next_conn. intros H.
  assert (Hguard : forall c, ftp w' = Some c ->
            forall path e1 w1,
              Plugin._list_directory E path w' = (Raise e1, w1) ->
              exists e0, e1 = Exn RuntimeError
                                ("Failed to list directory " ++ path ++ ": " ++ message e0)).
  { intros c Hc path e1 w1 Hl. unfold Plugin._list_directory, bind, get in Hl.
    rewrite Hc in Hl. unfold list_directory_body in Hl.
    apply try_except_reraise_raise_inv in Hl as (e0 & _ & ->). exists e0. reflexivity. }
  destruct (srv_connect E server port use_tls) as [e0|] eqn:Hconn.
  - injection H as _ <-. eexists. split; [reflexivity|]. split; [reflexivity|].
    split; [discriminate|]. split; [reflexivity|]. eapply Hguard. reflexivity.
  - destruct (srv_login E user passwd) as [e0|home]; [|discriminate H].
    injection H as _ <-. eexists. split; [reflexivity|]. split; [reflexivity|].
    split; [intros _; split; [reflexivity|left; reflexivity]|].
    split; [congruence|]. eapply Hguard. reflexivity.
Qed.

End FailedConnection.

Lemma failed_connect_leaves_its_object_witness :
  exists e w' c,
    Plugin._connect_ftp locked_out "nas.local" 21 "anonymous" "" false true fresh_world
      = (Raise e, w') /\
    ftp w' = Some c /\ conn_sock c = true /\ In (conn_id c) (live w').
Proof.
  assert (Hrun : exists e,
            Plugin._connect_ftp locked_out "nas.local" 21 "anonymous" "" false true
              fresh_world
            = (Raise e,
               snd (Plugin._connect_ftp locked_out "nas.local" 21 "anonymous" "" false
                      true fresh_world))).
  { eexists. vm_compute. reflexivity. }
  destruct Hrun as [e Hrun].
  destruct (failed_connect_leaves_its_object locked_out "nas.local" 21 "anonymous" ""
              false true fresh_world e _ Hrun)
    as (c & Hc & _ & Hopen & _).
  destruct (Hopen eq_refl) as [Hsock Hlive].
  exists e, (snd (Plugin._connect_ftp locked_out "nas.local" 21 "anonymous" "" false
                    true fresh_world)), c.
  split; [exact Hrun|]. split; [exact Hc|]. split; [exact Hsock|exact Hlive].
Defined.

(** ** Listings without MLSD *)

Section Fallback.

Variable E : Env.

Lemma probe_nlst_probed path name acc w acc' w' :
  probed E acc -> probe_nlst E path name acc w = (Ret acc', w') -> probed E acc'.
Proof.
  unfold probe_nlst, probed. destruct acc as [ds fs]. cbn [fst snd]. intros [Hd Hf].
  destruct (is_dots name).
  - intros H. apply ret_inv in H as [<- _]. split; assumption.
  - intros H. apply try_except_of_ret_inv in H as [H|(e & w1 & _ & _ & H)].
    + returned H. returned H.
      apply ftp_cwd_ret_inv in H1 as (c & wd & _ & _ & Hcwd & _).
      returned H. apply ret_inv in H as [<- _]. cbn [fst snd].
      split; [|exact Hf]. apply Forall_app. split; [exact Hd|].
      constructor; [|constructor]. unfold probed_dir. cbn [e_type e_size e_path].
      split; [reflexivity|]. split; [reflexivity|]. exists (conn_wd c), wd. exact Hcwd.
    + destruct (endswith_any (lower name) image_exts);
        apply ret_inv in H as [<- _]; cbn [fst snd]; [|split; assumption].
      split; [exact Hd|]. apply Forall_app. split; [exact Hf|].
      constructor; [split; reflexivity|constructor].
Qed.

(** X20.  On a server without MLSD a listing comes from NLST and probing:
    every entry it shows as a directory is a path the server let the session
    change into, and every file is shown with the size "unknown"; in the
    plugin and in the blueprint. *)
Theorem fallback_listing_is_probed path w l w' :
  no_mlsd E ->
  lists_as E path w l w' ->
  Forall (probed_dir E) (l_directories l) /\ Forall unsized_file (l_files l).
Proof.
  intros Hno Hl. apply lists_as_body in Hl. unfold list_directory_body in Hl.
  returned Hl. returned Hl. returned Hl. apply ret_inv in Hl as [<- _].
  cbn [l_directories l_files].
  assert (Hacc : probed E a0).
  { apply try_except_of_ret_inv in H0 as [H0|(e & w2 & _ & _ & H0)].
    - returned H0. unfold ftp_mlsd in H1.
      apply on_ftp_ret_inv in H1 as (c & c' & _ & _ & Hf & _).
      destruct (Hno (conn_wd c)) as [e He]. rewrite He in Hf. discriminate Hf.
    - returned H0. eapply (for_each_inv (probed E)); [| |exact H0].
      + intros x acc wa acc' wb Hacc Hstep. eapply probe_nlst_probed; eauto.
      + split; constructor. }
  destruct Hacc as [Hd Hf]. split; apply sort_by_Forall; assumption.
Qed.

End Fallback.

Lemma fallback_listing_is_probed_witness :
  exists l w',
    Blueprint._list_directory Demo.legacy "/pics" Demo.online = (Ret l, w') /\
    map e_name (l_directories l) = ["deep"] /\
    Forall (probed_dir Demo.legacy) (l_directories l) /\
    Forall unsized_file (l_files l).
Proof.
  assert (Hrun : exists l,
            Blueprint._list_directory Demo.legacy "/pics" Demo.online
            = (Ret l, snd (Blueprint._list_directory Demo.legacy "/pics" Demo.online))).
  { eexists. vm_compute. reflexivity. }
  destruct Hrun as [l Hrun].
  exists l, (snd (Blueprint._list_directory Demo.legacy "/pics" Demo.online)).
  split; [exact Hrun|]. split.
  { assert (H : fst (Blueprint._list_directory Demo.legacy "/pics" Demo.online) = Ret l)
      by (rewrite Hrun; reflexivity).
    vm_compute in H. injection H as <-. reflexivity. }
  apply (fallback_listing_is_probed Demo.legacy "/pics" Demo.online l
           (snd (Blueprint._list_directory Demo.legacy "/pics" Demo.online))).
  - intros wd. eexists. reflexivity.
  - right. exact Hrun.
Defined.
